(** * Hercules: persisted entity stores, catalogue search and derived utilities

    A shallow embedding of the TypeScript sources of the Hercules fitness
    application, and the properties of its specification proved (or refuted)
    against that embedding.

    Conventions of the embedding.
    - JavaScript values that can live in a JSON payload are the type [json];
      [undefined] is [None] in [option json].  Numbers are taken to be
      integers ([Z]); strings are sequences of 8-bit characters, so the text
      functions are modelled on ASCII input.
    - A JavaScript exception is the [Throw] case of [Completion].
    - An [async] function is a [Task]: it runs on the in-memory state up to
      the next call into AsyncStorage, where it is suspended ([Await]) with the
      state every observer can see at that moment.
    - AsyncStorage is a [Device]: a finite map from keys to strings that may
      reject reads or writes.
    - An array handed to a hook is a [JSArray]: the object's identity, which
      is what [useMemo] compares, and what the array holds at the render.
    - The plans store (store/plansStore.ts) is not modelled: the two of its
      functions that [handleSavePlan] calls are parameters of the handler. *)

From Stdlib Require Import ZArith List String Ascii Bool Lia Sorted Permutation.
From stdpp Require Import base option list gmap strings pretty.
Import ListNotations.

Set Warnings "-register-all".

Local Open Scope string_scope.
Local Open Scope list_scope.

(** ** JavaScript values *)

Module JS.

Inductive json : Type :=
| JNull
| JBool (b : bool)
| JNum (n : Z)
| JStr (s : string)
| JArr (items : list json)
| JObj (fields : list (string * json)).

(** The own enumerable properties of an object, in enumeration order. *)
Definition JSObject : Type := list (string * json).

Inductive JSError : Type :=
| TypeError (msg : string)
| RangeError (msg : string)
| SyntaxError (msg : string)
| Error (msg : string)
| HostError (msg : string).   (* raised by an external collaborator *)

Inductive Completion (A : Type) : Type :=
| Normal (a : A)
| Throw (e : JSError).
Arguments Normal {A} a.
Arguments Throw {A} e.

Definition cbind {A B} (c : Completion A) (f : A -> Completion B) : Completion B :=
  match c with
  | Normal a => f a
  | Throw e => Throw e
  end.

(** [xs.map(f)] and [xs.filter(p)] with a callback that may throw: the
    callbacks run left to right and the first exception aborts the loop. *)
Fixpoint mapC {A B} (f : A -> Completion B) (xs : list A) : Completion (list B) :=
  match xs with
  | [] => Normal []
  | x :: rest =>
      cbind (f x) (fun y => cbind (mapC f rest) (fun ys => Normal (y :: ys)))
  end.

Fixpoint filterC {A} (p : A -> Completion bool) (xs : list A) : Completion (list A) :=
  match xs with
  | [] => Normal []
  | x :: rest =>
      cbind (p x) (fun keep =>
      cbind (filterC p rest) (fun ys => Normal (if keep then x :: ys else ys)))
  end.

(** Own property [k] of an object ([undefined] when absent). *)
Fixpoint own (k : string) (fields : JSObject) : option json :=
  match fields with
  | [] => None
  | (k', v) :: rest => if String.eqb k k' then Some v else own k rest
  end.

(** [v?.k]: the property read that gives [undefined] on [null].  Only
    objects carry the names the sources read ([id], [exercises], [sets],
    [reps], ...); arrays and primitives have none of them, except
    [length]. *)
Definition opt_member (v : json) (k : string) : option json :=
  match v with
  | JObj fields => own k fields
  | JArr items => if String.eqb k "length" then Some (JNum (Z.of_nat (List.length items))) else None
  | JStr s => if String.eqb k "length" then Some (JNum (Z.of_nat (String.length s))) else None
  | JNull | JBool _ | JNum _ => None
  end.

(** [v.k]: reading a property of [null] is a TypeError. *)
Definition member (v : json) (k : string) : Completion (option json) :=
  match v with
  | JNull => Throw (TypeError ("Cannot read properties of null (reading '" ++ k ++ "')"))
  | _ => Normal (opt_member v k)
  end.

(** [Boolean(v)]. *)
Definition truthy (v : option json) : bool :=
  match v with
  | None => false
  | Some JNull => false
  | Some (JBool b) => b
  | Some (JNum n) => negb (Z.eqb n 0)
  | Some (JStr s) => negb (String.eqb s "")
  | Some (JArr _) | Some (JObj _) => true
  end.

(** [typeof v === 'number' ? v : fallback]. *)
Definition number_or (fallback : json) (v : option json) : json :=
  match v with
  | Some (JNum n) => JNum n
  | _ => fallback
  end.

(** [a === b] on values read from two different allocations: primitives are
    compared by value, while an object or array is identical only to itself
    and so never to a value that came from elsewhere. *)
Definition strict_eq (a b : option json) : bool :=
  match a, b with
  | None, None => true
  | Some JNull, Some JNull => true
  | Some (JBool x), Some (JBool y) => Bool.eqb x y
  | Some (JNum x), Some (JNum y) => Z.eqb x y
  | Some (JStr x), Some (JStr y) => String.eqb x y
  | _, _ => false
  end.

(** [{ ...fields, k: v }]: an existing key keeps its place and takes the
    new value, a new key goes last. *)
Fixpoint with_property (k : string) (v : json) (fields : JSObject) : JSObject :=
  match fields with
  | [] => [(k, v)]
  | (k', v') :: rest =>
      if String.eqb k k' then (k, v) :: rest else (k', v') :: with_property k v rest
  end.

Fixpoint indexed_from (i : nat) (items : list json) : JSObject :=
  match items with
  | [] => []
  | x :: rest => (pretty i, x) :: indexed_from (S i) rest
  end.

Fixpoint chars (s : string) : list json :=
  match s with
  | EmptyString => []
  | String c rest => JStr (String c EmptyString) :: chars rest
  end.

(** [{ ...v }]: the own enumerable properties of [v]; none for [null] and
    for numbers and booleans, the indexed elements for arrays and strings. *)
Definition spread (v : json) : JSObject :=
  match v with
  | JObj fields => fields
  | JArr items => indexed_from 0 items
  | JStr s => indexed_from 0 (chars s)
  | JNull | JBool _ | JNum _ => []
  end.

End JS.
Export JS.

Declare Scope completion_scope.
Delimit Scope completion_scope with completion.
Notation "'let?' x := c 'in' k" := (cbind c (fun x => k))
  (at level 10, x name, c at level 200, k at level 200) : completion_scope.

(** ** Asynchronous tasks over AsyncStorage *)

Module Async.

(** The calls of [@react-native-async-storage/async-storage] the sources
    make, and what the returned promise settles to. *)
Inductive StorageOp : Type :=
| GetItem (key : string)
| SetItem (key value : string)
| RemoveItem (key : string).

Inductive StorageReply : Type :=
| Resolved (value : option string)
| Rejected (e : JSError).

(** A running [async] function has either finished, with the in-memory
    state it left and its completion, or is suspended at an [await] of a
    storage call: [s] is the state as it stands while the call is pending,
    and [k] resumes the function with the reply and the state found then. *)
Inductive Step (S A : Type) : Type :=
| Done (s : S) (r : Completion A)
| Await (s : S) (op : StorageOp) (k : StorageReply -> S -> Step S A).
Arguments Done {S A} s r.
Arguments Await {S A} s op k.

Definition Task (S A : Type) : Type := S -> Step S A.

Section Combinators.
Context {S : Type}.

Definition ret {A} (a : A) : Task S A := fun s => Done s (Normal a).

Definition throw {A} (e : JSError) : Task S A := fun s => Done s (Throw e).

Definition lift {A} (c : Completion A) : Task S A := fun s => Done s c.

Fixpoint bind_step {A B} (st : Step S A) (f : A -> Task S B) : Step S B :=
  match st with
  | Done s (Normal a) => f a s
  | Done s (Throw e) => Done s (Throw e)
  | Await s op k => Await s op (fun reply s' => bind_step (k reply s') f)
  end.

Definition bind {A B} (m : Task S A) (f : A -> Task S B) : Task S B :=
  fun s => bind_step (m s) f.

(** [try { m } catch (error) { h error }]. *)
Fixpoint catch_step {A} (st : Step S A) (h : JSError -> Task S A) : Step S A :=
  match st with
  | Done s (Normal a) => Done s (Normal a)
  | Done s (Throw e) => h e s
  | Await s op k => Await s op (fun reply s' => catch_step (k reply s') h)
  end.

Definition try_catch {A} (m : Task S A) (h : JSError -> Task S A) : Task S A :=
  fun s => catch_step (m s) h.

(** [try { m } finally { f }], for a [finally] block that completes normally. *)
Fixpoint finally_step {A} (st : Step S A) (f : S -> S) : Step S A :=
  match st with
  | Done s r => Done (f s) r
  | Await s op k => Await s op (fun reply s' => finally_step (k reply s') f)
  end.

Definition try_finally {A} (m : Task S A) (f : S -> S) : Task S A :=
  fun s => finally_step (m s) f.

Definition get : Task S S := fun s => Done s (Normal s).

Definition modify (f : S -> S) : Task S unit := fun s => Done (f s) (Normal tt).

(** [await AsyncStorage.op(...)]. *)
Definition await (op : StorageOp) : Task S (option string) :=
  fun s => Await s op (fun reply s' =>
    match reply with
    | Resolved v => Done s' (Normal v)
    | Rejected e => Done s' (Throw e)
    end).

(** The in-memory state once the synchronous part of a call has run: what
    any observer reads before a pending storage call settles. *)
Definition observable {A} (st : Step S A) : S :=
  match st with
  | Done s _ => s
  | Await s _ _ => s
  end.

End Combinators.

(** The storage behind AsyncStorage: the slots, and whether the platform
    currently fails reads or writes. *)
Record Device : Type := mkDevice {
  slots : gmap string string;
  read_fault : bool;
  write_fault : bool
}.

Definition perform (op : StorageOp) (d : Device) : StorageReply * Device :=
  match op with
  | GetItem key =>
      if read_fault d then (Rejected (HostError "getItem"), d)
      else (Resolved (slots d !! key), d)
  | SetItem key value =>
      if write_fault d then (Rejected (HostError "setItem"), d)
      else (Resolved None, mkDevice (<[key := value]> (slots d)) (read_fault d) (write_fault d))
  | RemoveItem key =>
      if write_fault d then (Rejected (HostError "removeItem"), d)
      else (Resolved None, mkDevice (delete key (slots d)) (read_fault d) (write_fault d))
  end.

(** Running a task to completion against a device, with nothing else
    touching the state or the slots in between. *)
Fixpoint run {S A} (st : Step S A) (d : Device) : S * Device * Completion A :=
  match st with
  | Done s r => (s, d, r)
  | Await s op k => let '(reply, d') := perform op d in run (k reply s) d'
  end.

End Async.
Export Async.

Declare Scope task_scope.
Delimit Scope task_scope with task.
Notation "'let*' x := c 'in' k" := (bind c (fun x => k))
  (at level 10, x name, c at level 200, k at level 200) : task_scope.
Notation "c ;; k" := (bind c (fun _ => k))
  (at level 100, right associativity) : task_scope.

(** ** Data model (types/schedule.ts, types/workout.ts) and application state *)

Inductive ScheduleDayKey : Type :=
| monday | tuesday | wednesday | thursday | friday | saturday | sunday.

Record ScheduleWeekdayAssignment : Type := mkWeekdays {
  on_monday : option string;
  on_tuesday : option string;
  on_wednesday : option string;
  on_thursday : option string;
  on_friday : option string;
  on_saturday : option string;
  on_sunday : option string
}.

#[export] Instance ScheduleDayKey_eq_dec : EqDecision ScheduleDayKey.
Proof. solve_decision. Defined.

Record Schedule : Type := mkSchedule {
  schedule_id : string;
  schedule_name : string;
  weekdays : ScheduleWeekdayAssignment
}.

(** A workout at run time is whatever object the store was handed or
    hydration built: the [Workout] interface is not checked when a payload is
    loaded, which is why [hydrateWorkouts] inspects shapes itself. *)
Definition Workout : Type := JSObject.

Definition plan_ref_toJSON (ref : option string) : json :=
  match ref with
  | None => JNull
  | Some planId => JStr planId
  end.

(** What [JSON.stringify] sees of a schedule. *)
Definition Schedule_toJSON (schedule : Schedule) : json :=
  let w := weekdays schedule in
  JObj [ ("id", JStr (schedule_id schedule));
         ("name", JStr (schedule_name schedule));
         ("weekdays", JObj [ ("sunday", plan_ref_toJSON (on_sunday w));
                             ("monday", plan_ref_toJSON (on_monday w));
                             ("tuesday", plan_ref_toJSON (on_tuesday w));
                             ("wednesday", plan_ref_toJSON (on_wednesday w));
                             ("thursday", plan_ref_toJSON (on_thursday w));
                             ("friday", plan_ref_toJSON (on_friday w));
                             ("saturday", plan_ref_toJSON (on_saturday w)) ]) ].

Inductive Level : Type := LLog | LWarn | LError.

(** The globals [utils/environment.ts] probes. *)
Record Host : Type := mkHost {
  window_defined : bool;
  document_defined : bool;
  navigator_product : option string   (* [None]: [navigator] is undefined *)
}.

(** The in-memory state of the running application: the host globals, the
    console (latest line first), the two zustand stores and the [isSaving]
    state of the plan-save hook. *)
Record App : Type := mkApp {
  host : Host;
  console : list (Level * string);
  schedules : list Schedule;
  workouts : list Workout;
  isSaving : bool
}.

Definition set_schedules (next : list Schedule) (s : App) : App :=
  mkApp (host s) (console s) next (workouts s) (isSaving s).

Definition set_workouts (next : list Workout) (s : App) : App :=
  mkApp (host s) (console s) (schedules s) next (isSaving s).

Definition set_isSaving (b : bool) (s : App) : App :=
  mkApp (host s) (console s) (schedules s) (workouts s) b.

Definition emit (level : Level) (line : string) (s : App) : App :=
  mkApp (host s) ((level, line) :: console s) (schedules s) (workouts s) (isSaving s).

Definition console_log (line : string) : Task App unit := modify (emit LLog line).
Definition console_warn (line : string) : Task App unit := modify (emit LWarn line).
Definition console_error (line : string) : Task App unit := modify (emit LError line).

(** ** utils/environment.ts *)

Module environment.

Definition isBrowser (h : Host) : bool :=
  window_defined h && document_defined h.

Definition isReactNative (h : Host) : bool :=
  match navigator_product h with
  | Some product => String.eqb product "ReactNative"
  | None => false
  end.

Definition canUseAsyncStorage (h : Host) : bool :=
  isBrowser h || isReactNative h.

End environment.
Export environment.

(** The platform's [JSON] object.  [JSON_parse] is [None] where [JSON.parse]
    throws a SyntaxError. *)
Class JSONGlobal : Type := {
  JSON_stringify : json -> string;
  JSON_parse : string -> option json
}.

(** The entry filter shared by the three adapters:
    [(entry) => Boolean(entry?.id)]. *)
Definition has_id (entry : json) : bool := truthy (opt_member entry "id").

(** ** utils/scheduleStorage.ts *)

Module scheduleStorage.
Section WithJSON.
Context `{JSONGlobal}.
Local Open Scope task_scope.

Definition SCHEDULES_STORAGE_KEY : string := "hercules/schedules".

Definition logError (message : string) : Task App unit :=
  console_error ("[scheduleStorage] " ++ message).

Definition serializeSchedules (schedules : list json) : string :=
  JSON_stringify (JArr schedules).

Definition parseSchedules (value : option string) : Task App (list json) :=
  match value with
  | None => ret []
  | Some text =>
      if String.eqb text "" then ret []
      else
        match JSON_parse text with
        | Some (JArr parsed) => ret (List.filter has_id parsed)
        | Some _ => ret []
        | None => logError "Failed to parse schedules snapshot" ;; ret []
        end
  end.

Definition warnAsyncStorageUnavailable (operation : string) : Task App unit :=
  console_warn ("[scheduleStorage] " ++ operation
                ++ " skipped because AsyncStorage is unavailable in this environment.").

Definition loadStoredSchedules : Task App (list json) :=
  let* s := get in
  if negb (canUseAsyncStorage (host s)) then ret []
  else
    try_catch
      (let* stored := await (GetItem SCHEDULES_STORAGE_KEY) in
       parseSchedules stored)
      (fun error => logError "Failed to load stored schedules" ;; ret []).

Definition persistStoredSchedules (schedules : list json) : Task App unit :=
  let* s := get in
  if negb (canUseAsyncStorage (host s)) then
    warnAsyncStorageUnavailable "persistStoredSchedules"
  else
    try_catch
      (console_log "SAVING SCHEDULE TO ASYNCSTORAGE:" ;;
       await (SetItem SCHEDULES_STORAGE_KEY (serializeSchedules schedules)) ;;
       ret tt)
      (fun error =>
         logError "Failed to persist schedules snapshot" ;;
         throw (Error "Unable to persist schedules")).

Definition clearStoredSchedules : Task App unit :=
  let* s := get in
  if negb (canUseAsyncStorage (host s)) then
    warnAsyncStorageUnavailable "clearStoredSchedules"
  else
    try_catch
      (await (RemoveItem SCHEDULES_STORAGE_KEY) ;; ret tt)
      (fun error =>
         logError "Failed to clear stored schedules" ;;
         throw (Error "Unable to clear stored schedules")).

End WithJSON.
End scheduleStorage.

(** ** utils/workoutSessionStorage.ts *)

Module workoutSessionStorage.
Section WithJSON.
Context `{JSONGlobal}.
Local Open Scope task_scope.

Definition WORKOUTS_STORAGE_KEY : string := "hercules/workouts".

Definition logError (message : string) : Task App unit :=
  console_error ("[workoutSessionStorage] " ++ message).

Definition serializeWorkouts (workouts : list json) : string :=
  JSON_stringify (JArr workouts).

Definition parseWorkouts (value : option string) : Task App (list json) :=
  match value with
  | None => ret []
  | Some text =>
      if String.eqb text "" then ret []
      else
        match JSON_parse text with
        | Some (JArr parsed) => ret (List.filter has_id parsed)
        | Some _ => ret []
        | None => logError "Failed to parse workouts snapshot" ;; ret []
        end
  end.

Definition warnAsyncStorageUnavailable (operation : string) : Task App unit :=
  console_warn ("[workoutSessionStorage] " ++ operation
                ++ " skipped because AsyncStorage is unavailable in this environment.").

Definition loadStoredWorkoutSessions : Task App (list json) :=
  let* s := get in
  if negb (canUseAsyncStorage (host s)) then ret []
  else
    try_catch
      (let* stored := await (GetItem WORKOUTS_STORAGE_KEY) in
       parseWorkouts stored)
      (fun error => logError "Failed to load stored workouts" ;; ret []).

Definition persistStoredWorkoutSessions (workouts : list json) : Task App unit :=
  let* s := get in
  if negb (canUseAsyncStorage (host s)) then
    warnAsyncStorageUnavailable "persistStoredWorkoutSessions"
  else
    try_catch
      (await (SetItem WORKOUTS_STORAGE_KEY (serializeWorkouts workouts)) ;; ret tt)
      (fun error =>
         logError "Failed to persist workouts snapshot" ;;
         throw (Error "Unable to persist workouts")).

Definition clearStoredWorkoutSessions : Task App unit :=
  let* s := get in
  if negb (canUseAsyncStorage (host s)) then
    warnAsyncStorageUnavailable "clearStoredWorkoutSessions"
  else
    try_catch
      (await (RemoveItem WORKOUTS_STORAGE_KEY) ;; ret tt)
      (fun error =>
         logError "Failed to clear stored workouts" ;;
         throw (Error "Unable to clear stored workouts")).

End WithJSON.
End workoutSessionStorage.

(** ** store/schedulesStore.ts *)

Module schedulesStore.
Section WithJSON.
Context `{JSONGlobal}.
Import scheduleStorage.
Local Open Scope task_scope.

Definition persist (next : list Schedule) : Task App unit :=
  persistStoredSchedules (map Schedule_toJSON next).

Definition addSchedule (schedule : Schedule) : Task App unit :=
  let* s := get in
  let next := schedule :: schedules s in
  modify (set_schedules next) ;;
  try_catch (persist next)
    (fun error => console_error "[schedulesStore] Failed to persist schedules after add").

Definition deleteSchedule (id : string) : Task App unit :=
  let* s := get in
  let next :=
    List.filter (fun schedule => negb (String.eqb (schedule_id schedule) id)) (schedules s) in
  modify (set_schedules next) ;;
  try_catch (persist next)
    (fun error => console_error "[schedulesStore] Failed to persist schedules after delete").

Definition updateSchedule (schedule : Schedule) : Task App unit :=
  let* s := get in
  let next :=
    map (fun existing =>
           if String.eqb (schedule_id existing) (schedule_id schedule)
           then schedule else existing)
        (schedules s) in
  modify (set_schedules next) ;;
  try_catch (persist next)
    (fun error => console_error "[schedulesStore] Failed to persist schedules after update").

Definition getSchedules (s : App) : list Schedule := schedules s.

End WithJSON.
End schedulesStore.

(** ** store/workoutSessionsStore.ts *)

Module workoutSessionsStore.
Section WithJSON.
Context `{JSONGlobal}.
Import workoutSessionStorage.
Local Open Scope task_scope.

Definition persist (next : list Workout) : Task App unit :=
  persistStoredWorkoutSessions (map JObj next).

Definition addWorkout (workout : Workout) : Task App unit :=
  let* s := get in
  let next := workout :: workouts s in
  modify (set_workouts next) ;;
  try_catch (persist next)
    (fun error => console_error "[workoutSessionsStore] Failed to persist workouts after add").

Definition updateWorkout (workout : Workout) : Task App unit :=
  let* s := get in
  let next :=
    map (fun existing =>
           if strict_eq (own "id" existing) (own "id" workout) then workout else existing)
        (workouts s) in
  modify (set_workouts next) ;;
  try_catch (persist next)
    (fun error => console_error "[workoutSessionsStore] Failed to persist workouts after update").

Definition deleteWorkout (id : string) : Task App unit :=
  let* s := get in
  let next :=
    List.filter (fun workout => negb (strict_eq (own "id" workout) (Some (JStr id))))
                (workouts s) in
  modify (set_workouts next) ;;
  try_catch (persist next)
    (fun error => console_error "[workoutSessionsStore] Failed to persist workouts after delete").

Definition getWorkouts (s : App) : list Workout := workouts s.

Definition clearWorkouts : Task App unit :=
  modify (set_workouts []) ;;
  try_catch clearStoredWorkoutSessions
    (fun error => console_error "[workoutSessionsStore] Failed to clear stored workouts").

(** The three callbacks of the nested [map]s of [hydrateWorkouts].  Reading
    [set.reps] or [exercise.sets] throws when the entry is [null]. *)
Definition normalizeSet (set : json) : Completion json :=
  (let? reps := member set "reps" in
   let? weight := member set "weight" in
   let? completed := member set "completed" in
   Normal (JObj [ ("reps", number_or (JNum 0) reps);
                  ("weight", number_or (JNum 0) weight);
                  ("completed", JBool (truthy completed)) ]))%completion.

Definition normalizeExercise (exercise : json) : Completion json :=
  (let? sets := member exercise "sets" in
   let? normalized :=
     match sets with
     | Some (JArr items) => mapC normalizeSet items
     | _ => Normal []
     end in
   Normal (JObj (with_property "sets" (JArr normalized) (spread exercise))))%completion.

Definition normalizeWorkout (workout : json) : Completion Workout :=
  (let? exercises := member workout "exercises" in
   let? normalized :=
     match exercises with
     | Some (JArr items) => mapC normalizeExercise items
     | _ => Normal []
     end in
   Normal (with_property "exercises" (JArr normalized) (spread workout)))%completion.

Definition hydrateWorkouts : Task App unit :=
  try_catch
    (let* stored := loadStoredWorkoutSessions in
     let* normalized := lift (mapC normalizeWorkout stored) in
     modify (set_workouts normalized))
    (fun error => console_error "[workoutSessionsStore] Failed to hydrate workouts").

End WithJSON.
End workoutSessionsStore.

(** The draft of a profile kept while sign-up is pending
    ([PendingProfileDraft] of utils/storage.ts). *)
Record PendingProfileDraft : Type := mkPendingProfileDraft {
  firstName : string;
  lastName : string;
  email : string
}.

(** What [JSON.stringify] sees of a draft. *)
Definition PendingProfileDraft_toJSON (profile : PendingProfileDraft) : json :=
  JObj [ ("firstName", JStr (firstName profile));
         ("lastName", JStr (lastName profile));
         ("email", JStr (email profile)) ].

(** ** utils/storage.ts (plans) *)

Module storage.
Section WithJSON.
Context `{JSONGlobal}.
Local Open Scope task_scope.

Definition PLANS_STORAGE_KEY : string := "@hercules/plans".

Definition logError (message : string) : Task App unit :=
  console_error ("[storage] " ++ message).

Definition serializePlans (plans : list json) : string :=
  JSON_stringify (JArr plans).

Definition parsePlans (value : option string) : Task App (list json) :=
  match value with
  | None => ret []
  | Some text =>
      if String.eqb text "" then ret []
      else
        match JSON_parse text with
        | Some (JArr parsed) => ret (List.filter has_id parsed)
        | Some _ => ret []
        | None => logError "Failed to parse plans snapshot" ;; ret []
        end
  end.

Definition warnAsyncStorageUnavailable (operation : string) : Task App unit :=
  console_warn ("[storage] " ++ operation
                ++ " skipped because AsyncStorage is unavailable in this environment.").

Definition getPlans : Task App (list json) :=
  let* s := get in
  if negb (canUseAsyncStorage (host s)) then ret []
  else
    try_catch
      (let* storedPlans := await (GetItem PLANS_STORAGE_KEY) in
       parsePlans storedPlans)
      (fun error => logError "Failed to load plans" ;; ret []).

(** [(existing) => existing.id !== plan.id]. *)
Definition other_id (plan : JSObject) (existing : json) : Completion bool :=
  (let? id := member existing "id" in
   Normal (negb (strict_eq id (own "id" plan))))%completion.

Definition savePlan (plan : JSObject) : Task App unit :=
  let* s := get in
  if negb (canUseAsyncStorage (host s)) then
    warnAsyncStorageUnavailable "savePlan"
  else
    try_catch
      (console_log "[storage.savePlan] CALLED WITH:" ;;
       let* existingPlans := getPlans in
       let* filteredPlans := lift (filterC (other_id plan) existingPlans) in
       let updatedPlans := filteredPlans ++ [JObj plan] in
       await (SetItem PLANS_STORAGE_KEY (serializePlans updatedPlans)) ;;
       console_log "[storage.savePlan] SAVED SUCCESSFULLY")
      (fun error =>
         console_error "[storage.savePlan] ERROR:" ;;
         logError "Failed to save plan" ;;
         throw error).

Definition PENDING_PROFILE_KEY : string := "@hercules/pending-profile".

(** [(plan) => plan.id !== id]. *)
Definition not_id (id : string) (plan : json) : Completion bool :=
  (let? planId := member plan "id" in
   Normal (negb (strict_eq planId (Some (JStr id)))))%completion.

Definition deletePlan (id : string) : Task App unit :=
  let* s := get in
  if negb (canUseAsyncStorage (host s)) then
    warnAsyncStorageUnavailable "deletePlan"
  else
    try_catch
      (let* existingPlans := getPlans in
       let* updatedPlans := lift (filterC (not_id id) existingPlans) in
       await (SetItem PLANS_STORAGE_KEY (serializePlans updatedPlans)) ;;
       ret tt)
      (fun error =>
         logError "Failed to delete plan" ;;
         throw (Error "Unable to delete plan")).

Definition setPendingProfileDraft (profile : PendingProfileDraft) : Task App unit :=
  let* s := get in
  if negb (canUseAsyncStorage (host s)) then
    warnAsyncStorageUnavailable "setPendingProfileDraft"
  else
    try_catch
      (await (SetItem PENDING_PROFILE_KEY (JSON_stringify (PendingProfileDraft_toJSON profile))) ;;
       ret tt)
      (fun error => logError "Failed to persist pending profile").

(** [JSON.parse] throws a SyntaxError on a text it cannot read, and reading
    a field of a parsed [null] throws a TypeError; both land in the
    [catch].  The result is [None] for [null]. *)
Definition getPendingProfileDraft : Task App (option json) :=
  let* s := get in
  if negb (canUseAsyncStorage (host s)) then ret None
  else
    try_catch
      (let* rawValue := await (GetItem PENDING_PROFILE_KEY) in
       match rawValue with
       | None => ret None
       | Some text =>
           if String.eqb text "" then ret None
           else
             let* parsed :=
               match JSON_parse text with
               | Some parsed => ret parsed
               | None => throw (SyntaxError "JSON.parse")
               end in
             let* first := lift (member parsed "firstName") in
             if negb (truthy first) then ret None
             else
               let* last := lift (member parsed "lastName") in
               if negb (truthy last) then ret None
               else
                 let* mail := lift (member parsed "email") in
                 if negb (truthy mail) then ret None
                 else ret (Some parsed)
       end)
      (fun error => logError "Failed to load pending profile" ;; ret None).

Definition clearPendingProfileDraft : Task App unit :=
  let* s := get in
  if negb (canUseAsyncStorage (host s)) then
    warnAsyncStorageUnavailable "clearPendingProfileDraft"
  else
    try_catch
      (await (RemoveItem PENDING_PROFILE_KEY) ;; ret tt)
      (fun error => logError "Failed to clear pending profile").

End WithJSON.
End storage.

(** ** Deleting a plan: the cascade over schedules ([confirmDeletePlan]) *)

Module plans.
Section WithJSON.
Context `{JSONGlobal}.

Definition get_day (day : ScheduleDayKey) (w : ScheduleWeekdayAssignment) : option string :=
  match day with
  | monday => on_monday w
  | tuesday => on_tuesday w
  | wednesday => on_wednesday w
  | thursday => on_thursday w
  | friday => on_friday w
  | saturday => on_saturday w
  | sunday => on_sunday w
  end.

Definition set_day (day : ScheduleDayKey) (v : option string) (w : ScheduleWeekdayAssignment)
  : ScheduleWeekdayAssignment :=
  match day with
  | monday => mkWeekdays v (on_tuesday w) (on_wednesday w) (on_thursday w) (on_friday w) (on_saturday w) (on_sunday w)
  | tuesday => mkWeekdays (on_monday w) v (on_wednesday w) (on_thursday w) (on_friday w) (on_saturday w) (on_sunday w)
  | wednesday => mkWeekdays (on_monday w) (on_tuesday w) v (on_thursday w) (on_friday w) (on_saturday w) (on_sunday w)
  | thursday => mkWeekdays (on_monday w) (on_tuesday w) (on_wednesday w) v (on_friday w) (on_saturday w) (on_sunday w)
  | friday => mkWeekdays (on_monday w) (on_tuesday w) (on_wednesday w) (on_thursday w) v (on_saturday w) (on_sunday w)
  | saturday => mkWeekdays (on_monday w) (on_tuesday w) (on_wednesday w) (on_thursday w) (on_friday w) v (on_sunday w)
  | sunday => mkWeekdays (on_monday w) (on_tuesday w) (on_wednesday w) (on_thursday w) (on_friday w) (on_saturday w) v
  end.

(** [Object.keys(nextWeekdays)]: the seven keys of the assignment. *)
Definition Object_keys : list ScheduleDayKey :=
  [sunday; monday; tuesday; wednesday; thursday; friday; saturday].

(** [nextWeekdays[day] === pendingDeletePlan.id]. *)
Definition refers_to (planId : string) (slot : option string) : bool :=
  match slot with
  | Some ref => String.eqb ref planId
  | None => false
  end.

(** The body of the inner [forEach]: [nextWeekdays] and [didUpdate] after
    visiting one key. *)
Definition visit_day (planId : string) (acc : ScheduleWeekdayAssignment * bool)
    (day : ScheduleDayKey) : ScheduleWeekdayAssignment * bool :=
  let '(nextWeekdays, didUpdate) := acc in
  if refers_to planId (get_day day nextWeekdays)
  then (set_day day None nextWeekdays, true)
  else (nextWeekdays, didUpdate).

Definition clear_references (planId : string) (schedule : Schedule)
  : ScheduleWeekdayAssignment * bool :=
  fold_left (visit_day planId) Object_keys (weekdays schedule, false).

(** [void task()]: the call runs up to its first [await]; what remains
    settles later and is not waited for. *)
Definition fire_and_forget {A} (task : Task App A) (s : App) : App :=
  observable (task s).

(** The body of the outer [forEach] over the schedules the screen holds. *)
Definition cascade_one (planId : string) (s : App) (schedule : Schedule) : App :=
  let '(nextWeekdays, didUpdate) := clear_references planId schedule in
  if didUpdate
  then fire_and_forget
         (schedulesStore.updateSchedule
            (mkSchedule (schedule_id schedule) (schedule_name schedule) nextWeekdays)) s
  else s.

(** [confirmDeletePlan], as far as the schedules store is concerned:
    [pendingDeletePlan] is the id of the plan awaiting confirmation and
    [schedules] the collection the screen read from the store.  (The haptic
    feedback, the removal from the plans store and the screen's own state are
    left out.) *)
Definition confirmDeletePlan (pendingDeletePlan : option string)
    (schedules : list Schedule) (s : App) : App :=
  match pendingDeletePlan with
  | None => s
  | Some planId => fold_left (cascade_one planId) schedules s
  end.

End WithJSON.
End plans.

(** ** [Set<string>] *)

Module StringSet.

(** A [Set] of strings is the list of its members in insertion order. *)
Definition set_has (x : string) (members : list string) : bool :=
  existsb (String.eqb x) members.

Definition set_add (x : string) (members : list string) : list string :=
  if set_has x members then members else members ++ [x].

Definition new_Set (items : list string) : list string :=
  fold_left (fun members x => set_add x members) items [].

End StringSet.
Export StringSet.

(** ** utils/strings.ts *)

Module strings.

Definition code (c : ascii) : nat := nat_of_ascii c.

(** [\s] on ASCII: tab, line feed, vertical tab, form feed, carriage return
    and space. *)
Definition is_space (c : ascii) : bool :=
  (((9 <=? code c) && (code c <=? 13)) || (code c =? 32))%nat.

Definition is_lower_alnum (c : ascii) : bool :=
  (((97 <=? code c) && (code c <=? 122)) || ((48 <=? code c) && (code c <=? 57)))%nat.

Definition lower (c : ascii) : ascii :=
  if ((65 <=? code c) && (code c <=? 90))%nat then ascii_of_nat (code c + 32) else c.

Fixpoint map_chars (f : ascii -> ascii) (s : string) : string :=
  match s with
  | EmptyString => EmptyString
  | String c rest => String (f c) (map_chars f rest)
  end.

Definition toLowerCase (s : string) : string := map_chars lower s.

(** [.replace(/[^a-z0-9\s]/g, ' ')]. *)
Definition blank_punctuation (s : string) : string :=
  map_chars (fun c => if is_lower_alnum c || is_space c then c else " "%char) s.

(** [.replace(/\s+/g, ' ')]; [in_run] says that the previous character was
    white space already replaced. *)
Fixpoint collapse_from (in_run : bool) (s : string) : string :=
  match s with
  | EmptyString => EmptyString
  | String c rest =>
      if is_space c
      then (if in_run then collapse_from true rest else String " "%char (collapse_from true rest))
      else String c (collapse_from false rest)
  end.

Definition collapse_spaces (s : string) : string := collapse_from false s.

Fixpoint trimStart (s : string) : string :=
  match s with
  | EmptyString => EmptyString
  | String c rest => if is_space c then trimStart rest else s
  end.

Fixpoint trimEnd (s : string) : string :=
  match s with
  | EmptyString => EmptyString
  | String c rest =>
      match trimEnd rest with
      | EmptyString => if is_space c then EmptyString else String c EmptyString
      | kept => String c kept
      end
  end.

Definition trim (s : string) : string := trimEnd (trimStart s).

(** On ASCII text the NFKD normalisation and the removal of combining marks
    change nothing, so the chain starts at [toLowerCase]. *)
Definition normalizeSearchText (value : string) : string :=
  trim (collapse_spaces (blank_punctuation (toLowerCase value))).

Definition startsWith (s token : string) : bool := String.prefix token s.

Fixpoint includes (s token : string) : bool :=
  String.prefix token s
  || match s with
     | EmptyString => false
     | String _ rest => includes rest token
     end.

(** [s.split(' ')]. *)
Fixpoint split_space (s : string) : list string :=
  match s with
  | EmptyString => [EmptyString]
  | String c rest =>
      if Ascii.eqb c " "%char then EmptyString :: split_space rest
      else
        match split_space rest with
        | word :: words => String c word :: words
        | [] => [String c EmptyString]
        end
  end.

(** [Boolean] on a string. *)
Definition nonempty (s : string) : bool := negb (String.eqb s "").

(** [.replace(/[^a-z0-9]+/g, '-')]; [in_run] says that the previous
    character was part of a run already replaced. *)
Fixpoint dash_runs_from (in_run : bool) (s : string) : string :=
  match s with
  | EmptyString => EmptyString
  | String c rest =>
      if is_lower_alnum c then String c (dash_runs_from false rest)
      else if in_run then dash_runs_from true rest
      else String "-"%char (dash_runs_from true rest)
  end.

Definition dash_runs (s : string) : string := dash_runs_from false s.

(** [.replace(/^-+|-+$/g, '')]. *)
Fixpoint strip_leading_dashes (s : string) : string :=
  match s with
  | EmptyString => EmptyString
  | String c rest => if Ascii.eqb c "-"%char then strip_leading_dashes rest else s
  end.

Fixpoint strip_trailing_dashes (s : string) : string :=
  match s with
  | EmptyString => EmptyString
  | String c rest =>
      match strip_trailing_dashes rest with
      | EmptyString => if Ascii.eqb c "-"%char then EmptyString else String c EmptyString
      | kept => String c kept
      end
  end.

Definition strip_dashes (s : string) : string :=
  strip_trailing_dashes (strip_leading_dashes s).

(** As for [normalizeSearchText], the chain starts at [toLowerCase] on
    ASCII text. *)
Definition slugify (value : string) : string :=
  let slug := strip_dashes (dash_runs (trim (toLowerCase value))) in
  if (0 <? String.length slug)%nat then slug else "item".

End strings.
Export strings.

(** ** utils/storage.ts: the pending auth email *)

Module authEmail.
Import storage.
Local Open Scope task_scope.

Definition PENDING_AUTH_EMAIL_KEY : string := "@hercules/pending-auth-email".

Definition setPendingAuthEmail (email : string) : Task App unit :=
  let* s := get in
  if negb (canUseAsyncStorage (host s)) then
    warnAsyncStorageUnavailable "setPendingAuthEmail"
  else
    try_catch
      (await (SetItem PENDING_AUTH_EMAIL_KEY (toLowerCase (trim email))) ;; ret tt)
      (fun error => logError "Failed to persist pending auth email").

Definition getPendingAuthEmail : Task App (option string) :=
  let* s := get in
  if negb (canUseAsyncStorage (host s)) then ret None
  else
    try_catch
      (let* storedEmail := await (GetItem PENDING_AUTH_EMAIL_KEY) in
       match storedEmail with
       | None => ret None
       | Some text => if String.eqb text "" then ret None else ret (Some text)
       end)
      (fun error => logError "Failed to load pending auth email" ;; ret None).

Definition clearPendingAuthEmail : Task App unit :=
  let* s := get in
  if negb (canUseAsyncStorage (host s)) then
    warnAsyncStorageUnavailable "clearPendingAuthEmail"
  else
    try_catch
      (await (RemoveItem PENDING_AUTH_EMAIL_KEY) ;; ret tt)
      (fun error => logError "Failed to clear pending auth email").

End authEmail.

(** ** hooks/useSemanticExerciseSearch.ts *)

(** The fields of a catalogue item, as [toExercise] builds them. *)
Record ExerciseCatalogItem : Type := mkExercise {
  exercise_id : string;
  exercise_name : string;
  muscleGroup : string;
  filterMuscleGroup : string;
  secondaryMuscleGroups : list string;
  equipment : list string;
  movementPattern : string;
  difficulty : string;
  isCompound : bool;
  isBodyweight : bool;
  searchIndex : string
}.

(** An array handed to a hook: [reference] names the object and [contents]
    is what it holds at the render.  [useMemo] compares the arrays among its
    dependencies by identity ([Object.is]), not by what they hold. *)
Record JSArray (A : Type) : Type := mkJSArray {
  reference : nat;
  contents : list A
}.
Arguments mkJSArray {A} reference contents.
Arguments reference {A} _.
Arguments contents {A} _.

Record UseSemanticExerciseSearchOptions : Type := mkOptions {
  opt_limit : option Z;
  opt_excludeIds : option (JSArray string)
}.

Module search.

Definition TOKEN_SYNONYMS : list (string * list string) :=
  [ ("chest", ["pec"; "pectorals"; "push"]);
    ("pec", ["chest"]);
    ("back", ["pull"; "lats"; "posterior"]);
    ("legs", ["lower"; "quads"; "glutes"; "squat"]);
    ("shoulders", ["delts"; "press"]);
    ("hamstrings", ["posterior"; "hinge"]);
    ("glutes", ["posterior"; "hips"]);
    ("full", ["total"; "compound"]);
    ("press", ["push"]);
    ("row", ["pull"]);
    ("squat", ["legs"; "hinge"]);
    ("deadlift", ["hinge"; "posterior"]);
    ("hinge", ["posterior"; "deadlift"]);
    ("lunge", ["single"; "split"]);
    ("carry", ["farmer"; "loaded"]);
    ("rotation", ["anti-rotation"; "twist"]);
    ("olympic", ["power"; "explosive"]);
    ("arms", ["biceps"; "triceps"]);
    ("biceps", ["arms"]);
    ("triceps", ["arms"]) ].

(** [TOKEN_SYNONYMS] is an object literal, so [TOKEN_SYNONYMS[token]] also
    finds what every object inherits from [Object.prototype]: functions (and,
    for [__proto__], the prototype itself), all truthy and none an array. *)
Definition Object_prototype_names : list string :=
  [ "constructor"; "hasOwnProperty"; "isPrototypeOf"; "propertyIsEnumerable";
    "toLocaleString"; "toString"; "valueOf"; "__proto__";
    "__defineGetter__"; "__defineSetter__"; "__lookupGetter__"; "__lookupSetter__" ].

Inductive Looked : Type :=
| OwnSynonyms (synonyms : list string)
| Inherited
| Undefined.

Fixpoint assoc_string {A} (k : string) (table : list (string * A)) : option A :=
  match table with
  | [] => None
  | (k', v) :: rest => if String.eqb k k' then Some v else assoc_string k rest
  end.

Definition lookup_synonyms (token : string) : Looked :=
  match assoc_string token TOKEN_SYNONYMS with
  | Some synonyms => OwnSynonyms synonyms
  | None =>
      if existsb (String.eqb token) Object_prototype_names then Inherited else Undefined
  end.

(** The callback of [tokens.forEach]: [synonyms.forEach] is not a function
    when the table lookup found an inherited property. *)
Definition add_synonyms (expanded : Completion (list string)) (token : string)
  : Completion (list string) :=
  (let? members := expanded in
   match lookup_synonyms token with
   | OwnSynonyms synonyms =>
       Normal (fold_left (fun acc synonym => set_add synonym acc) synonyms members)
   | Inherited => Throw (TypeError "synonyms.forEach is not a function")
   | Undefined => Normal members
   end)%completion.

Definition expandTokens (tokens : list string) : Completion (list string) :=
  fold_left add_synonyms tokens (Normal (new_Set tokens)).

(** The callback of [tokens.reduce]. *)
Definition add_token_score (exercise : ExerciseCatalogItem) (score : nat) (token : string) : nat :=
  let normalizedName := normalizeSearchText (exercise_name exercise) in
  let muscle := normalizeSearchText (muscleGroup exercise) in
  let filterMuscle := normalizeSearchText (filterMuscleGroup exercise) in
  let secondary := map normalizeSearchText (secondaryMuscleGroups exercise) in
  let equip := map normalizeSearchText (equipment exercise) in
  let pattern := normalizeSearchText (movementPattern exercise) in
  if String.eqb token "" then score
  else if String.eqb normalizedName token then score + 10
  else if startsWith normalizedName token then score + 7
  else if includes normalizedName token then score + 6
  else if includes muscle token || includes filterMuscle token then score + 5
  else if existsb (fun target => includes target token) secondary then score + 4
  else if existsb (fun item => includes item token) equip then score + 4
  else if includes pattern token then score + 3
  else if String.eqb token "compound" && isCompound exercise then score + 5
  else if String.eqb token "bodyweight" && isBodyweight exercise then score + 5
  else if includes (searchIndex exercise) token then score + 2
  else score.

Definition scoreExercise (exercise : ExerciseCatalogItem) (tokens : list string) : nat :=
  match tokens with
  | [] => 0
  | _ => fold_left (add_token_score exercise) tokens 0
  end.

Definition Entry : Type := (ExerciseCatalogItem * nat)%type.

(** [entries.sort((a, b) => b.score - a.score)].  [Array.prototype.sort] is
    stable; an element is placed before the first element of the sorted rest
    whose score is not greater than its own. *)
Fixpoint insert_entry (a : Entry) (sorted : list Entry) : list Entry :=
  match sorted with
  | [] => [a]
  | b :: rest =>
      if (snd a <? snd b)%nat then b :: insert_entry a rest else a :: b :: rest
  end.

Definition sort_by_score (entries : list Entry) : list Entry :=
  fold_right insert_entry [] entries.

(** [xs.slice(0, limit)] for an integer [limit]: a negative [limit] counts
    from the end. *)
Definition slice_to {A} (limit : Z) (xs : list A) : list A :=
  let len := Z.of_nat (List.length xs) in
  let final := if (limit <? 0)%Z then Z.max (len + limit) 0 else Z.min limit len in
  firstn (Z.to_nat final) xs.

(** The callback of the second [useMemo] of the hook. *)
Definition compute_results (query : string) (exercises : list ExerciseCatalogItem)
    (limit : Z) (excludeIds : list string) : Completion (list ExerciseCatalogItem) :=
  let normalizedQuery := normalizeSearchText query in
  if String.eqb normalizedQuery "" then Normal []
  else
    (let? tokens := expandTokens (List.filter nonempty (split_space normalizedQuery)) in
     let excluded := new_Set excludeIds in
     Normal
       (map fst
          (slice_to limit
             (sort_by_score
                (List.filter (fun entry => (0 <? snd entry)%nat)
                   (map (fun exercise => (exercise, scoreExercise exercise tokens))
                      (List.filter (fun exercise => negb (set_has (exercise_id exercise) excluded))
                         exercises)))))))%completion.

(** [ids.slice().sort()]: without a comparator [sort] orders strings by
    their code units. *)
Fixpoint insert_string (a : string) (sorted : list string) : list string :=
  match sorted with
  | [] => [a]
  | b :: rest => if String.leb a b then a :: b :: rest else b :: insert_string a rest
  end.

Definition sort_strings (ids : list string) : list string :=
  fold_right insert_string [] ids.

(** [excludeIds.slice().sort().join('|')]. *)
Definition excludeKey_of (excludeIds : list string) : string :=
  String.concat "|" (sort_strings excludeIds).

(** [useMemo(callback, deps)].  [previous] is the cell the last committed
    render left, dependencies and value ([None] on mount); the callback runs
    when there is none, or when [same] finds a dependency changed, and the
    cell is kept as it is otherwise. *)
Definition useMemo {D V : Type} (same : D -> D -> bool) (previous : option (D * V))
    (callback : Completion V) (deps : D) : Completion (D * V) :=
  match previous with
  | Some (prevDeps, value) =>
      if same deps prevDeps then Normal (prevDeps, value)
      else (let? value := callback in Normal (deps, value))%completion
  | None => (let? value := callback in Normal (deps, value))%completion
  end.

(** The dependency [excludeIds]: the array given, [None]
    for the array literal of the default, a new object at every render. *)
Definition same_array (a b : option nat) : bool :=
  match a, b with
  | Some x, Some y => Nat.eqb x y
  | _, _ => false
  end.

(** The dependencies [exercises, query, limit, excludeKey]. *)
Definition SearchInputs : Type := (nat * string * Z * string)%type.

Definition same_inputs (a b : SearchInputs) : bool :=
  let '(exercises, query, limit, excludeKey) := a in
  let '(exercises', query', limit', excludeKey') := b in
  Nat.eqb exercises exercises' && String.eqb query query'
  && Z.eqb limit limit' && String.eqb excludeKey excludeKey'.

(** The two memo cells of a mounted hook. *)
Record SearchHooks : Type := mkSearchHooks {
  excludeKey_cell : option (option nat * string);
  results_cell : option (SearchInputs * list ExerciseCatalogItem)
}.

Definition mount : SearchHooks := mkSearchHooks None None.

(** One render of the hook, from the cells [hooks] of the last committed
    render.  A render that throws is discarded: the cells stay as they
    were. *)
Definition useSemanticExerciseSearch (hooks : SearchHooks) (query : string)
    (exercises : JSArray ExerciseCatalogItem)
    (options : option UseSemanticExerciseSearchOptions)
  : SearchHooks * Completion (list ExerciseCatalogItem) :=
  let limit := default 6%Z (o ← options; opt_limit o) in
  let given := o ← options; opt_excludeIds o in
  let excludeIds := default [] (contents <$> given) in
  let render :=
    (let? keyCell :=
       useMemo same_array (excludeKey_cell hooks) (Normal (excludeKey_of excludeIds))
         (reference <$> given) in
     let excludeKey := snd keyCell in
     let? cell :=
       useMemo same_inputs (results_cell hooks)
         (compute_results query (contents exercises) limit excludeIds)
         (reference exercises, query, limit, excludeKey) in
     Normal (mkSearchHooks (Some keyCell) (Some cell), snd cell))%completion in
  match render with
  | Normal (committed, found) => (committed, Normal found)
  | Throw e => (hooks, Throw e)
  end.

End search.

(** ** constants/exercises.ts *)

(** An entry of the exercise data that passed [isValidRawExercise]. *)
Record RawExercise : Type := mkRawExercise {
  raw_id : string;
  raw_name : string;
  raw_primary_muscle : string;
  raw_secondary_muscles : list string;
  raw_equipment : list string;
  raw_movement_pattern : string;
  raw_difficulty : string;
  raw_is_compound : bool;
  raw_muscle_group : string
}.

Module exercises.

(** [parts.join(' ')]. *)
Fixpoint join_spaced (parts : list string) : string :=
  match parts with
  | [] => ""
  | [part] => part
  | part :: rest => part ++ " " ++ join_spaced rest
  end.

(** [equipment.length === 1 && equipment[0] === 'Bodyweight']. *)
Definition only_bodyweight (equipment : list string) : bool :=
  (List.length equipment =? 1)%nat
  && match equipment with
     | first :: _ => String.eqb first "Bodyweight"
     | [] => false
     end.

Definition buildSearchIndex (exercise : RawExercise) : string :=
  let parts :=
    [raw_name exercise; raw_primary_muscle exercise]
    ++ raw_secondary_muscles exercise
    ++ raw_equipment exercise
    ++ [raw_movement_pattern exercise; raw_difficulty exercise; raw_muscle_group exercise] in
  let parts := if raw_is_compound exercise then parts ++ ["compound"] else parts in
  let parts :=
    if only_bodyweight (raw_equipment exercise) then parts ++ ["bodyweight"] else parts in
  normalizeSearchText (join_spaced parts).

Definition toExercise (exercise : RawExercise) : ExerciseCatalogItem :=
  let isBodyweight := only_bodyweight (raw_equipment exercise) in
  mkExercise (raw_id exercise) (raw_name exercise) (raw_primary_muscle exercise)
    (raw_muscle_group exercise) (raw_secondary_muscles exercise) (raw_equipment exercise)
    (raw_movement_pattern exercise) (raw_difficulty exercise) (raw_is_compound exercise)
    isBodyweight (buildSearchIndex exercise).

(** [new Map(exercises.map((exercise) => [exercise.id, exercise]))]: the
    entries are set in order, a later entry replacing an earlier one with the
    same key. *)
Definition exerciseLookup (exercises : list ExerciseCatalogItem)
  : gmap string ExerciseCatalogItem :=
  fold_left (fun lookup exercise => <[exercise_id exercise := exercise]> lookup) exercises ∅.

(** [exercises] is the exported catalogue; [None] is [undefined]. *)
Definition getExerciseById (exercises : list ExerciseCatalogItem) (id : string)
  : option ExerciseCatalogItem :=
  exerciseLookup exercises !! id.

End exercises.

(** ** lib/supabaseClient.ts: the in-memory fallback of the auth storage *)

Module supabaseClient.

(** What [memoryStorage[key] ?? null] evaluates to: a stored string, a value
    inherited from [Object.prototype] (a function, or the prototype itself
    for [__proto__]), or [null]. *)
Inductive Item : Type :=
| StoredItem (value : string)
| InheritedItem
| NullItem.

(** [memoryStorage] is an object literal; its own properties, a finite map
    from keys to strings, are the entries set so far. *)
Definition getItem (memoryStorage : gmap string string) (key : string) : Item :=
  match memoryStorage !! key with
  | Some value => StoredItem value
  | None =>
      if existsb (String.eqb key) search.Object_prototype_names then InheritedItem
      else NullItem
  end.

(** Assigning a string to [__proto__] goes to the inherited setter, which
    ignores values that are not objects. *)
Definition setItem (memoryStorage : gmap string string) (key value : string)
  : gmap string string :=
  if String.eqb key "__proto__" then memoryStorage else <[key := value]> memoryStorage.

Definition removeItem (memoryStorage : gmap string string) (key : string)
  : gmap string string :=
  delete key memoryStorage.

End supabaseClient.

(** ** The platform's [Date], in local time *)

Module JSDate.
Local Open Scope Z_scope.

(** Day number (days since 1970-01-01) of a date of the proleptic Gregorian
    calendar, [m] in 1..12, and back. *)
Definition days_from_civil (y m d : Z) : Z :=
  let y' := if m <=? 2 then y - 1 else y in
  let era := y' / 400 in
  let yoe := y' - era * 400 in
  let doy := (153 * (if 2 <? m then m - 3 else m + 9) + 2) / 5 + d - 1 in
  let doe := yoe * 365 + yoe / 4 - yoe / 100 + doy in
  era * 146097 + doe - 719468.

Definition civil_from_days (z : Z) : Z * Z * Z :=
  let z' := z + 719468 in
  let era := z' / 146097 in
  let doe := z' - era * 146097 in
  let yoe := (doe - doe / 1460 + doe / 36524 - doe / 146096) / 365 in
  let doy := doe - (365 * yoe + yoe / 4 - yoe / 100) in
  let mp := (5 * doy + 2) / 153 in
  let d := doy - (153 * mp + 2) / 5 + 1 in
  let m := if mp <? 10 then mp + 3 else mp - 9 in
  (if m <=? 2 then yoe + era * 400 + 1 else yoe + era * 400, m, d).

(** A valid [Date], read on the local wall clock: the local day number and
    the milliseconds into that day.  (Zone transitions that remove a local
    calendar day are not modelled.) *)
Record DateTime : Type := mkDateTime {
  local_day : Z;
  ms_of_day : Z
}.

(** A [Date] object: [None] is the Invalid Date. *)
Definition Date : Type := option DateTime.

Definition getFullYear (t : DateTime) : Z := fst (fst (civil_from_days (local_day t))).
Definition getMonth (t : DateTime) : Z := snd (fst (civil_from_days (local_day t))) - 1.
Definition getDate (t : DateTime) : Z := snd (civil_from_days (local_day t)).
Definition getDay (t : DateTime) : Z := (local_day t + 4) mod 7.

(** [t.setHours(0, 0, 0, 0)]. *)
Definition setHours0 (t : DateTime) : DateTime := mkDateTime (local_day t) 0.

(** [t.setDate(n)]: day [n] of the month [t] is in, where [n] may lie outside
    the month. *)
Definition setDate (t : DateTime) (n : Z) : DateTime :=
  mkDateTime (days_from_civil (getFullYear t) (getMonth t + 1) 1 + n - 1) (ms_of_day t).

(** [new Date(value)] in the host's time zone. *)
Class DateGlobal : Type := {
  Date_of : json -> Date
}.

End JSDate.
Export JSDate.

(** ** utils/date.ts *)

Module date.

Fixpoint repeat_char (n : nat) (c : ascii) : string :=
  match n with
  | O => EmptyString
  | S n' => String c (repeat_char n' c)
  end.

(** [s.padStart(targetLength, c)] for a one-character pad string. *)
Definition padStart (targetLength : nat) (c : ascii) (s : string) : string :=
  repeat_char (targetLength - String.length s) c ++ s.

(** On the Invalid Date every getter is [NaN]. *)
Definition formatDateToLocalISO (date : Date) : string :=
  match date with
  | Some t =>
      let year := pretty (getFullYear t) in
      let month := padStart 2 "0" (pretty (getMonth t + 1)%Z) in
      let day := padStart 2 "0" (pretty (getDate t)) in
      year ++ "-" ++ month ++ "-" ++ day
  | None =>
      "NaN" ++ "-" ++ padStart 2 "0" "NaN" ++ "-" ++ padStart 2 "0" "NaN"
  end.

End date.
Export date.

(** ** utils/workout.ts *)

Module workout.
Local Open Scope Z_scope.

(** [value.reduce] and [value.filter] exist on arrays only: on [undefined]
    and on every other JSON value the call is a TypeError. *)
Definition array_method (method : string) (v : option json) : Completion (list json) :=
  match v with
  | Some (JArr items) => Normal items
  | _ => Throw (TypeError (method ++ " is not a function"))
  end.

(** [(set) => set.completed]. *)
Definition is_completed (set : json) : Completion bool :=
  (let? completed := member set "completed" in Normal (truthy completed))%completion.

(** The callback of [workout.exercises.reduce]; the pair is
    [(totalSets, completedSets)]. *)
Definition add_exercise_totals (acc : Completion (Z * Z)) (exercise : json)
  : Completion (Z * Z) :=
  (let? totals := acc in
   let? sets := member exercise "sets" in
   let? all := array_method "filter" sets in
   let? completed := filterC is_completed all in
   Normal (fst totals + Z.of_nat (List.length all),
           snd totals + Z.of_nat (List.length completed)))%completion.

(** [None] is a [null] workout. *)
Definition getWorkoutTotals (workout : option Workout) : Completion (Z * Z) :=
  match workout with
  | None => Normal (0, 0)
  | Some fields =>
      (let? exercises := array_method "reduce" (own "exercises" fields) in
       fold_left add_exercise_totals exercises (Normal (0, 0)))%completion
  end.

(** [duration] is a whole number of seconds; [None] is [undefined]. *)
Definition formatDurationLabel (duration : option Z) : string :=
  match duration with
  | None => "Not tracked"
  | Some seconds_total =>
      if (seconds_total =? 0) || (seconds_total <=? 0) then "Not tracked"
      else
        let minutes := seconds_total / 60 in
        let seconds := seconds_total mod 60 in
        if minutes =? 0 then (pretty seconds ++ "s")%string
        else (pretty minutes ++ "m " ++ padStart 2 "0" (pretty seconds) ++ "s")%string
  end.

End workout.

(** ** utils/dashboard.ts *)

Record WeekDayTracker : Type := mkWeekDay {
  tracker_id : string;
  label : string;
  date_label : string;     (* the field [date] *)
  hasWorkout : bool;
  isToday : bool
}.

Module dashboard.
Section WithDate.
Context `{DateGlobal}.

Definition dayLabels : list string := ["Sun"; "Mon"; "Tue"; "Wed"; "Thu"; "Fri"; "Sat"].

Definition getWorkoutLocalISO (workout : Workout) : option string :=
  if truthy (own "startTime" workout)
  then Some (formatDateToLocalISO (Date_of (default JNull (own "startTime" workout))))
  else if truthy (own "date" workout)
  then Some (formatDateToLocalISO (Date_of (default JNull (own "date" workout))))
  else None.

(** The callback of [workouts.forEach]. *)
Definition add_workout_date (workoutDates : list string) (workout : Workout) : list string :=
  match getWorkoutLocalISO workout with
  | Some workoutISO => if nonempty workoutISO then set_add workoutISO workoutDates else workoutDates
  | None => workoutDates
  end.

(** [today] is what [getDeviceCurrentDate()] returned. *)
Definition startOfWeek (today : DateTime) : DateTime :=
  setDate (setHours0 today) (getDate today - getDay today).

Definition dayDate (today : DateTime) (index : nat) : DateTime :=
  setDate (startOfWeek today) (getDate (startOfWeek today) + Z.of_nat index).

Definition createWeekTracker (today : DateTime) (workouts : list Workout) : list WeekDayTracker :=
  let todayISO := formatDateToLocalISO (Some today) in
  let workoutDates := fold_left add_workout_date workouts [] in
  imap (fun index label =>
          let dayISO := formatDateToLocalISO (Some (dayDate today index)) in
          mkWeekDay (dayISO ++ "-" ++ toLowerCase label)
                    label
                    (pretty (getDate (dayDate today index)))
                    (set_has dayISO workoutDates)
                    (String.eqb dayISO todayISO))
       dayLabels.

End WithDate.
End dashboard.

(** ** Saving a plan (hooks/usePlanSaveHandler.ts, hooks/usePlanBuilder.ts) *)

Inductive SubmitPlanResult : Type :=
| success          (* 'success' *)
| missing_name     (* 'missing-name' *)
| no_exercises     (* 'no-exercises' *)
| error.           (* 'error' *)

Record PlanExercise : Type := mkPlanExercise {
  plan_exercise_id : string;
  plan_exercise_name : string;
  plan_exercise_sets : Z
}.

(** What the surroundings of a save hand in: the clock, the random suffix of
    a fresh identifier, and how the awaited haptic notification settles. *)
Record Collaborators : Type := mkCollaborators {
  Date_now : Z;
  random_suffix : string;
  Haptics_notificationAsync : Completion unit
}.

(** The object [handleSavePlan] hands to the plans store. *)
Record Plan : Type := mkPlan {
  plan_id : string;
  plan_name : string;
  plan_exercises : list ExerciseCatalogItem;
  plan_createdAt : Z
}.

Module planSave.
Local Open Scope Z_scope.

(** A time value is valid within 8.64e15 ms of the epoch; [toISOString]
    throws a RangeError on the Invalid Date.  [iso] is the host's rendering
    of a valid time value. *)
Definition is_time_value (t : Z) : bool :=
  (-8640000000000000 <=? t) && (t <=? 8640000000000000).

Definition toISOString (iso : Z -> string) (t : Z) : Completion string :=
  if is_time_value t then Normal (iso t) else Throw (RangeError "Invalid time value").

Definition PlanExercise_toJSON (exercise : PlanExercise) : json :=
  JObj [ ("id", JStr (plan_exercise_id exercise));
         ("name", JStr (plan_exercise_name exercise));
         ("sets", JNum (plan_exercise_sets exercise)) ].

Definition WorkoutPlan_object (id name : string) (exercises : list PlanExercise)
    (createdAt : string) : JSObject :=
  [ ("id", JStr id);
    ("name", JStr name);
    ("exercises", JArr (map PlanExercise_toJSON exercises));
    ("createdAt", JStr createdAt) ].

End planSave.

Module usePlanSaveHandler.
Section WithJSON.
Context `{JSONGlobal}.
Import planSave.
Local Open Scope task_scope.

Definition DEFAULT_PLAN_SET_COUNT : Z := 3.

(** The parameters of the hook, and what the callback closed over at the
    last render: the [isSaving] value and the two functions selected from
    the plans store, [addPlan] (as [persistPlan]) and [updatePlan].
    The plans store itself is not modelled, so the two are taken as they
    come: each is a task that stands for what the call does to the
    state and to the device before the handler goes on, a [Throw] being an
    exception of the call itself.  The handler does not await them. *)
Record UsePlanSaveHandlerParams : Type := mkParams {
  editingPlanId : option string;
  planName : string;
  selectedExercises : list ExerciseCatalogItem;
  editingPlanCreatedAt : option Z;
  resetBuilder : Completion unit;
  onSuccess : option (Completion unit);
  closed_isSaving : bool;
  persistPlan : Plan -> Task App unit;
  updatePlan : Plan -> Task App unit
}.

Definition createPlanIdentifier (c : Collaborators) : string :=
  pretty (Date_now c) ++ "-" ++ random_suffix c.

Definition handleSavePlan (iso : Z -> string) (c : Collaborators)
    (p : UsePlanSaveHandlerParams) : Task App SubmitPlanResult :=
  let trimmedName := trim (planName p) in
  if String.eqb trimmedName "" then ret missing_name
  else if (List.length (selectedExercises p) =? 0)%nat then ret no_exercises
  else if closed_isSaving p then ret error
  else
    modify (set_isSaving true) ;;
    let planIdentifier := default (createPlanIdentifier c) (editingPlanId p) in
    let createdAtTimestamp := default (Date_now c) (editingPlanCreatedAt p) in
    let normalizedExercises :=
      map (fun exercise =>
             mkPlanExercise (exercise_id exercise) (exercise_name exercise) DEFAULT_PLAN_SET_COUNT)
          (selectedExercises p) in
    let* createdAt := lift (toISOString iso createdAtTimestamp) in
    let payload := WorkoutPlan_object planIdentifier trimmedName normalizedExercises createdAt in
    let isEditing := match editingPlanId p with Some id => nonempty id | None => false end in
    try_finally
      (try_catch
         (storage.savePlan payload ;;
          (if isEditing
           then updatePlan p (mkPlan planIdentifier trimmedName (selectedExercises p)
                                createdAtTimestamp)
           else persistPlan p (mkPlan planIdentifier trimmedName (selectedExercises p)
                                 createdAtTimestamp)) ;;
          lift (Haptics_notificationAsync c) ;;
          (if isEditing then ret tt else lift (resetBuilder p)) ;;
          match onSuccess p with
          | Some callback => lift callback
          | None => ret tt
          end ;;
          ret success)
         (fun failure =>
            console_error "[usePlanSaveHandler] Failed to save plan" ;;
            ret error))
      (set_isSaving false).

(** [isSaveDisabled], for the value of [isSaving] at the render. *)
Definition isSaveDisabled (p : UsePlanSaveHandlerParams) (saving : bool) : bool :=
  (String.length (trim (planName p)) =? 0)%nat
  || (List.length (selectedExercises p) =? 0)%nat
  || saving.

End WithJSON.
End usePlanSaveHandler.

Module usePlanBuilder.
Section WithJSON.
Context `{JSONGlobal}.
Import planSave.
Local Open Scope task_scope.

Definition createPlanId (c : Collaborators) : string :=
  pretty (Date_now c) ++ "-" ++ random_suffix c.

(** [planName] and [selectedExercises] are the hook's state at the call;
    [new Date()] is the current instant, always a valid time value. *)
Definition submitPlan (iso : Z -> string) (c : Collaborators)
    (planName : string) (selectedExercises : list PlanExercise) : Task App SubmitPlanResult :=
  let trimmedName := trim planName in
  console_log "[usePlanBuilder] SUBMITTING PLAN:" ;;
  if String.eqb trimmedName "" then ret missing_name
  else if (List.length selectedExercises =? 0)%nat then ret no_exercises
  else
    modify (set_isSaving true) ;;
    let payload :=
      WorkoutPlan_object (createPlanId c) trimmedName selectedExercises (iso (Date_now c)) in
    try_finally
      (try_catch
         (console_log "[usePlanBuilder] Calling savePlan with:" ;;
          storage.savePlan payload ;;
          lift (Haptics_notificationAsync c) ;;
          ret success)
         (fun failure =>
            console_error "[usePlanBuilder] failed to save plan" ;;
            ret error))
      (set_isSaving false).

End WithJSON.
End usePlanBuilder.

(** ** Searching and selecting exercises (hooks/usePlanBuilder.ts) *)

Inductive AddExerciseResult : Type :=
| add_success      (* 'success' *)
| add_invalid.     (* 'invalid' *)

(** The state of the hook that [confirmPendingExercise] reads and sets. *)
Record PlanBuilder : Type := mkPlanBuilder {
  builder_selectedExercises : list PlanExercise;
  pendingExercise : option ExerciseCatalogItem;
  setCountInput : string;
  isModalVisible : bool
}.

Module planBuilder.
Local Open Scope Z_scope.

(** [prev.findIndex((item) => item.id === exercise.id)], [None] for -1. *)
Fixpoint findIndex (id : string) (items : list PlanExercise) : option nat :=
  match items with
  | [] => None
  | item :: rest =>
      if String.eqb (plan_exercise_id item) id then Some O
      else S <$> findIndex id rest
  end.

(** The updater handed to [setSelectedExercises]. *)
Definition upsertExercise (exercise : ExerciseCatalogItem) (setsNumber : Z)
    (prev : list PlanExercise) : list PlanExercise :=
  match findIndex (exercise_id exercise) prev with
  | Some existingIndex =>
      match prev !! existingIndex with
      | Some existing =>
          <[existingIndex := mkPlanExercise (plan_exercise_id existing)
                               (plan_exercise_name existing) setsNumber]> prev
      | None => prev
      end
  | None => prev ++ [mkPlanExercise (exercise_id exercise) (exercise_name exercise) setsNumber]
  end.

Definition closeModal (b : PlanBuilder) : PlanBuilder :=
  mkPlanBuilder (builder_selectedExercises b) None (setCountInput b) false.

(** [Number_of] is [Number(setCountInput)] where that is finite ([None] for
    NaN and the infinities); [selectionAsync] is how the awaited haptic call
    settles. *)
Definition confirmPendingExercise (Number_of : string -> option Z)
    (selectionAsync : Completion unit) (b : PlanBuilder)
  : PlanBuilder * Completion AddExerciseResult :=
  match pendingExercise b with
  | None => (b, Normal add_invalid)
  | Some exercise =>
      match Number_of (setCountInput b) with
      | None => (b, Normal add_invalid)
      | Some setsNumber =>
          if setsNumber <? 1 then (b, Normal add_invalid)
          else
            let updated :=
              mkPlanBuilder (upsertExercise exercise setsNumber (builder_selectedExercises b))
                (pendingExercise b) (setCountInput b) (isModalVisible b) in
            match selectionAsync with
            | Normal _ => (closeModal updated, Normal add_success)
            | Throw e => (updated, Throw e)
            end
      end
  end.

Definition DEFAULT_SET_COUNT : Z := 3.

(** The [useMemo] behind [filteredExercises]; [exercises] is the imported
    catalogue. *)
Definition filteredExercises (exercises : list ExerciseCatalogItem) (searchTerm : string)
  : list ExerciseCatalogItem :=
  let term := toLowerCase (trim searchTerm) in
  if String.eqb term "" then exercises
  else
    List.filter
      (fun exercise =>
         includes (toLowerCase (exercise_name exercise)) term
         || includes (toLowerCase (muscleGroup exercise)) term)
      exercises.

(** [String(n)] of a whole number is its decimal text. *)
Definition startExerciseSelection (exercise : ExerciseCatalogItem) (b : PlanBuilder)
  : PlanBuilder :=
  let existing :=
    List.find (fun item => String.eqb (plan_exercise_id item) (exercise_id exercise))
              (builder_selectedExercises b) in
  mkPlanBuilder (builder_selectedExercises b) (Some exercise)
    (match existing with
     | Some item => pretty (plan_exercise_sets item)
     | None => pretty DEFAULT_SET_COUNT
     end)
    true.

End planBuilder.

(** ** constants/schedule.ts *)

Module schedule.

(** [c] gives [Date.now()] and [Math.random().toString(36).slice(2, 8)]. *)
Definition createScheduleId (c : Collaborators) : string :=
  "schedule-" ++ pretty (Date_now c) ++ "-" ++ random_suffix c.

End schedule.

(** ** A reference JSON codec

    A small printer and parser for the compact JSON text of [json] values
    (no white space; strings escape only the quote and the backslash).  It
    instantiates [JSONGlobal] and [DateGlobal] in the examples. *)

Module ReferenceJSON.

Definition quote : ascii := ascii_of_nat 34.
Definition backslash : ascii := "\"%char.

Fixpoint escape (s : string) : string :=
  match s with
  | EmptyString => EmptyString
  | String c rest =>
      if Ascii.eqb c quote || Ascii.eqb c backslash
      then String backslash (String c (escape rest))
      else String c (escape rest)
  end.

Definition quoted (s : string) : string :=
  String quote (escape s ++ String quote EmptyString)%string.

Fixpoint join (sep : string) (parts : list string) : string :=
  match parts with
  | [] => EmptyString
  | [x] => x
  | x :: rest => (x ++ sep ++ join sep rest)%string
  end.

Fixpoint stringify (v : json) : string :=
  match v with
  | JNull => "null"
  | JBool true => "true"
  | JBool false => "false"
  | JNum n => pretty n
  | JStr s => quoted s
  | JArr items => ("[" ++ join "," (map stringify items) ++ "]")%string
  | JObj fields =>
      ("{" ++ join ","
                (map (fun kv => (quoted (fst kv) ++ ":" ++ stringify (snd kv))%string) fields)
           ++ "}")%string
  end.

Fixpoint skip (n : nat) (s : string) : string :=
  match n, s with
  | S n', String _ rest => skip n' rest
  | _, _ => s
  end.

(** The rest of a string literal, after its opening quote. *)
Fixpoint read_string (s : string) : option (string * string) :=
  match s with
  | EmptyString => None
  | String c rest =>
      if Ascii.eqb c quote then Some (EmptyString, rest)
      else if Ascii.eqb c backslash then
        match rest with
        | String e rest' =>
            if Ascii.eqb e quote || Ascii.eqb e backslash
            then match read_string rest' with
                 | Some (text, after) => Some (String e text, after)
                 | None => None
                 end
            else None
        | EmptyString => None
        end
      else match read_string rest with
           | Some (text, after) => Some (String c text, after)
           | None => None
           end
  end.

Definition digit_value (c : ascii) : option Z :=
  let n := nat_of_ascii c in
  if ((48 <=? n) && (n <=? 57))%nat then Some (Z.of_nat (n - 48)) else None.

Fixpoint read_digits (acc : Z) (seen : bool) (s : string) : option (Z * string) :=
  match s with
  | EmptyString => if seen then Some (acc, s) else None
  | String c rest =>
      match digit_value c with
      | Some d => read_digits (acc * 10 + d)%Z true rest
      | None => if seen then Some (acc, s) else None
      end
  end.

Fixpoint read_value (fuel : nat) (s : string) : option (json * string) :=
  match fuel with
  | O => None
  | S fuel' =>
      if String.prefix "null" s then Some (JNull, skip 4 s)
      else if String.prefix "true" s then Some (JBool true, skip 4 s)
      else if String.prefix "false" s then Some (JBool false, skip 5 s)
      else
        match s with
        | EmptyString => None
        | String c rest =>
            if Ascii.eqb c quote then
              match read_string rest with
              | Some (text, after) => Some (JStr text, after)
              | None => None
              end
            else if Ascii.eqb c "["%char then
              if String.prefix "]" rest then Some (JArr [], skip 1 rest)
              else match read_elements fuel' rest with
                   | Some (items, after) => Some (JArr items, after)
                   | None => None
                   end
            else if Ascii.eqb c "{"%char then
              if String.prefix "}" rest then Some (JObj [], skip 1 rest)
              else match read_members fuel' rest with
                   | Some (fields, after) => Some (JObj fields, after)
                   | None => None
                   end
            else if Ascii.eqb c "-"%char then
              match read_digits 0 false rest with
              | Some (n, after) => Some (JNum (- n), after)
              | None => None
              end
            else
              match read_digits 0 false s with
              | Some (n, after) => Some (JNum n, after)
              | None => None
              end
        end
  end
with read_elements (fuel : nat) (s : string) : option (list json * string) :=
  match fuel with
  | O => None
  | S fuel' =>
      match read_value fuel' s with
      | Some (v, String c after) =>
          if Ascii.eqb c ","%char then
            match read_elements fuel' after with
            | Some (items, after') => Some (v :: items, after')
            | None => None
            end
          else if Ascii.eqb c "]"%char then Some ([v], after)
          else None
      | _ => None
      end
  end
with read_members (fuel : nat) (s : string) : option (list (string * json) * string) :=
  match fuel with
  | O => None
  | S fuel' =>
      match s with
      | String q rest =>
          if Ascii.eqb q quote then
            match read_string rest with
            | Some (key, String colon after) =>
                if Ascii.eqb colon ":"%char then
                  match read_value fuel' after with
                  | Some (v, String c after') =>
                      if Ascii.eqb c ","%char then
                        match read_members fuel' after' with
                        | Some (fields, after'') => Some ((key, v) :: fields, after'')
                        | None => None
                        end
                      else if Ascii.eqb c "}"%char then Some ([(key, v)], after')
                      else None
                  | _ => None
                  end
                else None
            | _ => None
            end
          else None
      | EmptyString => None
      end
  end.

Definition parse (text : string) : option json :=
  match read_value (2 * String.length text + 2) text with
  | Some (v, EmptyString) => Some v
  | _ => None
  end.

#[export] Instance reference_JSON : JSONGlobal := {|
  JSON_stringify := stringify;
  JSON_parse := parse
|}.

(** A host on UTC whose [Date] accepts time values only. *)
#[export] Instance reference_Date : DateGlobal := {|
  Date_of v :=
    match v with
    | JNum t =>
        if planSave.is_time_value t
        then Some (mkDateTime (t / 86400000) (t mod 86400000))
        else None
    | _ => None
    end
|}.

End ReferenceJSON.

(** * Vocabulary of the statements *)

(** ** Devices and outcomes *)

Definition written (key value : string) (d : Device) : Device :=
  mkDevice (<[key := value]> (slots d)) (read_fault d) (write_fault d).

(** Storage can be used and does not reject reads. *)
Definition readable (s : App) (d : Device) : bool :=
  canUseAsyncStorage (host s) && negb (read_fault d).

(** The storage write behind a save is rejected. *)
Definition persistence_fails (s : App) (d : Device) : Prop :=
  canUseAsyncStorage (host s) = true /\ write_fault d = true.

(** The in-memory state a store mutation leaves when the write behind it
    was rejected: the adapter's lines and the store's own line are on the
    console, nothing else has moved. *)
Definition after_failed_write (what : string) (adapter_lines : list (Level * string))
    (s : App) : App :=
  emit LError what
    (mkApp (host s) (adapter_lines ++ console s) (schedules s) (workouts s) (isSaving s)).

Definition schedule_write_lines : list (Level * string) :=
  [ (LError, "[scheduleStorage] Failed to persist schedules snapshot");
    (LLog, "SAVING SCHEDULE TO ASYNCSTORAGE:") ].

Definition workout_write_lines : list (Level * string) :=
  [ (LError, "[workoutSessionStorage] Failed to persist workouts snapshot") ].

(** A mutation completed normally, left the device as it was, logged [line]
    last and holds the given collections. *)
Definition logged_and_kept (outcome : App * Device * Completion unit) (d : Device)
    (line : string) (kept_schedules : list Schedule) (kept_workouts : list Workout) : Prop :=
  outcome.2 = Normal tt
  /\ outcome.1.2 = d
  /\ schedules outcome.1.1 = kept_schedules
  /\ workouts outcome.1.1 = kept_workouts
  /\ head (console outcome.1.1) = Some (LError, line).

Section DecodedSlots.
Context `{JSONGlobal}.

(** What the three [parse...] functions make of a slot's content. *)
Definition decoded (value : option string) : list json :=
  match value with
  | None => []
  | Some text =>
      if String.eqb text "" then []
      else match JSON_parse text with
           | Some (JArr parsed) => List.filter has_id parsed
           | _ => []
           end
  end.

(** What a load returns: the decoded slot where storage can be read, nothing
    otherwise.  Loading never throws and leaves slots and stores alone. *)
Definition loads (task : Task App (list json)) (key : string) : Prop :=
  forall s d,
  exists s',
    run (task s) d
    = (s', d, Normal (if readable s d then decoded (slots d !! key) else []))
    /\ schedules s' = schedules s /\ workouts s' = workouts s /\ host s' = host s.

End DecodedSlots.

(** ** Hydration as the specification reads it *)

Definition array_or_empty (v : option json) : list json :=
  match v with
  | Some (JArr items) => items
  | _ => []
  end.

(** Every entry of a [sets] array becomes a record with defaulted fields,
    whatever it was. *)
Definition claimed_set (set : json) : json :=
  JObj [ ("reps", number_or (JNum 0) (opt_member set "reps"));
         ("weight", number_or (JNum 0) (opt_member set "weight"));
         ("completed", JBool (truthy (opt_member set "completed"))) ].

Definition claimed_exercise (exercise : json) : json :=
  JObj (with_property "sets"
          (JArr (map claimed_set (array_or_empty (opt_member exercise "sets"))))
          (spread exercise)).

Definition claimed_workout (workout : json) : Workout :=
  with_property "exercises"
    (JArr (map claimed_exercise (array_or_empty (opt_member workout "exercises"))))
    (spread workout).

Definition not_null (v : json) : bool :=
  match v with
  | JNull => false
  | _ => true
  end.

(** No entry of [exercises], and no entry of any [sets], is [null]. *)
Definition no_null_entry (workout : json) : bool :=
  forallb (fun exercise =>
             not_null exercise
             && forallb not_null (array_or_empty (opt_member exercise "sets")))
          (array_or_empty (opt_member workout "exercises")).

(** ** Schedules after a plan is gone *)

(** A slot after the plan [planId] is gone. *)
Definition cleared_slot (planId : string) (slot : option string) : option string :=
  if plans.refers_to planId slot then None else slot.

(** A schedule with every reference to [planId] cleared. *)
Definition without_plan (planId : string) (schedule : Schedule) : Schedule :=
  mkSchedule (schedule_id schedule) (schedule_name schedule)
             (fst (plans.clear_references planId schedule)).

Definition references (planId : string) (schedule : Schedule) : bool :=
  existsb (fun day => plans.refers_to planId (plans.get_day day (weekdays schedule)))
          plans.Object_keys.

(** ** Scoring rules *)

(** The fields a token can match, as the scoring rule of the specification
    names them. *)
Definition Matcher : Type := ExerciseCatalogItem -> string -> bool.

Definition exact_name : Matcher :=
  fun exercise token => String.eqb (normalizeSearchText (exercise_name exercise)) token.

Definition name_prefix : Matcher :=
  fun exercise token => startsWith (normalizeSearchText (exercise_name exercise)) token.

Definition name_substring : Matcher :=
  fun exercise token => includes (normalizeSearchText (exercise_name exercise)) token.

Definition muscle_group : Matcher :=
  fun exercise token =>
    includes (normalizeSearchText (muscleGroup exercise)) token
    || includes (normalizeSearchText (filterMuscleGroup exercise)) token.

Definition flag_keyword : Matcher :=
  fun exercise token =>
    (String.eqb token "compound" && isCompound exercise)
    || (String.eqb token "bodyweight" && isBodyweight exercise).

Definition secondary_muscle : Matcher :=
  fun exercise token =>
    existsb (fun target => includes target token)
            (map normalizeSearchText (secondaryMuscleGroups exercise)).

Definition equipment_item : Matcher :=
  fun exercise token =>
    existsb (fun item => includes item token) (map normalizeSearchText (equipment exercise)).

Definition movement_pattern : Matcher :=
  fun exercise token => includes (normalizeSearchText (movementPattern exercise)) token.

Definition search_index : Matcher :=
  fun exercise token => includes (searchIndex exercise) token.

(** The weight of the first rule of [table] the token matches, 0 if none. *)
Definition first_match (table : list (Matcher * nat)) (exercise : ExerciseCatalogItem)
    (token : string) : nat :=
  match find (fun rule => fst rule exercise token) table with
  | Some rule => snd rule
  | None => 0
  end.

(** The precedence the specification states. *)
Definition stated_precedence : list (Matcher * nat) :=
  [ (exact_name, 10); (name_prefix, 7); (name_substring, 6); (muscle_group, 5);
    (flag_keyword, 5); (secondary_muscle, 4); (equipment_item, 4);
    (movement_pattern, 3); (search_index, 2) ].

(** The precedence of the chain of tests in [scoreExercise]: the keyword
    flags are tried after the movement pattern. *)
Definition tested_precedence : list (Matcher * nat) :=
  [ (exact_name, 10); (name_prefix, 7); (name_substring, 6); (muscle_group, 5);
    (secondary_muscle, 4); (equipment_item, 4); (movement_pattern, 3);
    (flag_keyword, 5); (search_index, 2) ].

Definition total_weight (table : list (Matcher * nat)) (exercise : ExerciseCatalogItem)
    (tokens : list string) : nat :=
  list_sum (map (first_match table exercise) tokens).

(** ** Ranking *)

(** The scored entries that survive both filters, in catalogue order. *)
Definition candidates (tokens excludeIds : list string) (exercises : list ExerciseCatalogItem)
  : list search.Entry :=
  List.filter (fun entry => (0 <? snd entry)%nat)
    (map (fun exercise => (exercise, search.scoreExercise exercise tokens))
       (List.filter (fun exercise => negb (set_has (exercise_id exercise) (new_Set excludeIds)))
          exercises)).

(** [a] may stand before [b]: its score is not lower. *)
Definition not_below (a b : search.Entry) : Prop := snd b <= snd a.

Definition with_score (n : nat) (entry : search.Entry) : bool := (snd entry =? n)%nat.

(** ** The renders of the search hook *)

(** A render of the hook: the arguments it is called with. *)
Record Render : Type := mkRender {
  render_query : string;
  render_exercises : JSArray ExerciseCatalogItem;
  render_options : option UseSemanticExerciseSearchOptions
}.

(** The cells of the hook after the renders of [history], from the mount. *)
Definition rendered (history : list Render) : search.SearchHooks :=
  fold_left
    (fun hooks render =>
       (search.useSemanticExerciseSearch hooks (render_query render)
          (render_exercises render) (render_options render)).1)
    history search.mount.

Definition limit_of (options : option UseSemanticExerciseSearchOptions) : Z :=
  default 6%Z (o ← options; opt_limit o).

Definition excludeIds_of (options : option UseSemanticExerciseSearchOptions) : list string :=
  default [] (contents <$> (o ← options; opt_excludeIds o)).

(** The exclusion key a render works with: the key remembered, when the
    exclusion array given is the array of the last render, and the key of
    what the array holds otherwise. *)
Definition excludeKey_at (hooks : search.SearchHooks)
    (options : option UseSemanticExerciseSearchOptions) : string :=
  match search.excludeKey_cell hooks, (o ← options; opt_excludeIds o) with
  | Some (Some last, key), Some given =>
      if Nat.eqb (reference given) last then key
      else search.excludeKey_of (contents given)
  | _, _ => search.excludeKey_of (excludeIds_of options)
  end.

(** The dependencies of a render. *)
Definition inputs_at (hooks : search.SearchHooks) (query : string)
    (exercises : JSArray ExerciseCatalogItem)
    (options : option UseSemanticExerciseSearchOptions) : search.SearchInputs :=
  (reference exercises, query, limit_of options, excludeKey_at hooks options).

(** The list the hook remembers for a render: the list it last computed,
    when the catalogue array, the query, the limit and the exclusion key
    are those it was computed for. *)
Definition remembered (hooks : search.SearchHooks) (query : string)
    (exercises : JSArray ExerciseCatalogItem)
    (options : option UseSemanticExerciseSearchOptions)
  : option (list ExerciseCatalogItem) :=
  match search.results_cell hooks with
  | Some (deps, found) =>
      if search.same_inputs (inputs_at hooks query exercises options) deps
      then Some found else None
  | None => None
  end.

Definition query_of (deps : search.SearchInputs) : string := snd (fst (fst deps)).

(** The remembered list, if any, was computed for a query whose words
    expand without an exception. *)
Definition computed_without_exception (hooks : search.SearchHooks) : Prop :=
  forall deps found,
    search.results_cell hooks = Some (deps, found) ->
    exists computed, search.compute_results (query_of deps) [] 6 [] = Normal computed.

(** ** Calendar arithmetic within one era *)

(** [civil_from_days] and [days_from_civil] within one 400-year era:
    [doe] is the day of the era, [yoe] the year of the era. *)
Definition era_fields (doe : Z) : Z * Z * Z :=
  (let yoe := (doe - doe / 1460 + doe / 36524 - doe / 146096) / 365 in
   let doy := doe - (365 * yoe + yoe / 4 - yoe / 100) in
   let mp := (5 * doy + 2) / 153 in
   (yoe, if mp <? 10 then mp + 3 else mp - 9, doy - (153 * mp + 2) / 5 + 1))%Z.

Definition era_day (yoe m d : Z) : Z :=
  (yoe * 365 + yoe / 4 - yoe / 100
   + ((153 * (if 2 <? m then m - 3 else m + 9) + 2) / 5 + d - 1))%Z.

Definition era_day_ok (doe : Z) : bool :=
  (146097 <=? doe)%Z
  || let '(yoe, m, d) := era_fields doe in
     ((0 <=? yoe) && (yoe <? 400) && (1 <=? m) && (m <=? 12) && (1 <=? d) && (d <=? 31)
      && (era_day yoe m d =? doe))%Z.

(** Every number of the block [base, base + 2^k) passes [ok]. *)
Fixpoint all_in_block (ok : Z -> bool) (k : nat) (base : Z) : bool :=
  match k with
  | O => ok base
  | S k' => all_in_block ok k' base && all_in_block ok k' (base + 2 ^ Z.of_nat k')%Z
  end.

(** The number a string of decimal digits writes. *)
Definition decimal_value (s : string) : Z :=
  fold_left (fun acc c => (acc * 10 + (Z.of_nat (nat_of_ascii c) - 48))%Z)
            (list_ascii_of_string s) 0%Z.

Definition two_digits (n : Z) : string := padStart 2 "0" (pretty n).

Definition two_digits_ok (n : Z) : bool :=
  (100 <=? n)%Z
  || ((String.length (two_digits n) =? 2)%nat && (decimal_value (two_digits n) =? n)%Z).

(** The text after the year: a dash, two digits, a dash, two digits. *)
Definition month_day (m d : Z) : string :=
  ("-" ++ two_digits m ++ "-" ++ two_digits d)%string.

(** ** Workouts and calendar dates *)

Section WorkoutDates.
Context `{DateGlobal}.

(** The [Date] the tracker builds for a workout, if it builds one. *)
Definition workout_date (workout : Workout) : option Date :=
  if truthy (own "startTime" workout)
  then Some (Date_of (default JNull (own "startTime" workout)))
  else if truthy (own "date" workout)
  then Some (Date_of (default JNull (own "date" workout)))
  else None.

(** Two valid dates fall on the same local calendar date. *)
Definition same_calendar_date (a b : DateTime) : Prop :=
  getFullYear a = getFullYear b /\ getMonth a = getMonth b /\ getDate a = getDate b.

(** The workout's date is valid and falls on the calendar date of [day]. *)
Definition logged_on (workout : Workout) (day : DateTime) : Prop :=
  exists t, workout_date workout = Some (Some t) /\ same_calendar_date t day.

End WorkoutDates.

(** ** Saving plans *)

(** The stored plans [savePlan] keeps: those whose id is not the plan's. *)
Definition other_plans (plan : JSObject) (stored : list json) : list json :=
  List.filter (fun existing => negb (strict_eq (opt_member existing "id") (own "id" plan)))
              stored.

(** The call into the plans store that follows a completed [savePlan] in
    [handleSavePlan]. *)
Definition plans_store_call (c : Collaborators)
    (p : usePlanSaveHandler.UsePlanSaveHandlerParams) : Task App unit :=
  let plan :=
    mkPlan (default (usePlanSaveHandler.createPlanIdentifier c)
              (usePlanSaveHandler.editingPlanId p))
      (trim (usePlanSaveHandler.planName p))
      (usePlanSaveHandler.selectedExercises p)
      (default (Date_now c) (usePlanSaveHandler.editingPlanCreatedAt p)) in
  if match usePlanSaveHandler.editingPlanId p with
     | Some id => nonempty id
     | None => false
     end
  then usePlanSaveHandler.updatePlan p plan
  else usePlanSaveHandler.persistPlan p plan.

(** The calls that follow the plans store's in [handleSavePlan]. *)
Definition after_save (c : Collaborators)
    (p : usePlanSaveHandler.UsePlanSaveHandlerParams) : Completion unit :=
  (let? _ := Haptics_notificationAsync c in
   let? _ := (if match usePlanSaveHandler.editingPlanId p with
                 | Some id => nonempty id
                 | None => false
                 end
              then Normal tt else usePlanSaveHandler.resetBuilder p) in
   match usePlanSaveHandler.onSuccess p with
   | Some callback => callback
   | None => Normal tt
   end)%completion.

(** What [handleSavePlan] leaves once [savePlan] has completed with the
    state [saved] and the device [device]: the plans store is called there,
    and the result is 'success' when that call and the calls after it
    complete. *)
Definition after_savePlan (c : Collaborators)
    (p : usePlanSaveHandler.UsePlanSaveHandlerParams) (saved : App) (device : Device)
  : App * Device * Completion SubmitPlanResult :=
  match run (plans_store_call c p saved) device with
  | (s, d, called) =>
      match called, after_save c p with
      | Normal _, Normal _ => (set_isSaving false s, d, Normal success)
      | _, _ =>
          (set_isSaving false (emit LError "[usePlanSaveHandler] Failed to save plan" s),
           d, Normal error)
      end
  end.


(** The inputs pass the two validations and no save is under way. *)
Definition accepted (p : usePlanSaveHandler.UsePlanSaveHandlerParams) : Prop :=
  trim (usePlanSaveHandler.planName p) <> ""
  /\ usePlanSaveHandler.selectedExercises p <> []
  /\ usePlanSaveHandler.closed_isSaving p = false.

(** ** Plans and drafts in storage *)

(** The stored plans [deletePlan] keeps: those whose id is not [id]. *)
Definition plans_without (id : string) (stored : list json) : list json :=
  List.filter (fun plan => negb (strict_eq (opt_member plan "id") (Some (JStr id)))) stored.

(** The device with the slot [key] removed. *)
Definition removed (key : string) (d : Device) : Device :=
  mkDevice (delete key (slots d)) (read_fault d) (write_fault d).

(** The three fields of a draft are all there and not empty. *)
Definition complete_draft (v : json) : bool :=
  truthy (opt_member v "firstName") && truthy (opt_member v "lastName")
  && truthy (opt_member v "email").

(** ** Stores and their slots *)

Section SlotsInStep.
Context `{JSONGlobal}.

(** The schedules slot holds the text of the schedules the store holds. *)
Definition schedules_in_step (s : App) (d : Device) : Prop :=
  slots d !! scheduleStorage.SCHEDULES_STORAGE_KEY
  = Some (scheduleStorage.serializeSchedules (map Schedule_toJSON (schedules s))).

Definition workouts_in_step (s : App) (d : Device) : Prop :=
  slots d !! workoutSessionStorage.WORKOUTS_STORAGE_KEY
  = Some (workoutSessionStorage.serializeWorkouts (map JObj (workouts s))).

(** What a mutation of the schedules store leaves when run to its end, by
    the state of storage: [next] is the collection it set and [line] what it
    logs when the write is rejected. *)
Definition schedules_outcome (next : list Schedule) (line : string) (s : App) (d : Device)
  : App * Device * Completion unit :=
  if canUseAsyncStorage (host s) then
    if write_fault d
    then (after_failed_write line schedule_write_lines (set_schedules next s), d, Normal tt)
    else (emit LLog "SAVING SCHEDULE TO ASYNCSTORAGE:" (set_schedules next s),
          written scheduleStorage.SCHEDULES_STORAGE_KEY
            (scheduleStorage.serializeSchedules (map Schedule_toJSON next)) d,
          Normal tt)
  else
    (emit LWarn "[scheduleStorage] persistStoredSchedules skipped because AsyncStorage is unavailable in this environment." (set_schedules next s),
     d, Normal tt).

Definition workouts_outcome (next : list Workout) (line : string) (s : App) (d : Device)
  : App * Device * Completion unit :=
  if canUseAsyncStorage (host s) then
    if write_fault d
    then (after_failed_write line workout_write_lines (set_workouts next s), d, Normal tt)
    else (set_workouts next s,
          written workoutSessionStorage.WORKOUTS_STORAGE_KEY
            (workoutSessionStorage.serializeWorkouts (map JObj next)) d,
          Normal tt)
  else
    (emit LWarn "[workoutSessionStorage] persistStoredWorkoutSessions skipped because AsyncStorage is unavailable in this environment." (set_workouts next s),
     d, Normal tt).

End SlotsInStep.

(** The workout's id is the string [id]. *)
Definition workout_has_id (id : string) (workout : Workout) : bool :=
  strict_eq (own "id" workout) (Some (JStr id)).

(** ** Normal forms of text *)

(** Words of lower-case letters and digits, joined by single separators:
    [separated sep prev s] reads [s] after a character that was ([prev]) or
    was not a separator, and [s] does not end on a separator. *)
Fixpoint separated (sep : ascii) (prev : bool) (s : string) : bool :=
  match s with
  | EmptyString => negb prev
  | String c rest =>
      if Ascii.eqb c sep then negb prev && separated sep true rest
      else is_lower_alnum c && separated sep false rest
  end.

(** The empty text, or words joined by single separators. *)
Definition words_joined_by (sep : ascii) (s : string) : bool :=
  match s with
  | EmptyString => true
  | _ => separated sep true s
  end.

(** The same without the conditions on the two ends. *)
Fixpoint loosely_separated (sep : ascii) (prev : bool) (s : string) : bool :=
  match s with
  | EmptyString => true
  | String c rest =>
      if Ascii.eqb c sep then negb prev && loosely_separated sep true rest
      else is_lower_alnum c && loosely_separated sep false rest
  end.

(** A word: one or more lower-case letters and digits. *)
Definition word (s : string) : bool :=
  nonempty s && forallb is_lower_alnum (list_ascii_of_string s).

Definition no_dash (s : string) : bool :=
  forallb (fun c => negb (Ascii.eqb c "-")) (list_ascii_of_string s).

(** ** Tokens and the catalogue *)

(** The synonyms the table lists under [token]; none when it has no entry. *)
Definition synonyms_of (token : string) : list string :=
  default [] (search.assoc_string token search.TOKEN_SYNONYMS).

(** The token names a property every object inherits. *)
Definition inherited_name (token : string) : bool :=
  existsb (String.eqb token) search.Object_prototype_names.

(** The words of a query, as the search splits them. *)
Definition query_tokens (query : string) : list string :=
  List.filter nonempty (split_space (normalizeSearchText query)).

Definition with_isBodyweight (flag : bool) (exercise : ExerciseCatalogItem)
  : ExerciseCatalogItem :=
  mkExercise (exercise_id exercise) (exercise_name exercise) (muscleGroup exercise)
    (filterMuscleGroup exercise) (secondaryMuscleGroups exercise) (equipment exercise)
    (movementPattern exercise) (difficulty exercise) (isCompound exercise)
    flag (searchIndex exercise).

Definition has_exercise_id (id : string) (exercise : ExerciseCatalogItem) : bool :=
  String.eqb (exercise_id exercise) id.

(** The storage was built from the empty object by [setItem] and
    [removeItem] alone. *)
Inductive reachable_storage : gmap string string -> Prop :=
| reachable_empty : reachable_storage ∅
| reachable_set m key value :
    reachable_storage m -> reachable_storage (supabaseClient.setItem m key value)
| reachable_remove m key :
    reachable_storage m -> reachable_storage (supabaseClient.removeItem m key).

(** ** Sets of a workout *)

(** The sets a stored exercise lists, and those of them marked completed. *)
Definition sets_of (exercise : json) : list json :=
  array_or_empty (opt_member exercise "sets").

Definition marked_completed (set : json) : bool := truthy (opt_member set "completed").

Definition exercises_of (workout : json) : list json :=
  array_or_empty (opt_member workout "exercises").

(** ** The plan builder and the save handler *)

Definition selected_ids (selected : list PlanExercise) : list string :=
  map plan_exercise_id selected.

(** The plan [handleSavePlan] hands to [savePlan]. *)
Definition saved_plan (iso : Z -> string) (c : Collaborators)
    (p : usePlanSaveHandler.UsePlanSaveHandlerParams) : JSObject :=
  planSave.WorkoutPlan_object
    (default (usePlanSaveHandler.createPlanIdentifier c) (usePlanSaveHandler.editingPlanId p))
    (trim (usePlanSaveHandler.planName p))
    (map (fun exercise =>
            mkPlanExercise (exercise_id exercise) (exercise_name exercise)
              usePlanSaveHandler.DEFAULT_PLAN_SET_COUNT)
         (usePlanSaveHandler.selectedExercises p))
    (iso (default (Date_now c) (usePlanSaveHandler.editingPlanCreatedAt p))).

(** ** Searching the catalogue, and platforms without storage *)

(** The exercise mentions [term] in its name or its muscle group, whatever
    the case of the letters there. *)
Definition mentions (term : string) (exercise : ExerciseCatalogItem) : bool :=
  includes (toLowerCase (exercise_name exercise)) term
  || includes (toLowerCase (muscleGroup exercise)) term.

(** A task that finished without a storage call, having printed [warning]
    if one is given. *)
Definition finishes_at_once {A} (task : Task App A) (s : App) (warning : option string)
    (value : A) : Prop :=
  task s = Done (match warning with
                 | Some line => emit LWarn line s
                 | None => s
                 end) (Normal value).

(** The line [warnAsyncStorageUnavailable] prints in the adapter named. *)
Definition unavailable_warning (adapter operation : string) : string :=
  "[" ++ adapter ++ "] " ++ operation
  ++ " skipped because AsyncStorage is unavailable in this environment.".

(** ** Sample inputs *)

Module samples.
Import ReferenceJSON.

(** A client where AsyncStorage is available, with empty stores. *)
Definition client : App := mkApp (mkHost true true None) [] [] [] false.

Definition empty_device : Device := mkDevice ∅ false false.

(** A device that rejects every write. *)
Definition full_device : Device := mkDevice ∅ false true.

Definition sample_items : list json :=
  [ JObj [("id", JStr "s1"); ("name", JStr "Push day")];
    JObj [("id", JStr ""); ("name", JStr "no id")];
    JObj [("name", JStr "missing id")] ].

Definition damaged_payload : list json :=
  [ JObj [ ("id", JStr "w1");
           ("exercises",
            JArr [ JObj [ ("name", JStr "Squat");
                          ("sets", JArr [ JObj [("weight", JNum 60)] ]) ] ]) ];
    JObj [ ("id", JStr "w2");
           ("exercises",
            JArr [ JObj [ ("name", JStr "Row"); ("sets", JArr [ JNull ]) ] ]) ] ].

Definition damaged_device : Device :=
  mkDevice {[ workoutSessionStorage.WORKOUTS_STORAGE_KEY := stringify (JArr damaged_payload) ]}
           false false.

Definition push_pull : Schedule :=
  mkSchedule "s1" "Push pull"
    (mkWeekdays (Some "p1") None (Some "p2") None (Some "p1") None None).

Definition legs_only : Schedule :=
  mkSchedule "s2" "Legs" (mkWeekdays None (Some "p2") None None None None None).

Definition two_schedules : App :=
  mkApp (mkHost true true None) [] [push_pull; legs_only] [] false.

Definition push_up : ExerciseCatalogItem :=
  mkExercise "push-up" "Push-Up" "Chest" "Chest" ["Triceps"; "Shoulders"] ["Bodyweight"]
    "Horizontal Push" "Beginner" true true
    "push up chest triceps shoulders bodyweight horizontal push beginner chest compound bodyweight".

Definition bench_press : ExerciseCatalogItem :=
  mkExercise "bench-press" "Bench Press" "Chest" "Chest" ["Triceps"] ["Barbell"; "Bench"]
    "Horizontal Push" "Intermediate" true false
    "bench press chest triceps barbell bench horizontal push intermediate chest compound".

Definition leg_curl : ExerciseCatalogItem :=
  mkExercise "leg-curl" "Leg Curl" "Hamstrings" "Legs" [] ["Machine"]
    "Knee Flexion" "Beginner" false false
    "leg curl hamstrings machine knee flexion beginner legs".

Definition catalogue : list ExerciseCatalogItem := [leg_curl; push_up; bench_press].

(** The catalogue as the array handed to the search at every render, and
    two exclusion arrays with the same key: one holding the single text
    "bench-press|push-up", the other the two ids. *)
Definition catalogue_array : JSArray ExerciseCatalogItem := mkJSArray 1 catalogue.

Definition joined_exclusion : option UseSemanticExerciseSearchOptions :=
  Some (mkOptions None (Some (mkJSArray 2 ["bench-press|push-up"]))).

Definition both_excluded : option UseSemanticExerciseSearchOptions :=
  Some (mkOptions None (Some (mkJSArray 3 ["push-up"; "bench-press"]))).

Definition plan_a : JSObject := [("id", JStr "a"); ("name", JStr "Upper")].
Definition plan_b : JSObject := [("id", JStr "b"); ("name", JStr "Lower")].
Definition plan_a_renamed : JSObject := [("id", JStr "a"); ("name", JStr "Upper body")].

Definition device_with_plans : Device :=
  mkDevice {[ storage.PLANS_STORAGE_KEY := stringify (JArr [JObj plan_a; JObj plan_b]) ]}
           false false.

Definition quiet : Collaborators := mkCollaborators 1762128000000 "k3x9qa" (Normal tt).

Definition new_plan : usePlanSaveHandler.UsePlanSaveHandlerParams :=
  usePlanSaveHandler.mkParams None "  Upper body " [bench_press; push_up] None
    (Normal tt) None false (fun _ => ret tt) (fun _ => ret tt).

(** The same plan under edit, with a creation time beyond the range of
    [Date]. *)
Definition stale_plan : usePlanSaveHandler.UsePlanSaveHandlerParams :=
  usePlanSaveHandler.mkParams (Some "plan-1") "Upper body" [bench_press; push_up]
    (Some 8640000000000001%Z) (Normal tt) None false (fun _ => ret tt) (fun _ => ret tt).

(** A rendering of time values for the examples: the number itself. *)
Definition plain_iso (t : Z) : string := pretty t.

Definition sample_draft : PendingProfileDraft :=
  mkPendingProfileDraft "Ann" "Lee" "ann@example.com".

(** A stored workout with two sets, the second one completed. *)
Definition squat_workout : json :=
  JObj [ ("id", JStr "w1");
         ("exercises",
          JArr [ JObj [ ("name", JStr "Squat");
                        ("sets", JArr [ JObj [("weight", JNum 60)];
                                        JObj [ ("reps", JNum 5); ("weight", JNum 60);
                                               ("completed", JBool true) ] ]) ] ]) ].

(** The same collaborators one millisecond later. *)
Definition later : Collaborators := mkCollaborators 1762128000001 "k3x9qa" (Normal tt).

(** A server render: no window, no document, no navigator. *)
Definition server : App := mkApp (mkHost false false None) [] [] [] false.

End samples.
(** * Properties *)

(** ** Running tasks *)

Section RunLemmas.
Context {S : Type}.

Lemma run_bind_step {A B} (st : Step S A) (f : A -> Task S B) (d : Device) :
  run (bind_step st f) d =
  match run st d with
  | (s, d', Normal a) => run (f a s) d'
  | (s, d', Throw e) => (s, d', Throw e)
  end.
Proof.
  revert d. induction st as [s [a | e] | s op k IH]; intros d; simpl; try reflexivity.
  destruct (perform op d) as [reply d']. apply IH.
Qed.

Lemma run_catch_step {A} (st : Step S A) (h : JSError -> Task S A) (d : Device) :
  run (catch_step st h) d =
  match run st d with
  | (s, d', Normal a) => (s, d', Normal a)
  | (s, d', Throw e) => run (h e s) d'
  end.
Proof.
  revert d. induction st as [s [a | e] | s op k IH]; intros d; simpl; try reflexivity.
  destruct (perform op d) as [reply d']. apply IH.
Qed.

Lemma run_finally_step {A} (st : Step S A) (f : S -> S) (d : Device) :
  run (finally_step st f) d =
  match run st d with
  | (s, d', r) => (f s, d', r)
  end.
Proof.
  revert d. induction st as [s r | s op k IH]; intros d; simpl; try reflexivity.
  destruct (perform op d) as [reply d']. apply IH.
Qed.

Lemma run_bind {A B} (m : Task S A) (f : A -> Task S B) (s : S) (d : Device) :
  run (bind m f s) d =
  match run (m s) d with
  | (s', d', Normal a) => run (f a s') d'
  | (s', d', Throw e) => (s', d', Throw e)
  end.
Proof. apply run_bind_step. Qed.

Lemma run_try_catch {A} (m : Task S A) (h : JSError -> Task S A) (s : S) (d : Device) :
  run (try_catch m h s) d =
  match run (m s) d with
  | (s', d', Normal a) => (s', d', Normal a)
  | (s', d', Throw e) => run (h e s') d'
  end.
Proof. apply run_catch_step. Qed.

Lemma run_try_finally {A} (m : Task S A) (f : S -> S) (s : S) (d : Device) :
  run (try_finally m f s) d =
  match run (m s) d with
  | (s', d', r) => (f s', d', r)
  end.
Proof. apply run_finally_step. Qed.

End RunLemmas.

Lemma run_Done {A} (s : App) (r : Completion A) d : run (Done s r) d = (s, d, r).
Proof. reflexivity. Qed.

Lemma run_lift_bind {A B} (c : Completion A) (f : A -> Task App B) s d :
  run (bind (lift c) f s) d =
  match c with
  | Normal a => run (f a s) d
  | Throw e => (s, d, Throw e)
  end.
Proof. rewrite run_bind. unfold lift. simpl. now destruct c. Qed.

(** Unfolds the task combinators so that a task applied to a state computes. *)
Ltac task_unfold :=
  unfold bind, try_catch, try_finally, get, modify, ret, throw, lift, await,
    console_log, console_warn, console_error in *.

(** ** The persistence adapters, run against a device *)

Section Adapters.
Context `{JSONGlobal}.

Lemma run_persistStoredSchedules items s d :
  run (scheduleStorage.persistStoredSchedules items s) d =
  if canUseAsyncStorage (host s) then
    if write_fault d then
      (emit LError "[scheduleStorage] Failed to persist schedules snapshot"
         (emit LLog "SAVING SCHEDULE TO ASYNCSTORAGE:" s),
       d, Throw (Error "Unable to persist schedules"))
    else
      (emit LLog "SAVING SCHEDULE TO ASYNCSTORAGE:" s,
       written scheduleStorage.SCHEDULES_STORAGE_KEY (scheduleStorage.serializeSchedules items) d,
       Normal tt)
  else
    (emit LWarn "[scheduleStorage] persistStoredSchedules skipped because AsyncStorage is unavailable in this environment." s,
     d, Normal tt).
Proof.
  unfold scheduleStorage.persistStoredSchedules, scheduleStorage.logError,
    scheduleStorage.warnAsyncStorageUnavailable.
  task_unfold. destruct d as [tbl rf wf]. simpl.
  destruct (canUseAsyncStorage (host s)); simpl; [| reflexivity].
  destruct wf; reflexivity.
Qed.

Lemma run_persistStoredWorkoutSessions items s d :
  run (workoutSessionStorage.persistStoredWorkoutSessions items s) d =
  if canUseAsyncStorage (host s) then
    if write_fault d then
      (emit LError "[workoutSessionStorage] Failed to persist workouts snapshot" s,
       d, Throw (Error "Unable to persist workouts"))
    else
      (s,
       written workoutSessionStorage.WORKOUTS_STORAGE_KEY
         (workoutSessionStorage.serializeWorkouts items) d,
       Normal tt)
  else
    (emit LWarn "[workoutSessionStorage] persistStoredWorkoutSessions skipped because AsyncStorage is unavailable in this environment." s,
     d, Normal tt).
Proof.
  unfold workoutSessionStorage.persistStoredWorkoutSessions, workoutSessionStorage.logError,
    workoutSessionStorage.warnAsyncStorageUnavailable.
  task_unfold. destruct d as [tbl rf wf]. simpl.
  destruct (canUseAsyncStorage (host s)); simpl; [| reflexivity].
  destruct wf; reflexivity.
Qed.

End Adapters.


(** ** The entity stores *)

Section Stores.
Context `{JSONGlobal}.
Import schedulesStore workoutSessionsStore.

Lemma run_optimistic_update (f : App -> App) (persist : Task App unit) (line : string) s d :
  run (bind (modify f) (fun _ => try_catch persist (fun _ => console_error line)) s) d =
  match run (persist (f s)) d with
  | (s', d', Normal _) => (s', d', Normal tt)
  | (s', d', Throw _) => (emit LError line s', d', Normal tt)
  end.
Proof.
  rewrite run_bind. unfold modify at 1. simpl run at 1. cbv beta iota.
  rewrite run_try_catch.
  destruct (run _ d) as [[s' d'] [[] | e]]; reflexivity.
Qed.

Lemma run_schedules_update_failing (f : App -> App) (items : list json) (line : string) s d :
  canUseAsyncStorage (host (f s)) = true -> write_fault d = true ->
  run (bind (modify f)
         (fun _ => try_catch (scheduleStorage.persistStoredSchedules items)
                     (fun _ => console_error line)) s) d
  = (after_failed_write line schedule_write_lines (f s), d, Normal tt).
Proof.
  intros Hcan Hw. rewrite run_optimistic_update, run_persistStoredSchedules, Hcan, Hw.
  reflexivity.
Qed.

Lemma run_workouts_update_failing (f : App -> App) (items : list json) (line : string) s d :
  canUseAsyncStorage (host (f s)) = true -> write_fault d = true ->
  run (bind (modify f)
         (fun _ => try_catch (workoutSessionStorage.persistStoredWorkoutSessions items)
                     (fun _ => console_error line)) s) d
  = (after_failed_write line workout_write_lines (f s), d, Normal tt).
Proof.
  intros Hcan Hw. rewrite run_optimistic_update, run_persistStoredWorkoutSessions, Hcan, Hw.
  reflexivity.
Qed.

Lemma run_optimistic_update_memory (f : App -> App) (persist : Task App unit) (line : string) s d :
  (forall s0 d0, schedules (run (persist s0) d0).1.1 = schedules s0
                 /\ workouts (run (persist s0) d0).1.1 = workouts s0) ->
  let s' := (run (bind (modify f) (fun _ => try_catch persist (fun _ => console_error line)) s) d).1.1 in
  schedules s' = schedules (f s) /\ workouts s' = workouts (f s).
Proof.
  intros Hp. cbv zeta. rewrite run_optimistic_update.
  specialize (Hp (f s) d). destruct (run (persist (f s)) d) as [[s' d'] [[] | e]]; simpl in *; exact Hp.
Qed.

Lemma persistStoredSchedules_memory items s d :
  schedules (run (scheduleStorage.persistStoredSchedules items s) d).1.1 = schedules s
  /\ workouts (run (scheduleStorage.persistStoredSchedules items s) d).1.1 = workouts s.
Proof.
  rewrite run_persistStoredSchedules.
  destruct (canUseAsyncStorage (host s)), (write_fault d); split; reflexivity.
Qed.

Lemma persistStoredWorkoutSessions_memory items s d :
  schedules (run (workoutSessionStorage.persistStoredWorkoutSessions items s) d).1.1 = schedules s
  /\ workouts (run (workoutSessionStorage.persistStoredWorkoutSessions items s) d).1.1 = workouts s.
Proof.
  rewrite run_persistStoredWorkoutSessions.
  destruct (canUseAsyncStorage (host s)), (write_fault d); split; reflexivity.
Qed.

(** C1.  In both entity stores, adding an item makes the in-memory
    collection the new item followed by the previous collection.  The
    change is in place when the call suspends on the storage write (or
    returns at once, where storage is unavailable), so it is visible before
    the write settles, and it is still in place once the task has run to
    its end on any device. *)
Theorem add_inserts_at_front (s : App) (d : Device) :
  (forall schedule : Schedule,
     let next := schedule :: schedules s in
     match addSchedule schedule s with
     | Await pending op _ =>
         schedules pending = next
         /\ op = SetItem scheduleStorage.SCHEDULES_STORAGE_KEY
                   (scheduleStorage.serializeSchedules (map Schedule_toJSON next))
     | Done finished _ => schedules finished = next
     end
     /\ getSchedules (observable (addSchedule schedule s)) = next
     /\ getSchedules (run (addSchedule schedule s) d).1.1 = next)
  /\
  (forall workout : Workout,
     let next := workout :: workouts s in
     match addWorkout workout s with
     | Await pending op _ =>
         workouts pending = next
         /\ op = SetItem workoutSessionStorage.WORKOUTS_STORAGE_KEY
                   (workoutSessionStorage.serializeWorkouts (map JObj next))
     | Done finished _ => workouts finished = next
     end
     /\ getWorkouts (observable (addWorkout workout s)) = next
     /\ getWorkouts (run (addWorkout workout s) d).1.1 = next).
Proof.
  split.
  - intros schedule next. split; [| split].
    + unfold addSchedule, schedulesStore.persist, scheduleStorage.persistStoredSchedules,
        scheduleStorage.warnAsyncStorageUnavailable.
      task_unfold. simpl.
      destruct (canUseAsyncStorage (host s)); simpl; auto.
    + unfold addSchedule, schedulesStore.persist, scheduleStorage.persistStoredSchedules,
        scheduleStorage.warnAsyncStorageUnavailable.
      task_unfold. simpl.
      destruct (canUseAsyncStorage (host s)); reflexivity.
    + unfold addSchedule, getSchedules. rewrite run_bind. unfold get at 1. simpl run at 1. cbv beta iota zeta.
      apply (run_optimistic_update_memory (set_schedules next)).
      intros. apply persistStoredSchedules_memory.
  - intros workout next. split; [| split].
    + unfold addWorkout, workoutSessionsStore.persist,
        workoutSessionStorage.persistStoredWorkoutSessions,
        workoutSessionStorage.warnAsyncStorageUnavailable.
      task_unfold. simpl.
      destruct (canUseAsyncStorage (host s)); simpl; auto.
    + unfold addWorkout, workoutSessionsStore.persist,
        workoutSessionStorage.persistStoredWorkoutSessions,
        workoutSessionStorage.warnAsyncStorageUnavailable.
      task_unfold. simpl.
      destruct (canUseAsyncStorage (host s)); reflexivity.
    + unfold addWorkout, getWorkouts. rewrite run_bind. unfold get at 1. simpl run at 1. cbv beta iota zeta.
      apply (run_optimistic_update_memory (set_workouts next)).
      intros. apply persistStoredWorkoutSessions_memory.
Qed.


(** C3.  Where storage is usable and rejects writes, the adapters' persist
    operations throw the error "Unable to persist schedules" (respectively
    "... workouts"), and each of add, update and delete of both stores
    completes normally: the rejected write is logged, the slots are
    untouched and the in-memory collection keeps the change already
    applied. *)
Theorem write_failure_logged_without_rollback (s : App) (d : Device) :
  canUseAsyncStorage (host s) = true ->
  write_fault d = true ->
  (forall items,
     (run (scheduleStorage.persistStoredSchedules items s) d).2
     = Throw (Error "Unable to persist schedules"))
  /\ (forall items,
       (run (workoutSessionStorage.persistStoredWorkoutSessions items s) d).2
       = Throw (Error "Unable to persist workouts"))
  /\ (forall schedule,
       logged_and_kept (run (addSchedule schedule s) d) d
         "[schedulesStore] Failed to persist schedules after add"
         (schedule :: schedules s) (workouts s))
  /\ (forall schedule,
       logged_and_kept (run (updateSchedule schedule s) d) d
         "[schedulesStore] Failed to persist schedules after update"
         (map (fun existing =>
                 if String.eqb (schedule_id existing) (schedule_id schedule)
                 then schedule else existing) (schedules s))
         (workouts s))
  /\ (forall id,
       logged_and_kept (run (deleteSchedule id s) d) d
         "[schedulesStore] Failed to persist schedules after delete"
         (List.filter (fun schedule => negb (String.eqb (schedule_id schedule) id)) (schedules s))
         (workouts s))
  /\ (forall workout,
       logged_and_kept (run (addWorkout workout s) d) d
         "[workoutSessionsStore] Failed to persist workouts after add"
         (schedules s) (workout :: workouts s))
  /\ (forall workout,
       logged_and_kept (run (updateWorkout workout s) d) d
         "[workoutSessionsStore] Failed to persist workouts after update"
         (schedules s)
         (map (fun existing =>
                 if strict_eq (own "id" existing) (own "id" workout) then workout else existing)
              (workouts s)))
  /\ (forall id,
       logged_and_kept (run (deleteWorkout id s) d) d
         "[workoutSessionsStore] Failed to persist workouts after delete"
         (schedules s)
         (List.filter (fun workout => negb (strict_eq (own "id" workout) (Some (JStr id))))
            (workouts s))).
Proof.
  intros Hcan Hw.
  split; [| split].
  - intros items. now rewrite run_persistStoredSchedules, Hcan, Hw.
  - intros items. now rewrite run_persistStoredWorkoutSessions, Hcan, Hw.
  - repeat split.
    all: try (unfold addSchedule, updateSchedule, deleteSchedule, schedulesStore.persist;
              rewrite run_bind; unfold get at 1; simpl run at 1; cbv beta iota zeta;
              rewrite run_schedules_update_failing by assumption; reflexivity).
    all: unfold addWorkout, updateWorkout, deleteWorkout, workoutSessionsStore.persist;
              rewrite run_bind; unfold get at 1; simpl run at 1; cbv beta iota zeta;
              rewrite run_workouts_update_failing by assumption; reflexivity.
Qed.

End Stores.

(** ** Round trip through a slot *)

Section RoundTrip.
Context `{JSONGlobal}.

Lemma parseSchedules_result value s :
  exists s', scheduleStorage.parseSchedules value s = Done s' (Normal (decoded value))
             /\ schedules s' = schedules s /\ workouts s' = workouts s /\ host s' = host s.
Proof.
  unfold scheduleStorage.parseSchedules, decoded, scheduleStorage.logError. task_unfold.
  destruct value as [text |]; [| eauto].
  destruct (String.eqb text ""); [eauto |].
  destruct (JSON_parse text) as [[] |]; simpl; eauto.
Qed.

Lemma parseWorkouts_result value s :
  exists s', workoutSessionStorage.parseWorkouts value s = Done s' (Normal (decoded value))
             /\ schedules s' = schedules s /\ workouts s' = workouts s /\ host s' = host s.
Proof.
  unfold workoutSessionStorage.parseWorkouts, decoded, workoutSessionStorage.logError. task_unfold.
  destruct value as [text |]; [| eauto].
  destruct (String.eqb text ""); [eauto |].
  destruct (JSON_parse text) as [[] |]; simpl; eauto.
Qed.

Lemma parsePlans_result value s :
  exists s', storage.parsePlans value s = Done s' (Normal (decoded value))
             /\ schedules s' = schedules s /\ workouts s' = workouts s /\ host s' = host s.
Proof.
  unfold storage.parsePlans, decoded, storage.logError. task_unfold.
  destruct value as [text |]; [| eauto].
  destruct (String.eqb text ""); [eauto |].
  destruct (JSON_parse text) as [[] |]; simpl; eauto.
Qed.

Lemma loadStoredSchedules_loads :
  loads scheduleStorage.loadStoredSchedules scheduleStorage.SCHEDULES_STORAGE_KEY.
Proof.
  intros s d. unfold scheduleStorage.loadStoredSchedules, readable, scheduleStorage.logError.
  task_unfold. destruct d as [tbl rf wf]. simpl.
  destruct (canUseAsyncStorage (host s)); simpl; [| eauto].
  destruct rf; simpl; [eauto |].
  destruct (parseSchedules_result (tbl !! scheduleStorage.SCHEDULES_STORAGE_KEY) s)
    as (s' & -> & ?). simpl. eauto.
Qed.

Lemma loadStoredWorkoutSessions_loads :
  loads workoutSessionStorage.loadStoredWorkoutSessions workoutSessionStorage.WORKOUTS_STORAGE_KEY.
Proof.
  intros s d. unfold workoutSessionStorage.loadStoredWorkoutSessions, readable,
    workoutSessionStorage.logError.
  task_unfold. destruct d as [tbl rf wf]. simpl.
  destruct (canUseAsyncStorage (host s)); simpl; [| eauto].
  destruct rf; simpl; [eauto |].
  destruct (parseWorkouts_result (tbl !! workoutSessionStorage.WORKOUTS_STORAGE_KEY) s)
    as (s' & -> & ?). simpl. eauto.
Qed.

Lemma getPlans_loads : loads storage.getPlans storage.PLANS_STORAGE_KEY.
Proof.
  intros s d. unfold storage.getPlans, readable, storage.logError.
  task_unfold. destruct d as [tbl rf wf]. simpl.
  destruct (canUseAsyncStorage (host s)); simpl; [| eauto].
  destruct rf; simpl; [eauto |].
  destruct (parsePlans_result (tbl !! storage.PLANS_STORAGE_KEY) s) as (s' & -> & ?).
  simpl. eauto.
Qed.

Lemma decoded_stringify items :
  JSON_parse "" = None ->
  JSON_parse (JSON_stringify (JArr items)) = Some (JArr items) ->
  decoded (Some (JSON_stringify (JArr items))) = List.filter has_id items.
Proof.
  intros Hempty Hrt. unfold decoded.
  destruct (String.eqb_spec (JSON_stringify (JArr items)) "") as [E | _].
  - rewrite E in Hrt. congruence.
  - now rewrite Hrt.
Qed.


End RoundTrip.



(** ** Hydrating the workouts store *)

Lemma mapC_cases {A B} (f : A -> Completion B) (g : A -> B) (ok : A -> bool) (xs : list A) :
  (forall x, In x xs -> f x = if ok x then Normal (g x) else f x) ->
  (forall x, In x xs -> ok x = false -> exists e, f x = Throw e) ->
  if forallb ok xs then mapC f xs = Normal (map g xs) else exists e, mapC f xs = Throw e.
Proof.
  induction xs as [| x rest IH]; intros Hok Hbad; simpl; [reflexivity |].
  assert (IH' := IH (fun y Hy => Hok y (or_intror Hy)) (fun y Hy => Hbad y (or_intror Hy))).
  destruct (ok x) eqn:Ex; simpl.
  - rewrite (Hok x (or_introl eq_refl)), Ex. simpl.
    destruct (forallb ok rest).
    + now rewrite IH'.
    + destruct IH' as [e ->]. simpl. eauto.
  - destruct (Hbad x (or_introl eq_refl) Ex) as [e ->]. simpl. eauto.
Qed.

Section Hydration.
Context `{JSONGlobal}.
Import workoutSessionsStore.

Lemma normalizeSet_cases set :
  normalizeSet set =
  if not_null set then Normal (claimed_set set) else normalizeSet set.
Proof.
  destruct set; reflexivity.
Qed.

Lemma normalizeSet_null : exists e, normalizeSet JNull = Throw e.
Proof. unfold normalizeSet, member. simpl. eauto. Qed.

Lemma normalizeExercise_cases exercise :
  let ok := not_null exercise && forallb not_null (array_or_empty (opt_member exercise "sets")) in
  if ok then normalizeExercise exercise = Normal (claimed_exercise exercise)
  else exists e, normalizeExercise exercise = Throw e.
Proof.
  cbv zeta. destruct (not_null exercise) eqn:Enn; simpl.
  - assert (Hm : member exercise "sets" = Normal (opt_member exercise "sets"))
      by (destruct exercise; try reflexivity; discriminate).
    unfold normalizeExercise, claimed_exercise. rewrite Hm. simpl.
    destruct (opt_member exercise "sets") as [[| | | | items |] |]; try reflexivity.
    simpl.
    pose proof (mapC_cases normalizeSet claimed_set not_null items
                  (fun x _ => normalizeSet_cases x)) as Hc.
    destruct (forallb not_null items).
    + rewrite Hc; [reflexivity |].
      intros x _ Hx. destruct x; try discriminate. apply normalizeSet_null.
    + destruct Hc as [e ->]; [| simpl; eauto].
      intros x _ Hx. destruct x; try discriminate. apply normalizeSet_null.
  - destruct exercise; try discriminate. unfold normalizeExercise, member. simpl. eauto.
Qed.

Lemma normalizeWorkout_cases workout :
  not_null workout = true ->
  if no_null_entry workout then normalizeWorkout workout = Normal (claimed_workout workout)
  else exists e, normalizeWorkout workout = Throw e.
Proof.
  intros Hnn.
  assert (Hm : member workout "exercises" = Normal (opt_member workout "exercises"))
    by (destruct workout; try reflexivity; discriminate).
  unfold normalizeWorkout, claimed_workout, no_null_entry. rewrite Hm. simpl.
  destruct (opt_member workout "exercises") as [[| | | | items |] |]; try reflexivity.
  simpl.
  set (ok := fun exercise =>
               not_null exercise
               && forallb not_null (array_or_empty (opt_member exercise "sets"))).
  pose proof (mapC_cases normalizeExercise claimed_exercise ok items) as Hc.
  assert (H1 : forall x, In x items ->
                 normalizeExercise x = if ok x then Normal (claimed_exercise x) else normalizeExercise x).
  { intros x _. pose proof (normalizeExercise_cases x) as Hx. cbv zeta in Hx. fold (ok x) in Hx.
    destruct (ok x); [exact Hx | reflexivity]. }
  assert (H2 : forall x, In x items -> ok x = false -> exists e, normalizeExercise x = Throw e).
  { intros x _ Ex. pose proof (normalizeExercise_cases x) as Hx. cbv zeta in Hx. fold (ok x) in Hx.
    now rewrite Ex in Hx. }
  specialize (Hc H1 H2).
  destruct (forallb ok items).
  - now rewrite Hc.
  - destruct Hc as [e ->]. simpl. eauto.
Qed.

Lemma has_id_not_null v : has_id v = true -> not_null v = true.
Proof. destruct v; [discriminate | reflexivity ..]. Qed.

Lemma decoded_not_null value : Forall (fun v => not_null v = true) (decoded value).
Proof.
  unfold decoded. destruct value as [text |]; [| constructor].
  destruct (String.eqb text ""); [constructor |].
  destruct (JSON_parse text) as [[| | | | parsed |] |]; try constructor.
  apply List.Forall_forall. intros v Hv. apply filter_In in Hv as [_ Hv].
  now apply has_id_not_null.
Qed.

Lemma mapC_normalizeWorkout stored :
  Forall (fun v => not_null v = true) stored ->
  if forallb no_null_entry stored
  then mapC normalizeWorkout stored = Normal (map claimed_workout stored)
  else exists e, mapC normalizeWorkout stored = Throw e.
Proof.
  intros Hnn. rewrite List.Forall_forall in Hnn.
  apply mapC_cases.
  - intros x Hx. pose proof (normalizeWorkout_cases x (Hnn x Hx)) as Hc.
    destruct (no_null_entry x); [exact Hc | reflexivity].
  - intros x Hx Ex. pose proof (normalizeWorkout_cases x (Hnn x Hx)) as Hc.
    now rewrite Ex in Hc.
Qed.

(** C4 (amended).  Hydrating the workouts store never throws and leaves the
    slots alone, whatever the slot holds.  When no entry of an [exercises]
    array and no entry of a [sets] array of the loaded workouts is [null],
    the store becomes the loaded workouts with every set record rebuilt:
    [reps] and [weight] are kept when they are numbers and are 0 otherwise,
    [completed] is coerced to a boolean, and an [exercises] or [sets] field
    that is not an array becomes the empty sequence.  When some such entry is
    [null] the hydration is given up: the failure is logged and the store
    keeps what it held.  An unparseable payload yields the empty
    collection. *)
Theorem hydrateWorkouts_defaults (s : App) (d : Device) :
  let outcome := run (hydrateWorkouts s) d in
  let stored :=
    if readable s d
    then decoded (slots d !! workoutSessionStorage.WORKOUTS_STORAGE_KEY)
    else [] in
  outcome.2 = Normal tt
  /\ outcome.1.2 = d
  /\ (if forallb no_null_entry stored
      then workouts outcome.1.1 = map claimed_workout stored
      else workouts outcome.1.1 = workouts s
           /\ head (console outcome.1.1)
              = Some (LError, "[workoutSessionsStore] Failed to hydrate workouts"))
  /\ (forall text,
        slots d !! workoutSessionStorage.WORKOUTS_STORAGE_KEY = Some text ->
        JSON_parse text = None ->
        workouts outcome.1.1 = []).
Proof.
  cbv zeta.
  set (stored := if readable s d then _ else _).
  assert (Hnn : Forall (fun v => not_null v = true) stored).
  { unfold stored. destruct (readable s d); [apply decoded_not_null | constructor]. }
  assert (Hparse : forall text,
             slots d !! workoutSessionStorage.WORKOUTS_STORAGE_KEY = Some text ->
             JSON_parse text = None -> stored = []).
  { intros text Hs Hp. unfold stored. destruct (readable s d); [| reflexivity].
    rewrite Hs. unfold decoded. destruct (String.eqb text ""); [reflexivity |].
    now rewrite Hp. }
  unfold hydrateWorkouts. rewrite run_try_catch, run_bind.
  destruct (loadStoredWorkoutSessions_loads s d) as (s' & -> & Hsch & Hwk & Hhost).
  fold stored. rewrite run_bind. unfold lift at 1. simpl run at 1. cbv beta iota.
  pose proof (mapC_normalizeWorkout stored Hnn) as Hc.
  destruct (forallb no_null_entry stored) eqn:Eok.
  - rewrite Hc. simpl. repeat split; try reflexivity.
    intros text Hs Hp. now rewrite (Hparse text Hs Hp).
  - destruct Hc as [e ->]. simpl. repeat split; try assumption.
    intros text Hs Hp. rewrite (Hparse text Hs Hp) in Eok. discriminate.
Qed.

End Hydration.

(** ** Deleting a plan *)

Section Cascade.
Context `{JSONGlobal}.
Import plans.

Lemma get_set_day day day' v w :
  get_day day (set_day day' v w) = if decide (day = day') then v else get_day day w.
Proof. destruct day, day'; reflexivity. Qed.

Lemma weekdays_ext w1 w2 :
  (forall day, get_day day w1 = get_day day w2) -> w1 = w2.
Proof.
  intros E. destruct w1, w2.
  pose proof (E monday); pose proof (E tuesday); pose proof (E wednesday);
    pose proof (E thursday); pose proof (E friday); pose proof (E saturday);
    pose proof (E sunday).
  simpl in *. congruence.
Qed.

Lemma fold_visit_day planId (keys : list ScheduleDayKey) :
  NoDup keys ->
  forall w didUpdate,
    let result := fold_left (visit_day planId) keys (w, didUpdate) in
    (forall day,
       get_day day (fst result)
       = if bool_decide (day ∈ keys) then cleared_slot planId (get_day day w) else get_day day w)
    /\ snd result
       = didUpdate || existsb (fun day => refers_to planId (get_day day w)) keys.
Proof.
  induction 1 as [| key keys Hnotin Hnodup IH]; intros w didUpdate; cbv zeta.
  - simpl. split; [intros day; reflexivity | now rewrite orb_false_r].
  - simpl fold_left.
    change (visit_day planId (w, didUpdate) key)
      with (if refers_to planId (get_day key w)
            then (set_day key None w, true) else (w, didUpdate)).
    destruct (refers_to planId (get_day key w)) eqn:Eref.
    + specialize (IH (set_day key None w) true). cbv zeta in IH. destruct IH as [IHw IHu].
      split.
      * intros day. rewrite IHw, get_set_day.
        destruct (decide (day = key)) as [-> | Hne].
        -- rewrite bool_decide_eq_false_2 by assumption.
           rewrite bool_decide_eq_true_2 by (left).
           unfold cleared_slot. now rewrite Eref.
        -- destruct (bool_decide (day ∈ keys)) eqn:Ein.
           ++ rewrite bool_decide_eq_true_2; [reflexivity |].
              right. now apply bool_decide_eq_true in Ein.
           ++ rewrite bool_decide_eq_false_2; [reflexivity |].
              apply bool_decide_eq_false in Ein. rewrite elem_of_cons. tauto.
      * rewrite IHu. simpl. rewrite Eref. simpl. now rewrite orb_true_r.
    + specialize (IH w didUpdate). cbv zeta in IH. destruct IH as [IHw IHu].
      split.
      * intros day. rewrite IHw.
        destruct (decide (day = key)) as [-> | Hne].
        -- rewrite bool_decide_eq_false_2 by assumption.
           rewrite bool_decide_eq_true_2 by (left).
           unfold cleared_slot. now rewrite Eref.
        -- destruct (bool_decide (day ∈ keys)) eqn:Ein.
           ++ rewrite bool_decide_eq_true_2; [reflexivity |].
              right. now apply bool_decide_eq_true in Ein.
           ++ rewrite bool_decide_eq_false_2; [reflexivity |].
              apply bool_decide_eq_false in Ein. rewrite elem_of_cons. tauto.
      * rewrite IHu. simpl. now rewrite Eref.
Qed.

Lemma Object_keys_all day : day ∈ Object_keys.
Proof. apply (bool_decide_unpack _). destruct day; vm_compute; exact I. Qed.

Lemma Object_keys_NoDup : NoDup Object_keys.
Proof. apply (bool_decide_unpack _). vm_compute. exact I. Qed.

Lemma clear_references_slots planId schedule day :
  get_day day (fst (clear_references planId schedule))
  = cleared_slot planId (get_day day (weekdays schedule)).
Proof.
  unfold clear_references.
  destruct (fold_visit_day planId Object_keys Object_keys_NoDup (weekdays schedule) false)
    as [Hw _].
  rewrite Hw. now rewrite bool_decide_eq_true_2 by apply Object_keys_all.
Qed.

Lemma clear_references_didUpdate planId schedule :
  snd (clear_references planId schedule) = references planId schedule.
Proof.
  unfold clear_references, references.
  destruct (fold_visit_day planId Object_keys Object_keys_NoDup (weekdays schedule) false)
    as [_ Hu].
  exact Hu.
Qed.

Lemma without_plan_unreferenced planId schedule :
  references planId schedule = false -> without_plan planId schedule = schedule.
Proof.
  intros Hno. unfold without_plan. destruct schedule as [id name w]. simpl. f_equal.
  apply weekdays_ext. intros day. rewrite clear_references_slots. simpl.
  unfold cleared_slot. unfold references in Hno. cbn [weekdays] in Hno.
  assert (Hday : refers_to planId (get_day day w) = false).
  { destruct (refers_to planId (get_day day w)) eqn:E; [| reflexivity].
    assert (existsb (fun day => refers_to planId (get_day day w)) Object_keys = true).
    { apply existsb_exists. exists day. split; [| exact E].
      apply list_elem_of_In, Object_keys_all. }
    congruence. }
  now rewrite Hday.
Qed.

Lemma updateSchedule_synchronous schedule s :
  schedules (fire_and_forget (schedulesStore.updateSchedule schedule) s)
  = map (fun existing =>
           if String.eqb (schedule_id existing) (schedule_id schedule)
           then schedule else existing)
        (schedules s).
Proof.
  unfold fire_and_forget, schedulesStore.updateSchedule, schedulesStore.persist,
    scheduleStorage.persistStoredSchedules, scheduleStorage.warnAsyncStorageUnavailable.
  task_unfold. simpl.
  destruct (canUseAsyncStorage (host s)); reflexivity.
Qed.

Lemma replace_by_id_fresh (replacement : Schedule) (others : list Schedule) :
  schedule_id replacement ∉ map schedule_id others ->
  map (fun existing =>
         if String.eqb (schedule_id existing) (schedule_id replacement)
         then replacement else existing) others
  = others.
Proof.
  induction others as [| x rest IH]; intros Hfresh; simpl; [reflexivity |].
  simpl in Hfresh. rewrite not_elem_of_cons in Hfresh. destruct Hfresh as [Hne Hrest].
  destruct (String.eqb_spec (schedule_id x) (schedule_id replacement)) as [E | _];
    [congruence |].
  now rewrite IH.
Qed.

Lemma cascade_one_schedules planId s pre schedule rest :
  schedules s = pre ++ schedule :: rest ->
  schedule_id schedule ∉ map schedule_id pre ->
  schedule_id schedule ∉ map schedule_id rest ->
  schedules (cascade_one planId s schedule) = pre ++ without_plan planId schedule :: rest.
Proof.
  intros Hs Hpre Hrest. unfold cascade_one.
  pose proof (clear_references_didUpdate planId schedule) as Hu.
  destruct (clear_references planId schedule) as [nextWeekdays didUpdate] eqn:Ec.
  simpl in Hu. subst didUpdate.
  destruct (references planId schedule) eqn:Eref.
  - rewrite updateSchedule_synchronous, Hs.
    set (next := mkSchedule (schedule_id schedule) (schedule_name schedule) nextWeekdays).
    rewrite map_app, (replace_by_id_fresh next pre Hpre).
    cbn [map]. rewrite (replace_by_id_fresh next rest Hrest).
    change (schedule_id next) with (schedule_id schedule). rewrite String.eqb_refl.
    unfold without_plan. now rewrite Ec.
  - now rewrite without_plan_unreferenced.
Qed.

Lemma cascade_fold planId (todo : list Schedule) :
  forall pre s,
    schedules s = pre ++ todo ->
    NoDup (map schedule_id (pre ++ todo)) ->
    schedules (fold_left (cascade_one planId) todo s) = pre ++ map (without_plan planId) todo.
Proof.
  induction todo as [| schedule rest IH]; intros pre s Hs Hnd; simpl; [exact Hs |].
  rewrite map_app in Hnd. simpl in Hnd.
  apply NoDup_app in Hnd as (Hpre & Hcross & Hrest).
  apply NoDup_cons in Hrest as [Hfresh Hrest].
  assert (Hnotpre : schedule_id schedule ∉ map schedule_id pre).
  { intros Hin. apply (Hcross _ Hin). left. }
  rewrite (IH (pre ++ [without_plan planId schedule])).
  - now rewrite <- app_assoc.
  - rewrite <- app_assoc. simpl. now apply cascade_one_schedules.
  - rewrite <- app_assoc, map_app. simpl.
    apply NoDup_app. split; [exact Hpre |]. split.
    + intros x Hx. apply (Hcross x Hx).
    + apply NoDup_cons. split; assumption.
Qed.

(** C5.  In a store whose schedules have distinct ids, confirming the
    deletion of plan [planId] leaves the store with the same schedules in the
    same places, each with the same id and name, where a weekday slot is
    [null] exactly if it referred to [planId] and is otherwise what it was;
    a schedule none of whose slots referred to [planId] is unchanged
    altogether. *)
Theorem delete_plan_clears_references (planId : string) (s : App) :
  NoDup (map schedule_id (schedules s)) ->
  let after := schedules (confirmDeletePlan (Some planId) (schedules s) s) in
  List.length after = List.length (schedules s)
  /\ forall (i : nat) (S : Schedule),
       schedules s !! i = Some S ->
       exists S',
         after !! i = Some S'
         /\ schedule_id S' = schedule_id S
         /\ schedule_name S' = schedule_name S
         /\ (forall day,
               get_day day (weekdays S')
               = if refers_to planId (get_day day (weekdays S)) then None
                 else get_day day (weekdays S))
         /\ ((forall day, refers_to planId (get_day day (weekdays S)) = false) -> S' = S).
Proof.
  intros Hnd. cbv zeta. unfold confirmDeletePlan.
  rewrite (cascade_fold planId (schedules s) [] s eq_refl Hnd). simpl.
  split; [apply length_map |].
  intros i S Hi. exists (without_plan planId S).
  split; [| split; [| split; [| split]]].
  - rewrite list_lookup_fmap, Hi. reflexivity.
  - reflexivity.
  - reflexivity.
  - intros day. apply clear_references_slots.
  - intros Hno. apply without_plan_unreferenced. unfold references.
    apply not_true_is_false. intros Hex. apply existsb_exists in Hex as (day & _ & Hday).
    rewrite Hno in Hday. discriminate.
Qed.

End Cascade.

(** ** Sets of strings *)

Lemma set_has_app x members extra :
  set_has x (members ++ extra) = set_has x members || set_has x extra.
Proof. unfold set_has. apply existsb_app. Qed.

Lemma set_has_add x y members :
  set_has x (set_add y members) = set_has x members || String.eqb x y.
Proof.
  unfold set_add. destruct (set_has y members) eqn:E.
  - destruct (String.eqb_spec x y) as [-> | _]; [now rewrite E | now rewrite orb_false_r].
  - rewrite set_has_app. unfold set_has at 2. simpl. now rewrite orb_false_r.
Qed.

Lemma set_has_fold x items : forall members,
  set_has x (fold_left (fun acc y => set_add y acc) items members)
  = set_has x members || existsb (String.eqb x) items.
Proof.
  induction items as [| y rest IH]; intros members; simpl; [now rewrite orb_false_r |].
  now rewrite IH, set_has_add, orb_assoc.
Qed.

Lemma set_has_new_Set x items : set_has x (new_Set items) = true <-> In x items.
Proof.
  unfold new_Set. rewrite set_has_fold. simpl. rewrite existsb_exists. split.
  - intros (y & Hy & E). apply String.eqb_eq in E. now subst.
  - intros Hx. exists x. split; [exact Hx | apply String.eqb_refl].
Qed.

(** ** Scoring a catalogue item *)

Section Scoring.
Import search.

Lemma add_token_score_weight exercise score token :
  nonempty token = true ->
  add_token_score exercise score token = score + first_match tested_precedence exercise token.
Proof.
  intros Hne. unfold nonempty in Hne. apply negb_true_iff in Hne.
  unfold add_token_score, first_match, tested_precedence. rewrite Hne.
  unfold find, fst, snd.
  unfold exact_name, name_prefix, name_substring, muscle_group, flag_keyword,
    secondary_muscle, equipment_item, movement_pattern, search_index.
  destruct (String.eqb (normalizeSearchText (exercise_name exercise)) token); [reflexivity |].
  destruct (startsWith (normalizeSearchText (exercise_name exercise)) token); [reflexivity |].
  destruct (includes (normalizeSearchText (exercise_name exercise)) token); [reflexivity |].
  destruct (includes (normalizeSearchText (muscleGroup exercise)) token
            || includes (normalizeSearchText (filterMuscleGroup exercise)) token);
    [reflexivity |].
  destruct (existsb (fun target => includes target token)
              (map normalizeSearchText (secondaryMuscleGroups exercise))); [reflexivity |].
  destruct (existsb (fun item => includes item token)
              (map normalizeSearchText (equipment exercise))); [reflexivity |].
  destruct (includes (normalizeSearchText (movementPattern exercise)) token); [reflexivity |].
  destruct (String.eqb token "compound" && isCompound exercise); [reflexivity |].
  destruct (String.eqb token "bodyweight" && isBodyweight exercise); [reflexivity |].
  destruct (includes (searchIndex exercise) token); [reflexivity | simpl; lia].
Qed.

Lemma fold_add_token_score exercise tokens :
  Forall (fun token => nonempty token = true) tokens ->
  forall score,
    fold_left (add_token_score exercise) tokens score
    = score + total_weight tested_precedence exercise tokens.
Proof.
  unfold total_weight.
  induction 1 as [| token rest Hne _ IH]; intros score; simpl; [lia |].
  rewrite IH, add_token_score_weight by exact Hne. lia.
Qed.

(** C6 (amended).  For every catalogue item and every list of non-empty
    tokens, the score is the sum over the tokens of the weight of the first
    field the token matches, the fields being tried in this order: exact
    name 10, name prefix 7, name substring 6, primary or filter muscle group
    5, secondary muscle 4, equipment 4, movement pattern 3, the keyword flags
    compound and bodyweight 5, search index 2; a token that matches nothing
    adds 0. *)
Theorem scoreExercise_sums_first_matches (exercise : ExerciseCatalogItem)
    (tokens : list string) :
  Forall (fun token => nonempty token = true) tokens ->
  scoreExercise exercise tokens = total_weight tested_precedence exercise tokens.
Proof.
  intros Hne. unfold scoreExercise. destruct tokens as [| token rest]; [reflexivity |].
  now rewrite fold_add_token_score.
Qed.

End Scoring.

(** ** Ranking the candidates *)

Section Ranking.
Import search.

Lemma insert_entry_perm a sorted : Permutation (insert_entry a sorted) (a :: sorted).
Proof.
  induction sorted as [| b rest IH]; simpl; [reflexivity |].
  destruct (snd a <? snd b)%nat; [| reflexivity].
  rewrite IH. apply perm_swap.
Qed.

Lemma sort_by_score_perm entries : Permutation (sort_by_score entries) entries.
Proof.
  induction entries as [| a rest IH]; simpl; [reflexivity |].
  rewrite insert_entry_perm. now constructor.
Qed.

Lemma insert_entry_sorted a sorted :
  StronglySorted not_below sorted -> StronglySorted not_below (insert_entry a sorted).
Proof.
  induction 1 as [| b rest Hsorted IH Hb]; simpl.
  - repeat constructor.
  - destruct (Nat.ltb_spec (snd a) (snd b)) as [Hlt | Hge].
    + constructor; [exact IH |].
      apply List.Forall_forall. intros x Hx.
      apply (Permutation_in _ (insert_entry_perm a rest)) in Hx.
      destruct Hx as [<- | Hx]; [unfold not_below; lia |].
      rewrite List.Forall_forall in Hb. now apply Hb.
    + constructor; [now constructor |].
      constructor; [exact Hge |].
      rewrite List.Forall_forall in Hb |- *. intros x Hx.
      specialize (Hb x Hx). unfold not_below in *. lia.
Qed.

Lemma sort_by_score_sorted entries : StronglySorted not_below (sort_by_score entries).
Proof.
  induction entries as [| a rest IH]; simpl; [constructor |].
  now apply insert_entry_sorted.
Qed.

Lemma insert_entry_stable n a sorted :
  List.filter (with_score n) (insert_entry a sorted)
  = List.filter (with_score n) (a :: sorted).
Proof.
  induction sorted as [| b rest IH]; [reflexivity |].
  simpl insert_entry. destruct (Nat.ltb_spec (snd a) (snd b)) as [Hlt | Hge]; [| reflexivity].
  simpl List.filter in *. rewrite IH. unfold with_score.
  destruct (Nat.eqb_spec (snd a) n), (Nat.eqb_spec (snd b) n); try reflexivity. lia.
Qed.

Lemma sort_by_score_stable n entries :
  List.filter (with_score n) (sort_by_score entries) = List.filter (with_score n) entries.
Proof.
  induction entries as [| a rest IH]; [reflexivity |].
  simpl sort_by_score. rewrite insert_entry_stable. simpl. now rewrite IH.
Qed.

Lemma slice_to_firstn {A} (limit : Z) (xs : list A) :
  (0 <= limit)%Z -> slice_to limit xs = firstn (Z.to_nat limit) xs.
Proof.
  intros Hpos. unfold slice_to.
  destruct (Z.ltb_spec limit 0) as [Hneg | _]; [lia |].
  destruct (Z.le_gt_cases limit (Z.of_nat (List.length xs))) as [Hle | Hgt].
  - now rewrite Z.min_l.
  - rewrite Z.min_r by lia. rewrite Nat2Z.id.
    rewrite firstn_all. symmetry. apply firstn_all2. lia.
Qed.

Lemma candidates_spec tokens excludeIds exercises (entry : Entry) :
  In entry (candidates tokens excludeIds exercises) <->
  In (fst entry) exercises
  /\ ~ In (exercise_id (fst entry)) excludeIds
  /\ snd entry = scoreExercise (fst entry) tokens
  /\ 0 < snd entry.
Proof.
  unfold candidates. rewrite filter_In, in_map_iff. split.
  - intros [(exercise & <- & Hin) Hpos]. apply filter_In in Hin as [Hin Hex]. simpl in *.
    apply negb_true_iff in Hex. apply Nat.ltb_lt in Hpos.
    repeat split; try assumption.
    intros Hbad. apply set_has_new_Set in Hbad. congruence.
  - intros (Hin & Hex & Hscore & Hpos). split; [| now apply Nat.ltb_lt].
    exists (fst entry). split; [destruct entry; simpl in *; congruence |].
    apply filter_In. split; [exact Hin |]. apply negb_true_iff.
    destruct (set_has (exercise_id (fst entry)) (new_Set excludeIds)) eqn:E; [| reflexivity].
    apply set_has_new_Set in E. contradiction.
Qed.

Lemma insert_string_perm a sorted : Permutation (insert_string a sorted) (a :: sorted).
Proof.
  induction sorted as [| b rest IH]; cbn [insert_string]; [reflexivity |].
  destruct (String.leb a b); [reflexivity |].
  rewrite IH. apply perm_swap.
Qed.

Lemma insert_string_sorted a sorted :
  Sorted (fun x y => String.leb x y = true) sorted ->
  Sorted (fun x y => String.leb x y = true) (insert_string a sorted).
Proof.
  induction 1 as [| b rest Hsorted IH Hb]; cbn [insert_string]; [repeat constructor |].
  destruct (String.leb a b) eqn:Eab.
  - constructor; [now constructor | now constructor].
  - constructor; [exact IH |].
    assert (Hba : String.leb b a = true)
      by (destruct (String.leb_total a b) as [E | E]; [congruence | exact E]).
    destruct rest as [| c rest]; cbn [insert_string]; [now constructor |].
    destruct (String.leb a c); constructor; [exact Hba |].
    now inversion Hb.
Qed.

(** [sort_strings] sorts: the result holds the same strings, in ascending
    order of code units. *)
Lemma sort_strings_sorts ids :
  Permutation (sort_strings ids) ids
  /\ Sorted (fun x y => String.leb x y = true) (sort_strings ids).
Proof.
  induction ids as [| a rest [IHp IHs]]; [split; constructor |].
  cbn [sort_strings fold_right]. split.
  - rewrite insert_string_perm. now constructor.
  - now apply insert_string_sorted.
Qed.

Lemma compute_results_ranked query exercises limit excludeIds tokens :
  normalizeSearchText query <> "" ->
  expandTokens (query_tokens query) = Normal tokens ->
  (0 <= limit)%Z ->
  compute_results query exercises limit excludeIds
  = Normal (map fst (firstn (Z.to_nat limit)
                       (sort_by_score (candidates tokens excludeIds exercises)))).
Proof.
  intros Hquery Htokens Hlimit. unfold compute_results, query_tokens in *.
  destruct (String.eqb_spec (normalizeSearchText query) "") as [E | _]; [contradiction |].
  rewrite Htokens. simpl. rewrite slice_to_firstn by exact Hlimit. reflexivity.
Qed.

Lemma search_empty_query query exercises limit excludeIds :
  normalizeSearchText query = "" ->
  compute_results query exercises limit excludeIds = Normal [].
Proof. intros E. unfold compute_results. now rewrite E. Qed.

(** Whether the callback throws is a matter of the query alone. *)
Lemma compute_results_by_query query exercises limit excludeIds :
  match compute_results query exercises limit excludeIds with
  | Normal _ => exists computed, compute_results query [] 6 [] = Normal computed
  | Throw e => forall exercises' limit' excludeIds',
      compute_results query exercises' limit' excludeIds' = Throw e
  end.
Proof.
  unfold compute_results.
  destruct (String.eqb (normalizeSearchText query) ""); [eauto |].
  destruct (expandTokens _) as [tokens | e]; cbn [cbind]; eauto.
Qed.

Lemma useSemanticExerciseSearch_cases hooks query exercises options :
  exists keyCell,
    useSemanticExerciseSearch hooks query exercises options
    = match remembered hooks query exercises options with
      | Some found => (mkSearchHooks (Some keyCell) (results_cell hooks), Normal found)
      | None =>
          match compute_results query (contents exercises) (limit_of options)
                  (excludeIds_of options) with
          | Normal found =>
              (mkSearchHooks (Some keyCell)
                 (Some (inputs_at hooks query exercises options, found)),
               Normal found)
          | Throw e => (hooks, Throw e)
          end
      end.
Proof.
  unfold useSemanticExerciseSearch, remembered, inputs_at, excludeKey_at.
  fold (limit_of options). fold (excludeIds_of options).
  assert (Hkey : exists keyCell,
            useMemo same_array (excludeKey_cell hooks)
              (Normal (excludeKey_of (excludeIds_of options)))
              (reference <$> (o ← options; opt_excludeIds o))
            = Normal keyCell
            /\ snd keyCell
               = match excludeKey_cell hooks, (o ← options; opt_excludeIds o) with
                 | Some (Some last, key), Some given =>
                     if Nat.eqb (reference given) last then key
                     else excludeKey_of (contents given)
                 | _, _ => excludeKey_of (excludeIds_of options)
                 end).
  { unfold useMemo, same_array, excludeIds_of.
    destruct (excludeKey_cell hooks) as [[[last |] key] |];
      destruct (o ← options; opt_excludeIds o) as [given |]; cbn; eauto.
    destruct (Nat.eqb (reference given) last); cbn; eauto. }
  destruct Hkey as (keyCell & -> & Hsnd). exists keyCell.
  cbn [cbind]. rewrite Hsnd. unfold useMemo.
  destruct (results_cell hooks) as [[deps found] |].
  - destruct (same_inputs _ deps); [reflexivity |].
    now destruct (compute_results _ _ _ _).
  - now destruct (compute_results _ _ _ _).
Qed.

Lemma remembered_query hooks query exercises options found :
  remembered hooks query exercises options = Some found ->
  exists deps, results_cell hooks = Some (deps, found) /\ query_of deps = query.
Proof.
  unfold remembered, inputs_at.
  destruct (results_cell hooks) as [[[[[e q] l] k] value] |]; [| discriminate].
  cbn [same_inputs]. destruct (Nat.eqb _ e); [| discriminate].
  destruct (String.eqb_spec query q) as [<- | _]; [| discriminate].
  destruct (Z.eqb _ l); [| discriminate]. destruct (String.eqb _ k); [| discriminate].
  intros [= <-]. eauto.
Qed.

Lemma render_keeps_computed hooks query exercises options :
  computed_without_exception hooks ->
  computed_without_exception (useSemanticExerciseSearch hooks query exercises options).1.
Proof.
  intros Hok. destruct (useSemanticExerciseSearch_cases hooks query exercises options)
    as (keyCell & ->).
  destruct (remembered hooks query exercises options) as [found |]; [exact Hok |].
  pose proof (compute_results_by_query query (contents exercises) (limit_of options)
                (excludeIds_of options)) as Hq.
  destruct (compute_results _ _ _ _) as [found | e]; [| exact Hok].
  intros deps value [= <- <-]. exact Hq.
Qed.

Lemma rendered_computed history : computed_without_exception (rendered history).
Proof.
  unfold rendered.
  assert (Hgen : forall hooks, computed_without_exception hooks ->
            computed_without_exception
              (fold_left
                 (fun hooks render =>
                    (useSemanticExerciseSearch hooks (render_query render)
                       (render_exercises render) (render_options render)).1)
                 history hooks)).
  { induction history as [| render rest IH]; intros hooks Hok; [exact Hok |].
    cbn [fold_left]. apply IH. now apply render_keeps_computed. }
  apply Hgen. intros deps found Hcell. discriminate Hcell.
Qed.

(** A render whose query makes the callback throw, after any history:
    nothing is remembered for such a query, so the callback runs. *)
Lemma render_throws history query exercises options e :
  (forall exercises' limit' excludeIds',
     compute_results query exercises' limit' excludeIds' = Throw e) ->
  useSemanticExerciseSearch (rendered history) query exercises options
  = (rendered history, Throw e).
Proof.
  intros Hthrow.
  destruct (useSemanticExerciseSearch_cases (rendered history) query exercises options)
    as (keyCell & ->).
  destruct (remembered (rendered history) query exercises options) as [found |] eqn:Er.
  - destruct (remembered_query _ _ _ _ _ Er) as (deps & Hcell & Hq).
    destruct (rendered_computed history deps found Hcell) as (computed & Hc).
    rewrite Hq, Hthrow in Hc. discriminate Hc.
  - now rewrite Hthrow.
Qed.

(** X1.  A render of the search hook returns the list it remembers when the
    catalogue array, the query, the limit and the exclusion key are those of
    the render that computed it, and leaves that list remembered; the first
    render remembers nothing.  Otherwise, for a query that is not blank and
    whose tokens expand without an exception, and a limit that is not
    negative, it returns, and remembers, the first [limit] items of a
    ranking of the candidates: the items the catalogue holds that are not
    excluded and score above 0, with those scores.  The ranking is a
    permutation of the candidates, in descending order of score, and items
    of equal score keep their catalogue order.  The limit is 6 and nothing
    is excluded when no options are given. *)
Theorem search_results_ranked (hooks : SearchHooks) (query : string)
    (exercises : JSArray ExerciseCatalogItem)
    (options : option UseSemanticExerciseSearchOptions) (tokens : list string) :
  let limit := default 6%Z (o ← options; opt_limit o) in
  let excludeIds := default [] (contents <$> (o ← options; opt_excludeIds o)) in
  let render := useSemanticExerciseSearch hooks query exercises options in
  (forall found,
     remembered hooks query exercises options = Some found ->
     render.2 = Normal found /\ results_cell render.1 = results_cell hooks)
  /\ remembered mount query exercises options = None
  /\ (remembered hooks query exercises options = None ->
      normalizeSearchText query <> "" ->
      expandTokens (query_tokens query) = Normal tokens ->
      (0 <= limit)%Z ->
      exists ranked : list Entry,
        render.2 = Normal (map fst (firstn (Z.to_nat limit) ranked))
        /\ results_cell render.1
           = Some (inputs_at hooks query exercises options,
                   map fst (firstn (Z.to_nat limit) ranked))
        /\ Permutation ranked (candidates tokens excludeIds (contents exercises))
        /\ StronglySorted not_below ranked
        /\ (forall n, List.filter (with_score n) ranked
                      = List.filter (with_score n)
                          (candidates tokens excludeIds (contents exercises)))
        /\ (forall entry,
              In entry (candidates tokens excludeIds (contents exercises)) <->
              In (fst entry) (contents exercises)
              /\ ~ In (exercise_id (fst entry)) excludeIds
              /\ snd entry = scoreExercise (fst entry) tokens
              /\ 0 < snd entry)).
Proof.
  cbv zeta. fold (limit_of options). fold (excludeIds_of options).
  destruct (useSemanticExerciseSearch_cases hooks query exercises options) as (keyCell & ->).
  split; [| split].
  - intros found ->. split; reflexivity.
  - reflexivity.
  - intros -> Hquery Htokens Hlimit.
    rewrite (compute_results_ranked _ _ _ _ tokens Hquery Htokens Hlimit).
    exists (sort_by_score (candidates tokens (excludeIds_of options) (contents exercises))).
    split; [reflexivity |]. split; [reflexivity |].
    split; [apply sort_by_score_perm |]. split; [apply sort_by_score_sorted |].
    split; [intros n; apply sort_by_score_stable | intros entry; apply candidates_spec].
Qed.

(** C7, failing input.  On the query "constructor" the lookup of the token
    in the synonym table finds [Object.prototype.constructor], which is not
    an array, and the search throws a TypeError instead of returning a
    result: on the first render and after any renders before it, for any
    catalogue and options. *)
Theorem search_throws_on_inherited_name (history : list Render)
    (exercises : JSArray ExerciseCatalogItem)
    (options : option UseSemanticExerciseSearchOptions) :
  useSemanticExerciseSearch (rendered history) "constructor" exercises options
  = (rendered history, Throw (TypeError "synonyms.forEach is not a function")).
Proof. apply render_throws. reflexivity. Qed.

End Ranking.

(** ** The calendar *)

Section Calendar.
Local Open Scope Z_scope.

Lemma all_in_block_spec ok k : forall base,
  all_in_block ok k base = true ->
  forall x, base <= x < base + 2 ^ Z.of_nat k -> ok x = true.
Proof.
  induction k as [| k IH]; intros base Hall x Hx.
  - simpl in Hx. assert (x = base) by lia. subst. exact Hall.
  - cbn [all_in_block] in Hall. apply andb_true_iff in Hall as [Hlo Hhi].
    rewrite Nat2Z.inj_succ, Z.pow_succ_r in Hx by lia.
    destruct (Z.lt_ge_cases x (base + 2 ^ Z.of_nat k)).
    + apply (IH base Hlo). lia.
    + apply (IH _ Hhi). lia.
Qed.

Lemma era_days_checked : all_in_block era_day_ok 18 0 = true.
Proof. vm_compute. reflexivity. Qed.

Lemma era_fields_spec doe :
  0 <= doe < 146097 ->
  0 <= (era_fields doe).1.1 < 400
  /\ 1 <= (era_fields doe).1.2 <= 12
  /\ 1 <= (era_fields doe).2 <= 31
  /\ era_day (era_fields doe).1.1 (era_fields doe).1.2 (era_fields doe).2 = doe.
Proof.
  intros Hdoe.
  pose proof (all_in_block_spec era_day_ok 18 0 era_days_checked doe) as Hok.
  assert (Hrange : 0 <= doe < 0 + 2 ^ Z.of_nat 18) by (change (2 ^ Z.of_nat 18) with 262144; lia).
  specialize (Hok Hrange). unfold era_day_ok in Hok.
  destruct (Z.leb_spec 146097 doe) as [Hbig | _]; [lia |].
  destruct (era_fields doe) as [[yoe m] d]. cbn [orb fst snd] in *.
  repeat (apply andb_true_iff in Hok as [Hok ?]).
  rewrite ?Z.leb_le, ?Z.ltb_lt, ?Z.eqb_eq in *. lia.
Qed.

Lemma civil_from_days_era z :
  civil_from_days z
  = let era := (z + 719468) / 146097 in
    let '(yoe, m, d) := era_fields (z + 719468 - era * 146097) in
    (if m <=? 2 then yoe + era * 400 + 1 else yoe + era * 400, m, d).
Proof. reflexivity. Qed.

Lemma days_from_civil_era y m d era yoe :
  0 <= yoe < 400 ->
  (if m <=? 2 then y - 1 else y) = yoe + era * 400 ->
  days_from_civil y m d = era * 146097 + era_day yoe m d - 719468.
Proof.
  intros Hyoe Hy. unfold days_from_civil, era_day. rewrite Hy.
  assert (Hera : (yoe + era * 400) / 400 = era).
  { rewrite Z.div_add by lia. rewrite Z.div_small by lia. lia. }
  rewrite Hera. replace (yoe + era * 400 - era * 400) with yoe by lia. lia.
Qed.

(** The day number of the date [civil_from_days] gives is the day number
    it was given, and the date is well formed. *)
Lemma days_from_civil_of_days z :
  let '(y, m, d) := civil_from_days z in
  days_from_civil y m d = z /\ 1 <= m <= 12 /\ 1 <= d <= 31.
Proof.
  rewrite civil_from_days_era. cbv zeta.
  set (era := (z + 719468) / 146097).
  assert (Hdoe : 0 <= z + 719468 - era * 146097 < 146097).
  { unfold era. pose proof (Z.mod_pos_bound (z + 719468) 146097 ltac:(lia)) as Hm.
    rewrite Z.mod_eq in Hm by lia. lia. }
  destruct (era_fields_spec _ Hdoe) as (Hyoe & Hm & Hd & Hday).
  destruct (era_fields (z + 719468 - era * 146097)) as [[yoe m] d]. simpl in *.
  split; [| lia].
  rewrite (days_from_civil_era _ m d era yoe Hyoe).
  - rewrite Hday. lia.
  - destruct (m <=? 2); lia.
Qed.

Lemma civil_from_days_inj z1 z2 :
  civil_from_days z1 = civil_from_days z2 -> z1 = z2.
Proof.
  intros E.
  pose proof (days_from_civil_of_days z1) as H1.
  pose proof (days_from_civil_of_days z2) as H2.
  rewrite E in H1. destruct (civil_from_days z2) as [[y m] d].
  destruct H1 as [H1 _], H2 as [H2 _]. congruence.
Qed.

Lemma days_from_civil_day y m d :
  days_from_civil y m d = days_from_civil y m 1 + d - 1.
Proof. unfold days_from_civil. cbv zeta. destruct (m <=? 2), (2 <? m); ring. Qed.

Lemma setDate_local_day t n :
  local_day (setDate t n) = local_day t - getDate t + n.
Proof.
  unfold setDate, getFullYear, getMonth, getDate. cbn [local_day].
  pose proof (days_from_civil_of_days (local_day t)) as Hrt.
  destruct (civil_from_days (local_day t)) as [[y m] d]. cbn [fst snd].
  destruct Hrt as [Hrt _]. rewrite (days_from_civil_day y m d) in Hrt.
  replace (m - 1 + 1) with m by lia. lia.
Qed.

End Calendar.

(** ** The text of a local date *)

Section IsoText.

Lemma two_digits_checked : all_in_block two_digits_ok 7 0 = true.
Proof. vm_compute. reflexivity. Qed.

Lemma two_digits_spec n :
  (0 <= n < 100)%Z ->
  String.length (two_digits n) = 2 /\ decimal_value (two_digits n) = n.
Proof.
  intros Hn.
  pose proof (all_in_block_spec two_digits_ok 7 0 two_digits_checked n) as Hok.
  assert (Hrange : (0 <= n < 0 + 2 ^ Z.of_nat 7)%Z)
    by (change (2 ^ Z.of_nat 7)%Z with 128%Z; lia).
  specialize (Hok Hrange). unfold two_digits_ok in Hok.
  destruct (Z.leb_spec 100 n) as [Hbig | _]; [lia |]. cbn [orb] in Hok.
  apply andb_true_iff in Hok as [Hlen Hval].
  apply Nat.eqb_eq in Hlen. apply Z.eqb_eq in Hval. now split.
Qed.

Lemma length_append (a b : string) :
  String.length (a ++ b) = String.length a + String.length b.
Proof. induction a as [| c a IH]; simpl; [reflexivity | now rewrite IH]. Qed.

Lemma append_inj_prefix (a1 a2 b1 b2 : string) :
  String.length a1 = String.length a2 -> (a1 ++ b1 = a2 ++ b2)%string -> a1 = a2 /\ b1 = b2.
Proof.
  revert a2. induction a1 as [| c a1 IH]; intros [| c2 a2] Hlen E; simpl in *;
    try discriminate; [now split |].
  injection E as -> E. destruct (IH a2 ltac:(lia) E) as [-> ->]. now split.
Qed.

Lemma append_inj_suffix (a1 a2 b1 b2 : string) :
  String.length b1 = String.length b2 -> (a1 ++ b1 = a2 ++ b2)%string -> a1 = a2 /\ b1 = b2.
Proof.
  intros Hlen E. apply append_inj_prefix; [| exact E].
  apply (f_equal String.length) in E. rewrite !length_append in E. lia.
Qed.

Lemma month_day_length m d :
  (0 <= m < 100)%Z -> (0 <= d < 100)%Z -> String.length (month_day m d) = 6.
Proof.
  intros Hm Hd. unfold month_day.
  destruct (two_digits_spec m Hm) as [Lm _], (two_digits_spec d Hd) as [Ld _].
  change (String.length (String "-" (two_digits m ++ String "-" (two_digits d))) = 6).
  change (S (String.length (two_digits m ++ String "-" (two_digits d))) = 6).
  rewrite length_append. change (S (String.length (two_digits m) + S (String.length (two_digits d))) = 6).
  now rewrite Lm, Ld.
Qed.

Lemma month_day_inj m1 d1 m2 d2 :
  (0 <= m1 < 100)%Z -> (0 <= d1 < 100)%Z -> (0 <= m2 < 100)%Z -> (0 <= d2 < 100)%Z ->
  month_day m1 d1 = month_day m2 d2 -> m1 = m2 /\ d1 = d2.
Proof.
  intros Hm1 Hd1 Hm2 Hd2 E. unfold month_day in E.
  destruct (two_digits_spec m1 Hm1) as [Lm1 Vm1], (two_digits_spec m2 Hm2) as [Lm2 Vm2].
  destruct (two_digits_spec d1 Hd1) as [_ Vd1], (two_digits_spec d2 Hd2) as [_ Vd2].
  change (String "-" (two_digits m1 ++ String "-" (two_digits d1))
          = String "-" (two_digits m2 ++ String "-" (two_digits d2))) in E.
  injection E as E.
  apply append_inj_prefix in E as [Em E]; [| congruence].
  injection E as Ed.
  split; congruence.
Qed.

Lemma formatDateToLocalISO_valid t :
  formatDateToLocalISO (Some t)
  = (pretty (getFullYear t) ++ month_day (getMonth t + 1) (getDate t))%string.
Proof. reflexivity. Qed.

Lemma civil_fields_range t :
  (1 <= getMonth t + 1 <= 12)%Z /\ (1 <= getDate t <= 31)%Z.
Proof.
  unfold getMonth, getDate.
  pose proof (days_from_civil_of_days (local_day t)) as Hc.
  destruct (civil_from_days (local_day t)) as [[y m] d]. cbn [fst snd]. lia.
Qed.

Lemma formatDateToLocalISO_inj t1 t2 :
  formatDateToLocalISO (Some t1) = formatDateToLocalISO (Some t2) ->
  local_day t1 = local_day t2.
Proof.
  rewrite !formatDateToLocalISO_valid. intros E.
  destruct (civil_fields_range t1) as [Hm1 Hd1], (civil_fields_range t2) as [Hm2 Hd2].
  apply append_inj_suffix in E as [Ey Emd];
    [| rewrite !month_day_length by lia; reflexivity].
  apply (inj pretty) in Ey.
  apply month_day_inj in Emd as [Em Ed]; try lia.
  apply civil_from_days_inj.
  unfold getFullYear, getMonth, getDate in *.
  destruct (civil_from_days (local_day t1)) as [[y1 m1] d1],
           (civil_from_days (local_day t2)) as [[y2 m2] d2].
  cbn [fst snd] in *. f_equal; [f_equal |]; lia.
Qed.

Lemma formatDateToLocalISO_invalid t :
  formatDateToLocalISO None <> formatDateToLocalISO (Some t).
Proof.
  rewrite formatDateToLocalISO_valid. intros E.
  destruct (civil_fields_range t) as [Hm Hd].
  change (formatDateToLocalISO None) with ("NaN-N" ++ "aN-NaN")%string in E.
  apply append_inj_suffix in E as [_ Emd];
    [| rewrite month_day_length by lia; reflexivity].
  unfold month_day in Emd. discriminate Emd.
Qed.

Lemma formatDateToLocalISO_nonempty date : nonempty (formatDateToLocalISO date) = true.
Proof.
  destruct date as [t |]; [| reflexivity].
  rewrite formatDateToLocalISO_valid. unfold nonempty. apply negb_true_iff, String.eqb_neq.
  intros E. apply (f_equal String.length) in E. rewrite length_append in E.
  destruct (civil_fields_range t) as [Hm Hd].
  rewrite month_day_length in E by lia. simpl in E. lia.
Qed.

End IsoText.

(** ** The weekly tracker *)

Section Weekly.
Context `{DateGlobal}.
Import dashboard.

Lemma same_calendar_date_iff a b : same_calendar_date a b <-> local_day a = local_day b.
Proof.
  unfold same_calendar_date, getFullYear, getMonth, getDate. split.
  - intros (Hy & Hm & Hd). apply civil_from_days_inj.
    destruct (civil_from_days (local_day a)) as [[y1 m1] d1],
             (civil_from_days (local_day b)) as [[y2 m2] d2].
    cbn [fst snd] in *. f_equal; [f_equal |]; lia.
  - intros ->. repeat split.
Qed.

Lemma same_iso_iff a b :
  formatDateToLocalISO (Some a) = formatDateToLocalISO (Some b) <-> same_calendar_date a b.
Proof.
  rewrite same_calendar_date_iff. split; [apply formatDateToLocalISO_inj |].
  intros E. rewrite !formatDateToLocalISO_valid.
  unfold getFullYear, getMonth, getDate. now rewrite E.
Qed.

Lemma getWorkoutLocalISO_date workout :
  getWorkoutLocalISO workout = formatDateToLocalISO <$> workout_date workout.
Proof.
  unfold getWorkoutLocalISO, workout_date.
  destruct (truthy (own "startTime" workout)); [reflexivity |].
  destruct (truthy (own "date" workout)); reflexivity.
Qed.

Lemma getWorkoutLocalISO_logged_on workout day :
  getWorkoutLocalISO workout = Some (formatDateToLocalISO (Some day)) <-> logged_on workout day.
Proof.
  rewrite getWorkoutLocalISO_date. unfold logged_on. split.
  - destruct (workout_date workout) as [[t |] |]; simpl; intros E; try discriminate.
    + injection E as E. exists t. split; [reflexivity | now apply same_iso_iff].
    + injection E as E. now apply formatDateToLocalISO_invalid in E.
  - intros (t & -> & Hsame). simpl. f_equal. now apply same_iso_iff.
Qed.

Lemma workoutDates_has iso (workouts : list Workout) : forall workoutDates,
  nonempty iso = true ->
  set_has iso (fold_left add_workout_date workouts workoutDates) = true <->
  set_has iso workoutDates = true
  \/ exists workout, In workout workouts /\ getWorkoutLocalISO workout = Some iso.
Proof.
  induction workouts as [| workout rest IH]; intros workoutDates Hne; simpl.
  - split; [now left | intros [? | (w & [] & _)]; assumption].
  - rewrite (IH _ Hne). unfold add_workout_date at 1.
    destruct (getWorkoutLocalISO workout) as [workoutISO |] eqn:Eiso.
    + destruct (nonempty workoutISO) eqn:Ene.
      * rewrite set_has_add, orb_true_iff, String.eqb_eq. split.
        -- intros [[Hacc | ->] | (w & Hw & Hiso)]; [now left | right | right].
           ++ exists workout. split; [now left | exact Eiso].
           ++ exists w. split; [now right | exact Hiso].
        -- intros [Hacc | (w & [<- | Hw] & Hiso)].
           ++ left. now left.
           ++ left. right. congruence.
           ++ right. exists w. now split.
      * split.
        -- intros [Hacc | (w & Hw & Hiso)]; [now left | right].
           exists w. split; [now right | exact Hiso].
        -- intros [Hacc | (w & [<- | Hw] & Hiso)]; [now left | | right].
           ++ rewrite Eiso in Hiso. injection Hiso as ->. congruence.
           ++ exists w. now split.
    + split.
      * intros [Hacc | (w & Hw & Hiso)]; [now left | right].
        exists w. split; [now right | exact Hiso].
      * intros [Hacc | (w & [<- | Hw] & Hiso)]; [now left | congruence | right].
        exists w. now split.
Qed.

Lemma getDay_range t : (0 <= getDay t <= 6)%Z.
Proof. unfold getDay. pose proof (Z.mod_pos_bound (local_day t + 4) 7 ltac:(lia)). lia. Qed.

Lemma startOfWeek_local_day today :
  local_day (startOfWeek today) = (local_day today - getDay today)%Z.
Proof.
  unfold startOfWeek. rewrite setDate_local_day.
  change (local_day (setHours0 today)) with (local_day today).
  change (getDate (setHours0 today)) with (getDate today). lia.
Qed.

Lemma dayDate_local_day today index :
  local_day (dayDate today index) = (local_day today - getDay today + Z.of_nat index)%Z.
Proof. unfold dayDate. rewrite setDate_local_day, startOfWeek_local_day. lia. Qed.

Lemma dayDate_getDay today index :
  index < 7 -> getDay (dayDate today index) = Z.of_nat index.
Proof.
  intros Hi. unfold getDay at 1. rewrite dayDate_local_day. unfold getDay.
  pose proof (Z.mod_pos_bound (local_day today + 4) 7 ltac:(lia)) as Hm.
  pose proof (Z.div_mod (local_day today + 4) 7 ltac:(lia)) as Hdm.
  replace (local_day today - (local_day today + 4) mod 7 + Z.of_nat index + 4)%Z
    with (Z.of_nat index + ((local_day today + 4) / 7) * 7)%Z by lia.
  rewrite Z.mod_add by lia. apply Z.mod_small. lia.
Qed.

Lemma filter_none {A} (p : A -> bool) (xs : list A) :
  (forall x, In x xs -> p x = false) -> List.filter p xs = [].
Proof.
  induction xs as [| x rest IH]; intros Hall; simpl; [reflexivity |].
  rewrite (Hall x (or_introl eq_refl)). apply IH. intros y Hy. apply Hall. now right.
Qed.

Lemma filter_single {A} (p : A -> bool) (xs : list A) : forall k,
  k < List.length xs ->
  (forall i x, xs !! i = Some x -> p x = true <-> i = k) ->
  List.length (List.filter p xs) = 1.
Proof.
  induction xs as [| x rest IH]; intros k Hk Hone; simpl in *; [lia |].
  destruct k as [| k].
  - assert (Hx : p x = true) by (now apply (Hone 0 x)).
    rewrite Hx. simpl. rewrite filter_none; [reflexivity |].
    intros y Hy. apply list_elem_of_In, list_elem_of_lookup in Hy as [i Hi].
    apply not_true_is_false. intros Hp. apply (Hone (S i) y Hi) in Hp. discriminate.
  - assert (Hx : p x = false).
    { apply not_true_is_false. intros Hp. apply (Hone 0 x eq_refl) in Hp. discriminate. }
    rewrite Hx. apply (IH k); [lia |].
    intros i y Hi. rewrite (Hone (S i) y Hi). lia.
Qed.

(** C8.  For every "today" and every sequence of workouts, the weekly
    tracker returns seven descriptors labelled Sun to Sat; the date of the
    descriptor at index i is the day of the week i in the week of today
    (today's local day, less today's day of the week, plus i), and the
    descriptor carries it: its [id] is the local ISO text of that date, a
    dash and its label in lower case, and its [date] is the day of the month
    of that date.  Exactly one descriptor has [isToday], the one on today's
    calendar date; and a descriptor has [hasWorkout] exactly when some
    workout has a valid date whose local year, month and day are those of
    the descriptor's date. *)
Theorem week_tracker_descriptors (today : DateTime) (workouts : list Workout) :
  let week := createWeekTracker today workouts in
  List.length week = 7
  /\ map label week = ["Sun"; "Mon"; "Tue"; "Wed"; "Thu"; "Fri"; "Sat"]
  /\ (forall index, index < 7 ->
        getDay (dayDate today index) = Z.of_nat index
        /\ local_day (dayDate today index)
           = (local_day today - getDay today + Z.of_nat index)%Z)
  /\ (0 <= getDay today <= 6)%Z
  /\ List.length (List.filter isToday week) = 1
  /\ (forall index descriptor,
        week !! index = Some descriptor ->
        tracker_id descriptor
        = (formatDateToLocalISO (Some (dayDate today index)) ++ "-"
           ++ toLowerCase (label descriptor))%string
        /\ date_label descriptor = pretty (getDate (dayDate today index))
        /\ (isToday descriptor = true <-> same_calendar_date (dayDate today index) today)
        /\ (hasWorkout descriptor = true <->
            exists workout, In workout workouts /\ logged_on workout (dayDate today index))).
Proof.
  cbv zeta.
  assert (Hdesc : forall index descriptor,
            createWeekTracker today workouts !! index = Some descriptor ->
            index < 7
            /\ tracker_id descriptor
               = (formatDateToLocalISO (Some (dayDate today index)) ++ "-"
                  ++ toLowerCase (label descriptor))%string
            /\ date_label descriptor = pretty (getDate (dayDate today index))
            /\ isToday descriptor
               = String.eqb (formatDateToLocalISO (Some (dayDate today index)))
                            (formatDateToLocalISO (Some today))
            /\ hasWorkout descriptor
               = set_has (formatDateToLocalISO (Some (dayDate today index)))
                         (fold_left add_workout_date workouts [])).
  { intros index descriptor Hat. unfold createWeekTracker in Hat.
    rewrite list_lookup_imap in Hat.
    destruct (dayLabels !! index) as [lbl |] eqn:Elbl; [| discriminate].
    apply lookup_lt_Some in Elbl.
    cbv [fmap option_fmap option_map] in Hat. apply (inj Some) in Hat. subst descriptor.
    split; [exact Elbl | repeat split]. }
  assert (Htoday : forall index descriptor,
            createWeekTracker today workouts !! index = Some descriptor ->
            isToday descriptor = true <-> same_calendar_date (dayDate today index) today).
  { intros index descriptor Hat. destruct (Hdesc _ _ Hat) as (_ & _ & _ & -> & _).
    rewrite String.eqb_eq. apply same_iso_iff. }
  assert (Hlen : List.length (createWeekTracker today workouts) = 7)
    by (unfold createWeekTracker; now rewrite length_imap).
  split; [exact Hlen |].
  split; [unfold createWeekTracker, dayLabels; cbn [imap map label]; reflexivity |].
  split; [intros index Hi; split; [now apply dayDate_getDay | apply dayDate_local_day] |].
  split; [apply getDay_range |].
  split.
  - pose proof (getDay_range today) as Hg.
    apply (filter_single _ _ (Z.to_nat (getDay today))); [rewrite Hlen; lia |].
    intros index descriptor Hat. rewrite (Htoday _ _ Hat), same_calendar_date_iff.
    rewrite dayDate_local_day. lia.
  - intros index descriptor Hat.
    destruct (Hdesc _ _ Hat) as (_ & Hid & Hdate & _ & Hhas).
    split; [exact Hid |]. split; [exact Hdate |]. split; [now apply Htoday |].
    rewrite Hhas.
    rewrite workoutDates_has by apply formatDateToLocalISO_nonempty.
    split.
    + intros [Hacc | (workout & Hin & Hiso)]; [discriminate |].
      exists workout. split; [exact Hin | now apply getWorkoutLocalISO_logged_on].
    + intros (workout & Hin & Hlogged). right.
      exists workout. split; [exact Hin | now apply getWorkoutLocalISO_logged_on].
Qed.

End Weekly.

(** ** Saving a plan to storage *)

Section SavePlan.
Context `{JSONGlobal}.
Import storage.

Lemma filterC_other_id plan stored :
  Forall (fun v => not_null v = true) stored ->
  filterC (other_id plan) stored = Normal (other_plans plan stored).
Proof.
  induction 1 as [| existing rest Hnn _ IH]; [reflexivity |].
  simpl. rewrite IH. destruct existing; try discriminate; reflexivity.
Qed.

Lemma other_plans_have_ids plan stored :
  Forall (fun v => has_id v = true) stored ->
  List.filter has_id (other_plans plan stored) = other_plans plan stored.
Proof.
  intros Hall. unfold other_plans.
  induction Hall as [| existing rest Hid _ IH]; [reflexivity |].
  simpl. destruct (negb _); simpl; [rewrite Hid |]; now rewrite IH.
Qed.

Lemma decoded_have_ids value : Forall (fun v => has_id v = true) (decoded value).
Proof.
  unfold decoded. destruct value as [text |]; [| constructor].
  destruct (String.eqb text ""); [constructor |].
  destruct (JSON_parse text) as [[| | | | parsed |] |]; try constructor.
  apply List.Forall_forall. intros v Hv. now apply filter_In in Hv.
Qed.

Lemma run_savePlan plan s d :
  canUseAsyncStorage (host s) = true ->
  write_fault d = false ->
  let stored := if read_fault d then [] else decoded (slots d !! PLANS_STORAGE_KEY) in
  exists s',
    run (savePlan plan s) d
    = (s', written PLANS_STORAGE_KEY (serializePlans (other_plans plan stored ++ [JObj plan])) d,
       Normal tt)
    /\ host s' = host s.
Proof.
  intros Hcan Hw. cbv zeta. unfold savePlan.
  rewrite run_bind. unfold get at 1. simpl run at 1. cbv beta iota. rewrite Hcan. cbn [negb].
  rewrite run_try_catch, run_bind.
  unfold console_log at 1, modify at 1. simpl run at 1. cbv beta iota.
  rewrite run_bind.
  destruct (getPlans_loads (emit LLog "[storage.savePlan] CALLED WITH:" s) d)
    as (s1 & -> & _ & _ & Hhost).
  unfold readable. simpl host. rewrite Hcan. simpl andb.
  set (stored := if negb (read_fault d) then _ else _).
  assert (Hstored : stored = if read_fault d then [] else decoded (slots d !! PLANS_STORAGE_KEY))
    by (unfold stored; now destruct (read_fault d)).
  assert (Hnn : Forall (fun v => not_null v = true) stored).
  { rewrite Hstored. destruct (read_fault d); [constructor | apply decoded_not_null]. }
  rewrite run_bind. unfold lift at 1. simpl run at 1. cbv beta iota.
  rewrite (filterC_other_id plan stored Hnn).
  rewrite run_bind. unfold await at 1. simpl run at 1. unfold perform. rewrite Hw.
  simpl run at 1. cbv beta iota.
  unfold console_log, modify. simpl run.
  rewrite <- Hstored. unfold written. rewrite Hw.
  eexists. split; [reflexivity |]. simpl. exact Hhost.
Qed.

(** C10.  Where storage is usable and accepts the write, [savePlan] writes
    to the plans slot the collection [getPlans] returns with every plan whose
    id is the saved plan's removed, followed by the saved plan: the saved
    plan is last, a stored plan with its id is gone from its former place,
    and the other plans keep their order.  Read back through a JSON codec
    that round-trips the payload, the slot gives exactly that collection
    when the saved plan has an id. *)
Theorem savePlan_moves_plan_to_end (plan : JSObject) (s : App) (d : Device) :
  canUseAsyncStorage (host s) = true ->
  write_fault d = false ->
  let stored := if read_fault d then [] else decoded (slots d !! PLANS_STORAGE_KEY) in
  let updated := other_plans plan stored ++ [JObj plan] in
  let outcome := run (savePlan plan s) d in
  (run (getPlans s) d).2 = Normal stored
  /\ outcome.2 = Normal tt
  /\ slots outcome.1.2 = <[PLANS_STORAGE_KEY := JSON_stringify (JArr updated)]> (slots d)
  /\ last updated = Some (JObj plan)
  /\ Forall (fun existing => strict_eq (opt_member existing "id") (own "id" plan) = false)
            (other_plans plan stored)
  /\ (read_fault d = false ->
      JSON_parse "" = None ->
      JSON_parse (JSON_stringify (JArr updated)) = Some (JArr updated) ->
      has_id (JObj plan) = true ->
      (run (getPlans outcome.1.1) outcome.1.2).2 = Normal updated).
Proof.
  intros Hcan Hw. cbv zeta.
  destruct (run_savePlan plan s d Hcan Hw) as (s' & Hrun & Hhost). cbv zeta in Hrun.
  rewrite Hrun. cbn [fst snd].
  split; [| split; [reflexivity | split; [reflexivity | split; [| split]]]].
  - destruct (getPlans_loads s d) as (s0 & -> & _). unfold readable. rewrite Hcan.
    now destruct (read_fault d).
  - apply last_snoc.
  - unfold other_plans. apply List.Forall_forall. intros existing Hin.
    apply filter_In in Hin as [_ Hne]. now apply negb_true_iff in Hne.
  - intros Hr Hempty Hrt Hid. rewrite Hr in *.
    destruct (getPlans_loads s'
                (written PLANS_STORAGE_KEY
                   (serializePlans (other_plans plan (decoded (slots d !! PLANS_STORAGE_KEY))
                                    ++ [JObj plan])) d)) as (s2 & -> & _).
    unfold readable. rewrite Hhost, Hcan. simpl. rewrite Hr. simpl.
    rewrite lookup_insert_eq. unfold serializePlans.
    rewrite (decoded_stringify _ Hempty Hrt).
    rewrite List.filter_app, other_plans_have_ids by apply decoded_have_ids.
    simpl. now rewrite Hid.
Qed.

End SavePlan.

(** ** The plan-save handlers *)

Section PlanSave.
Context `{JSONGlobal}.
Import storage planSave usePlanSaveHandler usePlanBuilder.

Lemma run_savePlan_unavailable plan s d :
  canUseAsyncStorage (host s) = false ->
  exists s', run (savePlan plan s) d = (s', d, Normal tt).
Proof.
  intros Hcan. unfold savePlan, warnAsyncStorageUnavailable. task_unfold. simpl.
  rewrite Hcan. simpl. eauto.
Qed.

Lemma run_savePlan_rejected plan s d :
  persistence_fails s d ->
  exists s' e, run (savePlan plan s) d = (s', d, Throw e).
Proof.
  intros [Hcan Hw]. unfold savePlan.
  rewrite run_bind. unfold get at 1. simpl run at 1. cbv beta iota. rewrite Hcan. cbn [negb].
  rewrite run_try_catch, run_bind.
  unfold console_log at 1, modify at 1. simpl run at 1. cbv beta iota.
  rewrite run_bind.
  destruct (getPlans_loads (emit LLog "[storage.savePlan] CALLED WITH:" s) d)
    as (s1 & -> & _).
  rewrite run_bind. unfold lift at 1. simpl run at 1. cbv beta iota.
  destruct (filterC _ _) as [filtered | e].
  - rewrite run_bind. unfold await at 1. simpl run at 1. unfold perform. rewrite Hw.
    simpl run at 1. cbv beta iota.
    unfold console_error, logError, console_error, modify, throw, bind. simpl. eauto.
  - unfold console_error, logError, console_error, modify, throw, bind. simpl. eauto.
Qed.

Lemma run_savePlan_cases plan s d :
  exists s' d' r, run (savePlan plan s) d = (s', d', r)
    /\ (persistence_fails s d -> exists e, r = Throw e)
    /\ (~ persistence_fails s d -> r = Normal tt).
Proof.
  destruct (canUseAsyncStorage (host s)) eqn:Hcan.
  - destruct (write_fault d) eqn:Hw.
    + destruct (run_savePlan_rejected plan s d (conj Hcan Hw)) as (s' & e & ->).
      exists s', d, (Throw e). split; [reflexivity |]. split; [eauto |].
      intros Hnot. destruct Hnot. now split.
    + destruct (run_savePlan plan s d Hcan Hw) as (s' & Hrun & _). cbv zeta in Hrun.
      rewrite Hrun. do 3 eexists. split; [reflexivity |]. split; [| reflexivity].
      intros [_ Hbad]. congruence.
  - destruct (run_savePlan_unavailable plan s d Hcan) as (s' & ->).
    exists s', d, (Normal tt). split; [reflexivity |]. split; [| reflexivity].
    intros [Hbad _]. congruence.
Qed.



Lemma after_save_tail c p (s : App) (d : Device) :
  run ((lift (Haptics_notificationAsync c) ;;
        (if match editingPlanId p with Some id => nonempty id | None => false end
         then ret tt else lift (resetBuilder p)) ;;
        match onSuccess p with
        | Some callback => lift callback
        | None => ret tt
        end ;;
        ret success)%task s) d
  = match after_save c p with
    | Normal _ => (s, d, Normal success)
    | Throw e => (s, d, Throw e)
    end.
Proof.
  unfold after_save. rewrite run_lift_bind.
  destruct (Haptics_notificationAsync c) as [[] | e]; [| reflexivity].
  cbn [cbind]. rewrite run_bind.
  destruct (match editingPlanId p with Some id => nonempty id | None => false end).
  - unfold ret at 1. rewrite run_Done. cbv beta iota. cbn [cbind].
    rewrite run_bind.
    destruct (onSuccess p) as [callback |].
    + unfold lift at 1. rewrite run_Done. destruct callback as [[] | e]; reflexivity.
    + reflexivity.
  - unfold lift at 1. rewrite run_Done.
    destruct (resetBuilder p) as [[] | e]; [| reflexivity].
    cbv beta iota. cbn [cbind]. rewrite run_bind.
    destruct (onSuccess p) as [callback |].
    + unfold lift at 1. rewrite run_Done. destruct callback as [[] | e]; reflexivity.
    + reflexivity.
Qed.

Lemma run_handleSavePlan_plan iso c p s d :
  accepted p ->
  is_time_value (default (Date_now c) (editingPlanCreatedAt p)) = true ->
  run (handleSavePlan iso c p s) d
  = match run (savePlan (saved_plan iso c p) (set_isSaving true s)) d with
    | (s1, d1, Normal _) => after_savePlan c p s1 d1
    | (s1, d1, Throw _) =>
        (set_isSaving false (emit LError "[usePlanSaveHandler] Failed to save plan" s1),
         d1, Normal error)
    end.
Proof.
  intros (Hname & Hex & Hsaving) Htime. unfold handleSavePlan.
  destruct (String.eqb_spec (trim (planName p)) "") as [E | _]; [contradiction |].
  assert (Hlen : (List.length (selectedExercises p) =? 0)%nat = false)
    by (destruct (selectedExercises p); [contradiction | reflexivity]).
  rewrite Hlen, Hsaving.
  rewrite run_bind. unfold modify at 1. rewrite run_Done. cbv beta iota zeta.
  rewrite run_lift_bind. unfold toISOString. rewrite Htime.
  rewrite run_try_finally, run_try_catch, run_bind.
  fold (saved_plan iso c p).
  destruct (run (savePlan _ (set_isSaving true s)) d) as [[s1 d1] r1].
  destruct r1 as [[] | e]; [| reflexivity].
  rewrite run_bind. unfold after_savePlan.
  fold (plans_store_call c p).
  destruct (run (plans_store_call c p s1) d1) as [[s2 d2] r2].
  destruct r2 as [[] | e]; [| reflexivity].
  rewrite after_save_tail. now destruct (after_save c p) as [[] | e].
Qed.

Lemma after_savePlan_result c p s1 d1 :
  (after_savePlan c p s1 d1).2
  = match (run (plans_store_call c p s1) d1).2, after_save c p with
    | Normal _, Normal _ => Normal success
    | _, _ => Normal error
    end
  /\ (after_savePlan c p s1 d1).1.2 = (run (plans_store_call c p s1) d1).1.2
  /\ isSaving (after_savePlan c p s1 d1).1.1 = false.
Proof.
  unfold after_savePlan.
  destruct (run (plans_store_call c p s1) d1) as [[s2 d2] [[] | e]]; [| repeat split].
  now destruct (after_save c p) as [[] | e].
Qed.

Lemma run_handleSavePlan iso c p s d :
  accepted p ->
  is_time_value (default (Date_now c) (editingPlanCreatedAt p)) = true ->
  exists s1 d1 r1,
    run (savePlan (saved_plan iso c p) (set_isSaving true s)) d = (s1, d1, r1)
    /\ (persistence_fails s d -> exists e, r1 = Throw e)
    /\ (~ persistence_fails s d -> r1 = Normal tt)
    /\ run (handleSavePlan iso c p s) d
       = match r1 with
         | Normal _ => after_savePlan c p s1 d1
         | Throw _ =>
             (set_isSaving false
                (emit LError "[usePlanSaveHandler] Failed to save plan" s1),
              d1, Normal error)
         end.
Proof.
  intros Hacc Htime. rewrite (run_handleSavePlan_plan iso c p s d Hacc Htime).
  destruct (run_savePlan_cases (saved_plan iso c p) (set_isSaving true s) d)
    as (s1 & d1 & r1 & Hrun & Hfail & Hok).
  exists s1, d1, r1. rewrite Hrun.
  split; [reflexivity |]. split; [exact Hfail |]. split; [exact Hok |].
  now destruct r1.
Qed.

Lemma run_handleSavePlan_invalid_time iso c p s d :
  accepted p ->
  is_time_value (default (Date_now c) (editingPlanCreatedAt p)) = false ->
  run (handleSavePlan iso c p s) d
  = (set_isSaving true s, d, Throw (RangeError "Invalid time value")).
Proof.
  intros (Hname & Hex & Hsaving) Htime. unfold handleSavePlan.
  destruct (String.eqb_spec (trim (planName p)) "") as [E | _]; [contradiction |].
  destruct (selectedExercises p) as [| exercise rest] eqn:Esel; [contradiction |].
  cbn [List.length Nat.eqb]. rewrite Hsaving.
  rewrite run_bind. unfold modify at 1. rewrite run_Done. cbv beta iota zeta.
  rewrite run_lift_bind. unfold toISOString. now rewrite Htime.
Qed.

Lemma run_submitPlan iso c planName selected s d :
  trim planName <> "" ->
  selected <> [] ->
  exists payload s0 s1 d1 r1,
    host s0 = host s
    /\ run (savePlan payload s0) d = (s1, d1, r1)
    /\ run (submitPlan iso c planName selected s) d
       = match r1, Haptics_notificationAsync c with
         | Normal _, Normal _ => (set_isSaving false s1, d1, Normal success)
         | _, _ =>
             (set_isSaving false (emit LError "[usePlanBuilder] failed to save plan" s1),
              d1, Normal error)
         end.
Proof.
  intros Hname Hsel. unfold submitPlan.
  rewrite run_bind. unfold console_log at 1, modify at 1. rewrite run_Done. cbv beta iota.
  destruct (String.eqb_spec (trim planName) "") as [E | _]; [contradiction |].
  destruct selected as [| exercise rest]; [contradiction |].
  cbn [List.length Nat.eqb].
  rewrite run_bind. unfold modify at 1. rewrite run_Done. cbv beta iota zeta.
  rewrite run_try_finally, run_try_catch, run_bind.
  unfold console_log at 1, modify at 1. rewrite run_Done. cbv beta iota.
  rewrite run_bind.
  set (payload := WorkoutPlan_object _ _ _ _).
  set (s0 := emit LLog "[usePlanBuilder] Calling savePlan with:" _).
  destruct (run (savePlan payload s0) d) as [[s1 d1] r1] eqn:Hrun.
  exists payload, s0, s1, d1, r1.
  split; [reflexivity |]. split; [exact Hrun |].
  destruct r1 as [[] | e]; [| reflexivity].
  rewrite run_lift_bind. destruct (Haptics_notificationAsync c) as [[] | e]; reflexivity.
Qed.

(** C9, failing input.  [handleSavePlan] builds [createdAt] with
    [new Date(createdAtTimestamp).toISOString()] before its [try] block:
    when the inputs are accepted and the creation time of the plan under
    edit is not a valid time value, the call throws a RangeError instead of
    returning a result, writes nothing, and leaves [isSaving] raised. *)
Theorem handleSavePlan_throws_on_invalid_time (iso : Z -> string) (c : Collaborators)
    (p : UsePlanSaveHandlerParams) (s : App) (d : Device) :
  accepted p ->
  is_time_value (default (Date_now c) (editingPlanCreatedAt p)) = false ->
  run (handleSavePlan iso c p s) d
  = (set_isSaving true s, d, Throw (RangeError "Invalid time value"))
  /\ isSaving (run (handleSavePlan iso c p s) d).1.1 = true.
Proof.
  intros Hacc Htime. rewrite (run_handleSavePlan_invalid_time iso c p s d Hacc Htime).
  split; reflexivity.
Qed.

(** X30.  [handleSavePlan] and [submitPlan] report a result value.  When
    the trimmed name is empty each finishes at once with 'missing-name', and
    when the name is there but no exercise is selected with 'no-exercises',
    in both cases without a storage call.  Run to the end [submitPlan]
    returns one of the four results and never throws, and so does
    [handleSavePlan] when the creation time is a valid time value.  When the
    inputs are accepted the result is 'error' if the storage write is
    rejected, and 'success' if it is not and the calls that follow the save
    complete (for [handleSavePlan]: the call into the plans store, the
    haptic notification, [resetBuilder] and [onSuccess]). *)
Theorem plan_save_reports_result (iso : Z -> string) (c : Collaborators)
    (p : UsePlanSaveHandlerParams) (name : string) (selected : list PlanExercise)
    (s : App) (d : Device) :
  (trim (planName p) = "" -> handleSavePlan iso c p s = Done s (Normal missing_name))
  /\ (trim (planName p) <> "" -> selectedExercises p = [] ->
      handleSavePlan iso c p s = Done s (Normal no_exercises))
  /\ (is_time_value (default (Date_now c) (editingPlanCreatedAt p)) = true ->
      (exists result, (run (handleSavePlan iso c p s) d).2 = Normal result)
      /\ (accepted p -> persistence_fails s d ->
          (run (handleSavePlan iso c p s) d).2 = Normal error)
      /\ (accepted p -> ~ persistence_fails s d ->
          (forall s1 d1, (run (plans_store_call c p s1) d1).2 = Normal tt) ->
          after_save c p = Normal tt ->
          (run (handleSavePlan iso c p s) d).2 = Normal success))
  /\ (trim name = "" ->
      exists s', submitPlan iso c name selected s = Done s' (Normal missing_name))
  /\ (trim name <> "" -> selected = [] ->
      exists s', submitPlan iso c name selected s = Done s' (Normal no_exercises))
  /\ (exists result, (run (submitPlan iso c name selected s) d).2 = Normal result)
  /\ (trim name <> "" -> selected <> [] -> persistence_fails s d ->
      (run (submitPlan iso c name selected s) d).2 = Normal error)
  /\ (trim name <> "" -> selected <> [] -> ~ persistence_fails s d ->
      Haptics_notificationAsync c = Normal tt ->
      (run (submitPlan iso c name selected s) d).2 = Normal success).
Proof.
  assert (Hmissing : trim (planName p) = "" ->
            handleSavePlan iso c p s = Done s (Normal missing_name)).
  { intros E. unfold handleSavePlan. now rewrite E. }
  assert (Hnone : trim (planName p) <> "" -> selectedExercises p = [] ->
            handleSavePlan iso c p s = Done s (Normal no_exercises)).
  { intros Hne E. unfold handleSavePlan.
    destruct (String.eqb_spec (trim (planName p)) "") as [E' | _]; [contradiction |].
    now rewrite E. }
  assert (Hmissing' : trim name = "" ->
            exists s', submitPlan iso c name selected s = Done s' (Normal missing_name)).
  { intros E. unfold submitPlan, bind, console_log, modify, ret. simpl.
    rewrite E. simpl. eauto. }
  assert (Hnone' : trim name <> "" -> selected = [] ->
            exists s', submitPlan iso c name selected s = Done s' (Normal no_exercises)).
  { intros Hne E. unfold submitPlan, bind, console_log, modify, ret. simpl.
    destruct (String.eqb_spec (trim name) "") as [E' | _]; [contradiction |].
    rewrite E. simpl. eauto. }
  split; [exact Hmissing |]. split; [exact Hnone |].
  split; [| split; [exact Hmissing' | split; [exact Hnone' |]]].
  - intros Htime.
    assert (Hmain : accepted p ->
              exists s1 d1 r1,
                (persistence_fails s d -> exists e, r1 = Throw e)
                /\ (~ persistence_fails s d -> r1 = Normal tt)
                /\ (run (handleSavePlan iso c p s) d).2
                   = match r1, (run (plans_store_call c p s1) d1).2, after_save c p with
                     | Normal _, Normal _, Normal _ => Normal success
                     | _, _, _ => Normal error
                     end).
    { intros Hacc.
      destruct (run_handleSavePlan iso c p s d Hacc Htime)
        as (s1 & d1 & r1 & _ & Hfail & Hok & ->).
      exists s1, d1, r1. split; [exact Hfail |]. split; [exact Hok |].
      destruct r1 as [[] | e]; [| reflexivity].
      now destruct (after_savePlan_result c p s1 d1) as (-> & _). }
    split; [| split].
    + destruct (String.eqb_spec (trim (planName p)) "") as [E | Hne].
      { rewrite (Hmissing E). simpl. eauto. }
      destruct (selectedExercises p) as [| exercise rest] eqn:Esel.
      { rewrite (Hnone Hne eq_refl). simpl. eauto. }
      destruct (closed_isSaving p) eqn:Esaving.
      { unfold handleSavePlan.
        destruct (String.eqb_spec (trim (planName p)) "") as [E' | _]; [contradiction |].
        rewrite Esel, Esaving. simpl. eauto. }
      destruct Hmain as (s1 & d1 & r1 & _ & _ & ->).
      { repeat split; [exact Hne | now rewrite Esel | exact Esaving]. }
      destruct r1 as [[] | e]; [| eauto].
      destruct (run (plans_store_call c p s1) d1).2 as [[] | e]; [| eauto].
      destruct (after_save c p) as [[] | e]; eauto.
    + intros Hacc Hfail. destruct (Hmain Hacc) as (s1 & d1 & r1 & Hf & _ & ->).
      now destruct (Hf Hfail) as [e ->].
    + intros Hacc Hok Hstore Hafter. destruct (Hmain Hacc) as (s1 & d1 & r1 & _ & Ho & ->).
      now rewrite (Ho Hok), Hstore, Hafter.
  - assert (Hmain : trim name <> "" -> selected <> [] ->
              exists r1,
                (persistence_fails s d -> exists e, r1 = Throw e)
                /\ (~ persistence_fails s d -> r1 = Normal tt)
                /\ (run (submitPlan iso c name selected s) d).2
                   = match r1, Haptics_notificationAsync c with
                     | Normal _, Normal _ => Normal success
                     | _, _ => Normal error
                     end).
    { intros Hne Hsel.
      destruct (run_submitPlan iso c name selected s d Hne Hsel)
        as (payload & s0 & s1 & d1 & r1 & Hhost & Hrun & ->).
      destruct (run_savePlan_cases payload s0 d) as (s1' & d1' & r1' & Hrun' & Hfail & Hok).
      rewrite Hrun in Hrun'. injection Hrun' as <- <- <-.
      unfold persistence_fails in *. rewrite Hhost in *.
      exists r1. split; [exact Hfail |]. split; [exact Hok |].
      destruct r1 as [[] | e]; [| reflexivity].
      now destruct (Haptics_notificationAsync c) as [[] | e]. }
    split; [| split].
    + destruct (String.eqb_spec (trim name) "") as [E | Hne].
      { destruct (Hmissing' E) as [s' ->]. simpl. eauto. }
      destruct selected as [| exercise rest] eqn:Esel.
      { destruct (Hnone' Hne eq_refl) as [s' ->]. simpl. eauto. }
      destruct (Hmain Hne ltac:(discriminate)) as (r1 & _ & _ & ->).
      destruct r1 as [[] | e]; [| eauto].
      destruct (Haptics_notificationAsync c) as [[] | e]; eauto.
    + intros Hne Hsel Hfail. destruct (Hmain Hne Hsel) as (r1 & Hf & _ & ->).
      now destruct (Hf Hfail) as [e ->].
    + intros Hne Hsel Hok Hhap. destruct (Hmain Hne Hsel) as (r1 & _ & Ho & ->).
      now rewrite (Ho Hok), Hhap.
Qed.

End PlanSave.

(** ** Plans and sign-up drafts in storage *)

Section StorageMore.
Context `{JSONGlobal}.
Import storage authEmail.

Lemma filterC_not_id id stored :
  Forall (fun v => not_null v = true) stored ->
  filterC (not_id id) stored = Normal (plans_without id stored).
Proof.
  induction 1 as [| existing rest Hnn _ IH]; [reflexivity |].
  simpl. rewrite IH. destruct existing; try discriminate; reflexivity.
Qed.

Lemma plans_without_have_ids id stored :
  Forall (fun v => has_id v = true) stored ->
  List.filter has_id (plans_without id stored) = plans_without id stored.
Proof.
  intros Hall. unfold plans_without.
  induction Hall as [| existing rest Hid _ IH]; [reflexivity |].
  simpl. destruct (negb _); simpl; [rewrite Hid |]; now rewrite IH.
Qed.

Lemma run_deletePlan id s d :
  canUseAsyncStorage (host s) = true ->
  let stored := if read_fault d then [] else decoded (slots d !! PLANS_STORAGE_KEY) in
  exists s',
    run (deletePlan id s) d
    = (if write_fault d
       then (emit LError "[storage] Failed to delete plan" s', d,
             Throw (Error "Unable to delete plan"))
       else (s', written PLANS_STORAGE_KEY (serializePlans (plans_without id stored)) d,
             Normal tt))
    /\ host s' = host s /\ schedules s' = schedules s /\ workouts s' = workouts s.
Proof.
  intros Hcan. cbv zeta. unfold deletePlan.
  rewrite run_bind. unfold get at 1. rewrite run_Done. cbv beta iota. rewrite Hcan. cbn [negb].
  rewrite run_try_catch, run_bind.
  destruct (getPlans_loads s d) as (s1 & -> & Hs & Hw & Hhost).
  unfold readable. rewrite Hcan. simpl andb.
  set (stored := if negb (read_fault d) then _ else _).
  assert (Hstored : stored = if read_fault d then [] else decoded (slots d !! PLANS_STORAGE_KEY))
    by (unfold stored; now destruct (read_fault d)).
  assert (Hnn : Forall (fun v => not_null v = true) stored).
  { rewrite Hstored. destruct (read_fault d); [constructor | apply decoded_not_null]. }
  rewrite run_lift_bind, (filterC_not_id id stored Hnn).
  rewrite run_bind. unfold await at 1. simpl run at 1. unfold perform.
  rewrite <- Hstored.
  exists s1. destruct (write_fault d) eqn:Hwf.
  - rewrite run_Done. unfold logError, console_error, modify, throw, bind. simpl. auto.
  - rewrite run_Done. unfold ret. rewrite run_Done. unfold written. rewrite Hwf. auto.
Qed.

(** X2.  Where storage is usable and accepts the write, [deletePlan id]
    completes normally and writes to the plans slot the collection
    [getPlans] returns without the plans whose id is the string [id], the
    other plans keeping their order (when the read is rejected, that
    collection is empty and the slot is overwritten with an empty list).
    Read back through a JSON codec that round-trips the payload, the slot
    gives exactly the plans kept. *)
Theorem deletePlan_removes_plan (id : string) (s : App) (d : Device) :
  canUseAsyncStorage (host s) = true ->
  write_fault d = false ->
  let stored := if read_fault d then [] else decoded (slots d !! PLANS_STORAGE_KEY) in
  let kept := plans_without id stored in
  let outcome := run (deletePlan id s) d in
  outcome.2 = Normal tt
  /\ slots outcome.1.2 = <[PLANS_STORAGE_KEY := JSON_stringify (JArr kept)]> (slots d)
  /\ Forall (fun plan => opt_member plan "id" <> Some (JStr id)) kept
  /\ (forall plan, In plan stored -> opt_member plan "id" <> Some (JStr id) -> In plan kept)
  /\ (read_fault d = false ->
      JSON_parse "" = None ->
      JSON_parse (JSON_stringify (JArr kept)) = Some (JArr kept) ->
      (run (getPlans outcome.1.1) outcome.1.2).2 = Normal kept).
Proof.
  intros Hcan Hw. cbv zeta.
  destruct (run_deletePlan id s d Hcan) as (s' & Hrun & Hhost & _). cbv zeta in Hrun.
  rewrite Hw in Hrun. rewrite Hrun. cbn [fst snd].
  split; [reflexivity |]. split; [reflexivity |]. split; [| split].
  - unfold plans_without. apply List.Forall_forall. intros plan Hin.
    apply filter_In in Hin as [_ Hne]. apply negb_true_iff in Hne.
    intros E. rewrite E in Hne. simpl in Hne. now rewrite String.eqb_refl in Hne.
  - intros plan Hin Hne. unfold plans_without. apply filter_In. split; [exact Hin |].
    apply negb_true_iff. destruct (opt_member plan "id") as [[] |]; try reflexivity.
    simpl. apply String.eqb_neq. congruence.
  - intros Hr Hempty Hrt. rewrite Hr in *.
    destruct (getPlans_loads s'
                (written PLANS_STORAGE_KEY
                   (serializePlans (plans_without id (decoded (slots d !! PLANS_STORAGE_KEY)))) d))
      as (s2 & -> & _).
    unfold readable. rewrite Hhost, Hcan. simpl. rewrite Hr. simpl.
    rewrite lookup_insert_eq. unfold serializePlans.
    rewrite (decoded_stringify _ Hempty Hrt).
    now rewrite plans_without_have_ids by apply decoded_have_ids.
Qed.


Lemma run_savePlan_rethrows plan s d :
  canUseAsyncStorage (host s) = true ->
  write_fault d = true ->
  exists s', run (savePlan plan s) d = (s', d, Throw (HostError "setItem"))
             /\ head (console s') = Some (LError, "[storage] Failed to save plan").
Proof.
  intros Hcan Hw. unfold savePlan.
  rewrite run_bind. unfold get at 1. rewrite run_Done. cbv beta iota. rewrite Hcan. cbn [negb].
  rewrite run_try_catch, run_bind.
  unfold console_log at 1, modify at 1. rewrite run_Done. cbv beta iota.
  rewrite run_bind.
  destruct (getPlans_loads (emit LLog "[storage.savePlan] CALLED WITH:" s) d)
    as (s1 & -> & _).
  set (stored := if readable _ d then _ else _).
  assert (Hnn : Forall (fun v => not_null v = true) stored).
  { unfold stored. destruct (readable _ d); [apply decoded_not_null | constructor]. }
  rewrite run_lift_bind, (filterC_other_id plan stored Hnn).
  rewrite run_bind. unfold await at 1. simpl run at 1. unfold perform. rewrite Hw.
  rewrite run_Done.
  unfold console_error, logError, console_error, modify, throw, bind. simpl. eauto.
Qed.

(** X3.  Where storage is usable and rejects writes, [deletePlan] throws
    its own error "Unable to delete plan" while [savePlan] rethrows the
    rejection it got from storage; each logs its failure through
    [logError] and leaves the slots as they were. *)
Theorem plan_writes_rejected (id : string) (plan : JSObject) (s : App) (d : Device) :
  canUseAsyncStorage (host s) = true ->
  write_fault d = true ->
  let deleted := run (deletePlan id s) d in
  let saved := run (savePlan plan s) d in
  deleted.2 = Throw (Error "Unable to delete plan")
  /\ deleted.1.2 = d
  /\ head (console deleted.1.1) = Some (LError, "[storage] Failed to delete plan")
  /\ saved.2 = Throw (HostError "setItem")
  /\ saved.1.2 = d
  /\ head (console saved.1.1) = Some (LError, "[storage] Failed to save plan").
Proof.
  intros Hcan Hw. cbv zeta.
  destruct (run_deletePlan id s d Hcan) as (s1 & -> & _). rewrite Hw.
  destruct (run_savePlan_rethrows plan s d Hcan Hw) as (s2 & -> & Hlog).
  repeat split. exact Hlog.
Qed.

(** X6.  Where storage is usable and rejects nothing,
    [getPendingAuthEmail] after [setPendingAuthEmail email] returns the
    email trimmed and in lower case, or [null] when nothing is left of it
    after trimming; after [clearPendingAuthEmail] it returns [null]. *)
Theorem pending_auth_email_round_trip (email : string) (s : App) (d : Device) :
  canUseAsyncStorage (host s) = true ->
  read_fault d = false ->
  write_fault d = false ->
  let stored := toLowerCase (trim email) in
  (run (bind (setPendingAuthEmail email) (fun _ => getPendingAuthEmail) s) d).2
  = Normal (if nonempty stored then Some stored else None)
  /\ (run (bind (setPendingAuthEmail email)
             (fun _ => bind clearPendingAuthEmail (fun _ => getPendingAuthEmail)) s) d).2
     = Normal None.
Proof.
  intros Hcan Hr Hw. cbv zeta.
  unfold setPendingAuthEmail, getPendingAuthEmail, clearPendingAuthEmail,
    warnAsyncStorageUnavailable, logError.
  task_unfold. destruct d as [tbl rf wf]. simpl in Hr, Hw. subst rf wf.
  simpl. rewrite Hcan. simpl. rewrite Hcan. simpl.
  rewrite lookup_insert_eq. split.
  - unfold nonempty. now destruct (String.eqb (toLowerCase (trim email)) "").
  - rewrite Hcan. simpl. now rewrite lookup_delete_eq.
Qed.

Lemma complete_draft_toJSON profile :
  complete_draft (PendingProfileDraft_toJSON profile)
  = nonempty (firstName profile) && nonempty (lastName profile) && nonempty (email profile).
Proof. reflexivity. Qed.

Lemma run_getPendingProfileDraft s d :
  exists s',
    run (getPendingProfileDraft s) d
    = (s', d,
       Normal
         (if readable s d then
            match slots d !! PENDING_PROFILE_KEY with
            | None => None
            | Some text =>
                if String.eqb text "" then None
                else match JSON_parse text with
                     | Some parsed => if complete_draft parsed then Some parsed else None
                     | None => None
                     end
            end
          else None))
    /\ schedules s' = schedules s /\ workouts s' = workouts s /\ host s' = host s.
Proof.
  unfold getPendingProfileDraft, readable, logError, complete_draft.
  task_unfold. destruct d as [tbl rf wf]. simpl.
  destruct (canUseAsyncStorage (host s)); simpl; [| eauto].
  destruct rf; simpl; [eauto |].
  destruct (tbl !! PENDING_PROFILE_KEY) as [text |]; simpl; [| eauto].
  destruct (String.eqb text ""); simpl; [eauto |].
  destruct (JSON_parse text) as [parsed |]; simpl; [| eauto].
  destruct parsed; simpl; eauto.
  destruct (truthy (own "firstName" fields)); simpl; [| eauto].
  destruct (truthy (own "lastName" fields)); simpl; [| eauto].
  destruct (truthy (own "email" fields)); simpl; eauto.
Qed.

(** X4.  Where storage is usable and rejects nothing, and the JSON codec
    reads back the text it printed for the draft, [getPendingProfileDraft]
    after [setPendingProfileDraft profile] returns the draft when its first
    name, last name and email are all non-empty and [null] otherwise; after
    [clearPendingProfileDraft] it returns [null]. *)
Theorem pending_profile_draft_round_trip (profile : PendingProfileDraft) (s : App) (d : Device) :
  canUseAsyncStorage (host s) = true ->
  read_fault d = false ->
  write_fault d = false ->
  JSON_parse "" = None ->
  JSON_parse (JSON_stringify (PendingProfileDraft_toJSON profile))
  = Some (PendingProfileDraft_toJSON profile) ->
  (run (bind (setPendingProfileDraft profile) (fun _ => getPendingProfileDraft) s) d).2
  = Normal (if nonempty (firstName profile) && nonempty (lastName profile)
               && nonempty (email profile)
            then Some (PendingProfileDraft_toJSON profile) else None)
  /\ (run (bind (setPendingProfileDraft profile)
             (fun _ => bind clearPendingProfileDraft (fun _ => getPendingProfileDraft)) s) d).2
     = Normal None.
Proof.
  intros Hcan Hr Hw Hempty Hrt.
  assert (Hset : forall s0 d0, host s0 = host s -> write_fault d0 = false ->
            run (setPendingProfileDraft profile s0) d0
            = (s0, written PENDING_PROFILE_KEY
                     (JSON_stringify (PendingProfileDraft_toJSON profile)) d0, Normal tt)).
  { intros s0 d0 Hh Hw0. unfold setPendingProfileDraft, warnAsyncStorageUnavailable, logError.
    task_unfold. destruct d0 as [tbl0 rf0 wf0]. simpl in Hw0. subst wf0.
    simpl. rewrite Hh, Hcan. reflexivity. }
  assert (Hclear : forall s0 d0, host s0 = host s -> write_fault d0 = false ->
            run (clearPendingProfileDraft s0) d0
            = (s0, removed PENDING_PROFILE_KEY d0, Normal tt)).
  { intros s0 d0 Hh Hw0. unfold clearPendingProfileDraft, warnAsyncStorageUnavailable, logError.
    task_unfold. destruct d0 as [tbl0 rf0 wf0]. simpl in Hw0. subst wf0.
    simpl. rewrite Hh, Hcan. reflexivity. }
  split.
  - rewrite run_bind, Hset by auto.
    destruct (run_getPendingProfileDraft s
                (written PENDING_PROFILE_KEY
                   (JSON_stringify (PendingProfileDraft_toJSON profile)) d)) as (s' & -> & _).
    unfold readable. rewrite Hcan. simpl. rewrite Hr. simpl.
    rewrite lookup_insert_eq.
    destruct (String.eqb_spec (JSON_stringify (PendingProfileDraft_toJSON profile)) "") as [E | _].
    { rewrite E in Hrt. congruence. }
    now rewrite Hrt, complete_draft_toJSON.
  - rewrite run_bind, Hset by auto. rewrite run_bind, Hclear by auto.
    destruct (run_getPendingProfileDraft s
                (removed PENDING_PROFILE_KEY
                   (written PENDING_PROFILE_KEY
                      (JSON_stringify (PendingProfileDraft_toJSON profile)) d)))
      as (s' & -> & _).
    unfold readable. rewrite Hcan. simpl. rewrite Hr. simpl.
    now rewrite lookup_delete_eq.
Qed.

(** X5.  On every device, whatever the slot holds, [getPendingProfileDraft]
    completes normally and leaves the slots alone; a draft it returns is the
    value parsed from the slot and has a truthy [firstName], [lastName] and
    [email]; it returns [null] when storage is unavailable or the read is
    rejected. *)
Theorem getPendingProfileDraft_validates (s : App) (d : Device) :
  let outcome := run (getPendingProfileDraft s) d in
  outcome.1.2 = d
  /\ exists draft, outcome.2 = Normal draft
       /\ (forall parsed, draft = Some parsed ->
             complete_draft parsed = true
             /\ exists text, slots d !! PENDING_PROFILE_KEY = Some text
                             /\ JSON_parse text = Some parsed)
       /\ (readable s d = false -> draft = None).
Proof.
  cbv zeta. destruct (run_getPendingProfileDraft s d) as (s' & -> & _). cbn [fst snd].
  split; [reflexivity |]. eexists. split; [reflexivity |]. split.
  - intros parsed E. destruct (readable s d); [| discriminate].
    destruct (slots d !! PENDING_PROFILE_KEY) as [text |]; [| discriminate].
    destruct (String.eqb text ""); [discriminate |].
    destruct (JSON_parse text) as [v |] eqn:Ev; [| discriminate].
    destruct (complete_draft v) eqn:Ec; [| discriminate].
    injection E as <-. split; [exact Ec |]. eauto.
  - now intros ->.
Qed.

End StorageMore.

(** ** Loading and clearing *)

Section Loading.
Context `{JSONGlobal}.

(** X7.  [loadStoredSchedules], [loadStoredWorkoutSessions] and [getPlans]
    never throw and change neither the slots nor the stores: each returns the
    decoded content of its slot where storage can be read and the empty
    collection otherwise.  Every decoded entry has a truthy id, and a slot
    that is absent or does not parse decodes to the empty collection. *)
Theorem loading_never_throws :
  loads scheduleStorage.loadStoredSchedules scheduleStorage.SCHEDULES_STORAGE_KEY
  /\ loads workoutSessionStorage.loadStoredWorkoutSessions
       workoutSessionStorage.WORKOUTS_STORAGE_KEY
  /\ loads storage.getPlans storage.PLANS_STORAGE_KEY
  /\ (forall value, Forall (fun entry => has_id entry = true) (decoded value))
  /\ (forall text, JSON_parse text = None -> decoded (Some text) = [])
  /\ decoded None = [].
Proof.
  split; [apply loadStoredSchedules_loads |].
  split; [apply loadStoredWorkoutSessions_loads |].
  split; [apply getPlans_loads |].
  split; [apply decoded_have_ids |]. split; [| reflexivity].
  intros text Hp. unfold decoded. rewrite Hp. now destruct (String.eqb text "").
Qed.

Lemma run_clearStoredSchedules s d :
  run (scheduleStorage.clearStoredSchedules s) d
  = if canUseAsyncStorage (host s) then
      if write_fault d
      then (emit LError "[scheduleStorage] Failed to clear stored schedules" s, d,
            Throw (Error "Unable to clear stored schedules"))
      else (s, removed scheduleStorage.SCHEDULES_STORAGE_KEY d, Normal tt)
    else
      (emit LWarn "[scheduleStorage] clearStoredSchedules skipped because AsyncStorage is unavailable in this environment." s,
       d, Normal tt).
Proof.
  unfold scheduleStorage.clearStoredSchedules, scheduleStorage.warnAsyncStorageUnavailable,
    scheduleStorage.logError.
  task_unfold. destruct d as [tbl rf wf]. simpl.
  destruct (canUseAsyncStorage (host s)); simpl; [| reflexivity].
  destruct wf; reflexivity.
Qed.

Lemma run_clearStoredWorkoutSessions s d :
  run (workoutSessionStorage.clearStoredWorkoutSessions s) d
  = if canUseAsyncStorage (host s) then
      if write_fault d
      then (emit LError "[workoutSessionStorage] Failed to clear stored workouts" s, d,
            Throw (Error "Unable to clear stored workouts"))
      else (s, removed workoutSessionStorage.WORKOUTS_STORAGE_KEY d, Normal tt)
    else
      (emit LWarn "[workoutSessionStorage] clearStoredWorkoutSessions skipped because AsyncStorage is unavailable in this environment." s,
       d, Normal tt).
Proof.
  unfold workoutSessionStorage.clearStoredWorkoutSessions,
    workoutSessionStorage.warnAsyncStorageUnavailable, workoutSessionStorage.logError.
  task_unfold. destruct d as [tbl rf wf]. simpl.
  destruct (canUseAsyncStorage (host s)); simpl; [| reflexivity].
  destruct wf; reflexivity.
Qed.

(** X8.  Where storage is usable: when writes are accepted, loading after
    [clearStoredSchedules] (respectively [clearStoredWorkoutSessions])
    returns the empty collection, whatever was persisted before; when writes
    are rejected, the two clear operations log the failure, leave the slots
    alone and throw "Unable to clear stored schedules" (respectively
    "... workouts"). *)
Theorem clear_then_load_is_empty (items : list json) (s : App) (d : Device) :
  canUseAsyncStorage (host s) = true ->
  (write_fault d = false ->
   (run (bind (scheduleStorage.persistStoredSchedules items)
           (fun _ => bind scheduleStorage.clearStoredSchedules
                       (fun _ => scheduleStorage.loadStoredSchedules)) s) d).2 = Normal []
   /\ (run (bind (workoutSessionStorage.persistStoredWorkoutSessions items)
              (fun _ => bind workoutSessionStorage.clearStoredWorkoutSessions
                          (fun _ => workoutSessionStorage.loadStoredWorkoutSessions)) s) d).2
      = Normal [])
  /\ (write_fault d = true ->
      run (scheduleStorage.clearStoredSchedules s) d
      = (emit LError "[scheduleStorage] Failed to clear stored schedules" s, d,
         Throw (Error "Unable to clear stored schedules"))
      /\ run (workoutSessionStorage.clearStoredWorkoutSessions s) d
         = (emit LError "[workoutSessionStorage] Failed to clear stored workouts" s, d,
            Throw (Error "Unable to clear stored workouts"))).
Proof.
  intros Hcan. split.
  - intros Hw. split.
    + rewrite run_bind, run_persistStoredSchedules, Hcan, Hw.
      rewrite run_bind, run_clearStoredSchedules. cbn [host emit]. rewrite Hcan.
      cbn [written write_fault]. rewrite Hw.
      match goal with |- (run (_ ?s0) ?d0).2 = _ =>
        destruct (loadStoredSchedules_loads s0 d0) as (s' & -> & _) end.
      cbn [snd removed slots]. rewrite lookup_delete_eq. now destruct (readable _ _).
    + rewrite run_bind, run_persistStoredWorkoutSessions, Hcan, Hw.
      rewrite run_bind, run_clearStoredWorkoutSessions. rewrite Hcan.
      cbn [written write_fault]. rewrite Hw.
      match goal with |- (run (_ ?s0) ?d0).2 = _ =>
        destruct (loadStoredWorkoutSessions_loads s0 d0) as (s' & -> & _) end.
      cbn [snd removed slots]. rewrite lookup_delete_eq. now destruct (readable _ _).
  - intros Hw. now rewrite run_clearStoredSchedules, run_clearStoredWorkoutSessions, Hcan, Hw.
Qed.

End Loading.

(** ** The stores and their slots *)

Section StoresMore.
Context `{JSONGlobal}.
Import schedulesStore workoutSessionsStore.

Lemma run_schedules_mutation (next : list Schedule) (line : string) s d :
  run (bind (modify (set_schedules next))
         (fun _ => try_catch (schedulesStore.persist next)
                     (fun _ => console_error line)) s) d
  = if canUseAsyncStorage (host s) then
      if write_fault d
      then (after_failed_write line schedule_write_lines (set_schedules next s), d, Normal tt)
      else (emit LLog "SAVING SCHEDULE TO ASYNCSTORAGE:" (set_schedules next s),
            written scheduleStorage.SCHEDULES_STORAGE_KEY
              (scheduleStorage.serializeSchedules (map Schedule_toJSON next)) d,
            Normal tt)
    else
      (emit LWarn "[scheduleStorage] persistStoredSchedules skipped because AsyncStorage is unavailable in this environment." (set_schedules next s),
       d, Normal tt).
Proof.
  rewrite run_optimistic_update. unfold schedulesStore.persist.
  rewrite run_persistStoredSchedules. cbn [host set_schedules].
  destruct (canUseAsyncStorage (host s)); [| reflexivity].
  destruct (write_fault d); reflexivity.
Qed.

Lemma run_workouts_mutation (next : list Workout) (line : string) s d :
  run (bind (modify (set_workouts next))
         (fun _ => try_catch (workoutSessionsStore.persist next)
                     (fun _ => console_error line)) s) d
  = if canUseAsyncStorage (host s) then
      if write_fault d
      then (after_failed_write line workout_write_lines (set_workouts next s), d, Normal tt)
      else (set_workouts next s,
            written workoutSessionStorage.WORKOUTS_STORAGE_KEY
              (workoutSessionStorage.serializeWorkouts (map JObj next)) d,
            Normal tt)
    else
      (emit LWarn "[workoutSessionStorage] persistStoredWorkoutSessions skipped because AsyncStorage is unavailable in this environment." (set_workouts next s),
       d, Normal tt).
Proof.
  rewrite run_optimistic_update. unfold workoutSessionsStore.persist.
  rewrite run_persistStoredWorkoutSessions. cbn [host set_workouts].
  destruct (canUseAsyncStorage (host s)); [| reflexivity].
  destruct (write_fault d); reflexivity.
Qed.

Ltac run_mutation :=
  rewrite run_bind; unfold get at 1; rewrite run_Done; cbv beta iota zeta;
  first [ apply run_schedules_mutation | apply run_workouts_mutation ].

Lemma run_addSchedule schedule s d :
  run (addSchedule schedule s) d
  = schedules_outcome (schedule :: schedules s)
      "[schedulesStore] Failed to persist schedules after add" s d.
Proof. unfold addSchedule. run_mutation. Qed.

Lemma run_updateSchedule schedule s d :
  run (updateSchedule schedule s) d
  = schedules_outcome
      (map (fun existing =>
              if String.eqb (schedule_id existing) (schedule_id schedule)
              then schedule else existing) (schedules s))
      "[schedulesStore] Failed to persist schedules after update" s d.
Proof. unfold updateSchedule. run_mutation. Qed.

Lemma run_deleteSchedule id s d :
  run (deleteSchedule id s) d
  = schedules_outcome
      (List.filter (fun schedule => negb (String.eqb (schedule_id schedule) id)) (schedules s))
      "[schedulesStore] Failed to persist schedules after delete" s d.
Proof. unfold deleteSchedule. run_mutation. Qed.

Lemma run_addWorkout workout s d :
  run (addWorkout workout s) d
  = workouts_outcome (workout :: workouts s)
      "[workoutSessionsStore] Failed to persist workouts after add" s d.
Proof. unfold addWorkout. run_mutation. Qed.

Lemma run_updateWorkout workout s d :
  run (updateWorkout workout s) d
  = workouts_outcome
      (map (fun existing =>
              if strict_eq (own "id" existing) (own "id" workout) then workout else existing)
           (workouts s))
      "[workoutSessionsStore] Failed to persist workouts after update" s d.
Proof. unfold updateWorkout. run_mutation. Qed.

Lemma run_deleteWorkout id s d :
  run (deleteWorkout id s) d
  = workouts_outcome
      (List.filter (fun workout => negb (strict_eq (own "id" workout) (Some (JStr id))))
         (workouts s))
      "[workoutSessionsStore] Failed to persist workouts after delete" s d.
Proof. unfold deleteWorkout. run_mutation. Qed.

Lemma schedules_outcome_store next line s d :
  schedules (schedules_outcome next line s d).1.1 = next
  /\ workouts (schedules_outcome next line s d).1.1 = workouts s
  /\ host (schedules_outcome next line s d).1.1 = host s
  /\ (schedules_outcome next line s d).2 = Normal tt.
Proof.
  unfold schedules_outcome.
  destruct (canUseAsyncStorage (host s)), (write_fault d); repeat split.
Qed.

Lemma workouts_outcome_store next line s d :
  workouts (workouts_outcome next line s d).1.1 = next
  /\ schedules (workouts_outcome next line s d).1.1 = schedules s
  /\ host (workouts_outcome next line s d).1.1 = host s
  /\ (workouts_outcome next line s d).2 = Normal tt.
Proof.
  unfold workouts_outcome.
  destruct (canUseAsyncStorage (host s)), (write_fault d); repeat split.
Qed.

Lemma run_clearWorkouts s d :
  run (clearWorkouts s) d
  = if canUseAsyncStorage (host s) then
      if write_fault d
      then (emit LError "[workoutSessionsStore] Failed to clear stored workouts"
              (emit LError "[workoutSessionStorage] Failed to clear stored workouts"
                 (set_workouts [] s)),
            d, Normal tt)
      else (set_workouts [] s, removed workoutSessionStorage.WORKOUTS_STORAGE_KEY d, Normal tt)
    else
      (emit LWarn "[workoutSessionStorage] clearStoredWorkoutSessions skipped because AsyncStorage is unavailable in this environment." (set_workouts [] s),
       d, Normal tt).
Proof.
  unfold clearWorkouts, workoutSessionStorage.clearStoredWorkoutSessions,
    workoutSessionStorage.warnAsyncStorageUnavailable, workoutSessionStorage.logError.
  task_unfold. destruct d as [tbl rf wf]. simpl.
  destruct (canUseAsyncStorage (host s)); simpl; [| reflexivity].
  destruct wf; reflexivity.
Qed.

(** X9.  Where storage is usable and accepts writes, every mutation of the
    two entity stores, run to its end, leaves the slot holding the text of
    exactly the collection the store then holds; after [clearWorkouts] the
    store is empty and the workouts slot is gone. *)
Theorem mutations_keep_slot_in_step (s : App) (d : Device) :
  canUseAsyncStorage (host s) = true ->
  write_fault d = false ->
  (forall schedule, let o := run (addSchedule schedule s) d in schedules_in_step o.1.1 o.1.2)
  /\ (forall schedule, let o := run (updateSchedule schedule s) d in schedules_in_step o.1.1 o.1.2)
  /\ (forall id, let o := run (deleteSchedule id s) d in schedules_in_step o.1.1 o.1.2)
  /\ (forall workout, let o := run (addWorkout workout s) d in workouts_in_step o.1.1 o.1.2)
  /\ (forall workout, let o := run (updateWorkout workout s) d in workouts_in_step o.1.1 o.1.2)
  /\ (forall id, let o := run (deleteWorkout id s) d in workouts_in_step o.1.1 o.1.2)
  /\ (let o := run (clearWorkouts s) d in
      workouts o.1.1 = []
      /\ slots o.1.2 !! workoutSessionStorage.WORKOUTS_STORAGE_KEY = None).
Proof.
  intros Hcan Hw. unfold schedules_in_step, workouts_in_step.
  repeat split; intros; cbv zeta;
    rewrite ?run_addSchedule, ?run_updateSchedule, ?run_deleteSchedule,
      ?run_addWorkout, ?run_updateWorkout, ?run_deleteWorkout, ?run_clearWorkouts;
    unfold schedules_outcome, workouts_outcome; rewrite Hcan, Hw; cbn [fst snd];
    unfold written, removed; cbn [slots];
    first [ apply lookup_insert_eq | apply lookup_delete_eq | reflexivity ].
Qed.

(** X10.  [updateSchedule] and [updateWorkout] replace in place: the
    sequence of ids in the store is the same before and after, the entry at
    each position is the given item where the id matched and the former
    entry where it did not, and the store is unchanged when no entry has the
    id. *)
Theorem update_replaces_by_id (s : App) (d : Device) :
  (forall schedule,
     let before := schedules s in
     let after := schedules (run (updateSchedule schedule s) d).1.1 in
     map schedule_id after = map schedule_id before
     /\ (forall i existing, before !! i = Some existing ->
           after !! i = Some (if String.eqb (schedule_id existing) (schedule_id schedule)
                              then schedule else existing))
     /\ (Forall (fun existing => schedule_id existing <> schedule_id schedule) before ->
         after = before))
  /\ (forall workout,
        let before := workouts s in
        let after := workouts (run (updateWorkout workout s) d).1.1 in
        map (own "id") after = map (own "id") before
        /\ (forall i existing, before !! i = Some existing ->
              after !! i = Some (if strict_eq (own "id" existing) (own "id" workout)
                                 then workout else existing))
        /\ (Forall (fun existing => own "id" existing <> own "id" workout) before ->
            after = before)).
Proof.
  split.
  - intros schedule. cbv zeta. rewrite run_updateSchedule.
    destruct (schedules_outcome_store
                (map (fun existing =>
                        if String.eqb (schedule_id existing) (schedule_id schedule)
                        then schedule else existing) (schedules s))
                "[schedulesStore] Failed to persist schedules after update" s d) as (-> & _).
    split; [| split].
    + rewrite map_map. apply map_ext. intros existing.
      destruct (String.eqb_spec (schedule_id existing) (schedule_id schedule)); congruence.
    + intros i existing Hat. now rewrite list_lookup_fmap, Hat.
    + intros Hfresh. induction Hfresh as [| existing rest Hne _ IH]; [reflexivity |].
      cbn [map]. rewrite IH.
      destruct (String.eqb_spec (schedule_id existing) (schedule_id schedule)); congruence.
  - intros workout. cbv zeta. rewrite run_updateWorkout.
    destruct (workouts_outcome_store
                (map (fun existing =>
                        if strict_eq (own "id" existing) (own "id" workout)
                        then workout else existing) (workouts s))
                "[workoutSessionsStore] Failed to persist workouts after update" s d) as (-> & _).
    assert (Hstrict : forall a b, strict_eq a b = true -> a = b).
    { intros [[] |] [[] |]; simpl; try discriminate; try reflexivity.
      - intros E. apply Bool.eqb_prop in E. congruence.
      - intros E. apply Z.eqb_eq in E. congruence.
      - intros E. apply String.eqb_eq in E. congruence. }
    split; [| split].
    + rewrite map_map. apply map_ext. intros existing.
      destruct (strict_eq (own "id" existing) (own "id" workout)) eqn:E; [| reflexivity].
      symmetry. now apply Hstrict.
    + intros i existing Hat. rewrite list_lookup_fmap. exact (f_equal (fmap _) Hat).
    + intros Hfresh. induction Hfresh as [| existing rest Hne _ IH]; [reflexivity |].
      cbn [map]. rewrite IH.
      destruct (strict_eq (own "id" existing) (own "id" workout)) eqn:E; [| reflexivity].
      now apply Hstrict in E.
Qed.

(** X11.  Adding an item and then deleting by its id leaves the store
    holding the former collection without the entries that had that id: no
    entry with the id remains, and the former collection is restored exactly
    when the id was not in use. *)
Theorem add_then_delete_restores (s : App) (d : Device) :
  (forall schedule,
     let id := schedule_id schedule in
     let after :=
       schedules (run (bind (addSchedule schedule) (fun _ => deleteSchedule id) s) d).1.1 in
     after = List.filter (fun existing => negb (String.eqb (schedule_id existing) id)) (schedules s)
     /\ Forall (fun existing => schedule_id existing <> id) after
     /\ (Forall (fun existing => schedule_id existing <> id) (schedules s) ->
         after = schedules s))
  /\ (forall workout id,
        own "id" workout = Some (JStr id) ->
        let after :=
          workouts (run (bind (addWorkout workout) (fun _ => deleteWorkout id) s) d).1.1 in
        after = List.filter (fun existing => negb (workout_has_id id existing)) (workouts s)
        /\ Forall (fun existing => own "id" existing <> Some (JStr id)) after
        /\ (Forall (fun existing => own "id" existing <> Some (JStr id)) (workouts s) ->
            after = workouts s)).
Proof.
  split.
  - intros schedule. cbv zeta. rewrite run_bind, run_addSchedule.
    destruct (schedules_outcome_store (schedule :: schedules s)
                "[schedulesStore] Failed to persist schedules after add" s d)
      as (Hs & _ & _ & Hr).
    destruct (schedules_outcome _ _ s d) as [[s1 d1] r1]. cbn [fst snd] in Hs, Hr. subst r1.
    rewrite run_deleteSchedule.
    destruct (schedules_outcome_store
                (List.filter (fun x => negb (String.eqb (schedule_id x) (schedule_id schedule)))
                   (schedules s1))
                "[schedulesStore] Failed to persist schedules after delete" s1 d1) as (-> & _).
    rewrite Hs. cbn [List.filter]. rewrite String.eqb_refl. cbn [negb].
    split; [reflexivity |]. split.
    + apply List.Forall_forall. intros existing Hin. apply filter_In in Hin as [_ Hne].
      apply negb_true_iff, String.eqb_neq in Hne. exact Hne.
    + intros Hfresh. clear Hs. induction Hfresh as [| existing rest Hne _ IH]; [reflexivity |].
      cbn [List.filter]. apply String.eqb_neq in Hne. rewrite Hne. cbn [negb]. now rewrite IH.
  - intros workout id Hid. cbv zeta. rewrite run_bind, run_addWorkout.
    destruct (workouts_outcome_store (workout :: workouts s)
                "[workoutSessionsStore] Failed to persist workouts after add" s d)
      as (Hs & _ & _ & Hr).
    destruct (workouts_outcome _ _ s d) as [[s1 d1] r1]. cbn [fst snd] in Hs, Hr. subst r1.
    rewrite run_deleteWorkout.
    destruct (workouts_outcome_store
                (List.filter (fun x => negb (strict_eq (own "id" x) (Some (JStr id))))
                   (workouts s1))
                "[workoutSessionsStore] Failed to persist workouts after delete" s1 d1) as (-> & _).
    rewrite Hs. cbn [List.filter]. rewrite Hid. cbn [strict_eq]. rewrite String.eqb_refl.
    cbn [negb]. split; [reflexivity |]. split.
    + apply List.Forall_forall. intros existing Hin. apply filter_In in Hin as [_ Hne].
      apply negb_true_iff in Hne. intros E. rewrite E in Hne. cbn [strict_eq] in Hne.
      now rewrite String.eqb_refl in Hne.
    + intros Hfresh. clear Hs. induction Hfresh as [| existing rest Hne _ IH]; [reflexivity |].
      cbn [List.filter]. fold (workout_has_id id existing). unfold workout_has_id at 1.
      destruct (own "id" existing) as [[] |] eqn:E; cbn [strict_eq negb]; try now rewrite IH.
      destruct (String.eqb_spec s0 id) as [-> | _]; [contradiction | cbn [negb]; now rewrite IH].
Qed.

End StoresMore.

(** ** Normal forms of text *)

Section Characters.

Lemma alnum_not_space c : is_lower_alnum c = true -> is_space c = false.
Proof. destruct c as [[] [] [] [] [] [] [] []]; vm_compute; congruence. Qed.

Lemma alnum_not_blank c : is_lower_alnum c = true -> Ascii.eqb c " " = false.
Proof. destruct c as [[] [] [] [] [] [] [] []]; vm_compute; congruence. Qed.

Lemma alnum_not_dash c : is_lower_alnum c = true -> Ascii.eqb c "-" = false.
Proof. destruct c as [[] [] [] [] [] [] [] []]; vm_compute; congruence. Qed.

Lemma alnum_lower c : is_lower_alnum c = true -> lower c = c.
Proof. destruct c as [[] [] [] [] [] [] [] []]; vm_compute; congruence. Qed.

End Characters.

Section Normalised.

Lemma loosely_collapse s : forall in_run,
  loosely_separated " " in_run (collapse_from in_run (blank_punctuation s)) = true.
Proof.
  unfold blank_punctuation.
  induction s as [| c rest IH]; intros in_run; [reflexivity |].
  cbn [map_chars collapse_from].
  destruct (is_lower_alnum c) eqn:Ea; cbn [orb].
  - rewrite (alnum_not_space c Ea). cbn [loosely_separated].
    now rewrite (alnum_not_blank c Ea), Ea, IH.
  - assert (Hs : is_space (if is_space c then c else " "%char) = true)
      by (destruct (is_space c) eqn:Es; [exact Es | reflexivity]).
    rewrite Hs. destruct in_run; [apply IH |].
    cbn [loosely_separated]. change (Ascii.eqb " " " ") with true. cbn [negb andb]. apply IH.
Qed.

Lemma trimStart_separated s :
  loosely_separated " " false s = true ->
  loosely_separated " " true (trimStart s) = true.
Proof.
  destruct s as [| c rest]; [reflexivity |]. cbn [loosely_separated trimStart].
  destruct (Ascii.eqb_spec c " ") as [-> | Hc].
  - change (is_space " ") with true. cbn [negb andb]. intros Hrest.
    destruct rest as [| c' rest']; [reflexivity |]. cbn [loosely_separated trimStart] in *.
    destruct (Ascii.eqb_spec c' " ") as [-> | Hc']; [discriminate |].
    apply andb_prop in Hrest as [Ea Hrest].
    rewrite (alnum_not_space c' Ea). cbn [loosely_separated].
    destruct (Ascii.eqb_spec c' " ") as [E | _]; [contradiction |]. now rewrite Ea.
  - intros Hrest. apply andb_prop in Hrest as [Ea Hrest].
    rewrite (alnum_not_space c Ea). cbn [loosely_separated].
    destruct (Ascii.eqb_spec c " ") as [E | _]; [contradiction |]. now rewrite Ea.
Qed.

Lemma trimEnd_separated s : forall prev,
  loosely_separated " " prev s = true ->
  trimEnd s = "" \/ separated " " prev (trimEnd s) = true.
Proof.
  induction s as [| c rest IH]; intros prev; [now left |].
  cbn [loosely_separated trimEnd].
  destruct (Ascii.eqb_spec c " ") as [-> | Hc].
  - intros Hrest. apply andb_prop in Hrest as [Hprev Hrest].
    destruct (IH true Hrest) as [-> | Hkept]; [now left |]. right.
    destruct (trimEnd rest) as [| k kept] eqn:Ek; [discriminate |].
    change (negb prev && separated " " true (String k kept) = true).
    now rewrite Hprev, Hkept.
  - intros Hrest. apply andb_prop in Hrest as [Ea Hrest]. right.
    specialize (IH false Hrest).
    destruct (trimEnd rest) as [| k kept] eqn:Ek.
    + rewrite (alnum_not_space c Ea). cbn [separated].
      destruct (Ascii.eqb_spec c " ") as [E | _]; [contradiction |]. now rewrite Ea.
    + destruct IH as [IH | Hkept]; [discriminate |].
      cbv iota. set (tail := String k kept) in *. cbn [separated].
      destruct (Ascii.eqb_spec c " ") as [E | _]; [contradiction |].
      now rewrite Ea, Hkept.
Qed.

Lemma normalizeSearchText_joined value :
  words_joined_by " " (normalizeSearchText value) = true.
Proof.
  unfold normalizeSearchText, trim, collapse_spaces.
  pose proof (loosely_collapse (toLowerCase value) false) as Hloose.
  apply trimStart_separated, trimEnd_separated in Hloose.
  destruct Hloose as [-> | Hsep]; [reflexivity |].
  unfold words_joined_by. now destruct (trimEnd _).
Qed.

(** A text of that shape is left as it is. *)
Lemma separated_fixed s : forall prev,
  separated " " prev s = true ->
  toLowerCase s = s /\ blank_punctuation s = s /\ collapse_from prev s = s
  /\ trimEnd s = s /\ (prev = true -> trimStart s = s).
Proof.
  unfold toLowerCase, blank_punctuation.
  induction s as [| c rest IH]; intros prev; [intros _; repeat split |].
  cbn [separated map_chars collapse_from trimEnd trimStart].
  destruct (Ascii.eqb_spec c " ") as [-> | Hc].
  - intros Hrest. apply andb_prop in Hrest as [Hprev Hrest]. apply negb_true_iff in Hprev.
    subst prev. destruct (IH true Hrest) as (-> & -> & -> & -> & _).
    change (lower " ") with " "%char. change (is_lower_alnum " " || is_space " ") with true.
    change (is_space " ") with true. cbv iota.
    repeat split; try discriminate.
    destruct rest; [discriminate | reflexivity].
  - intros Hrest. apply andb_prop in Hrest as [Ea Hrest].
    destruct (IH false Hrest) as (-> & -> & -> & -> & _).
    rewrite (alnum_lower c Ea), Ea, (alnum_not_space c Ea). cbn [orb].
    repeat split. destruct rest; reflexivity.
Qed.

Lemma joined_fixed s : words_joined_by " " s = true -> normalizeSearchText s = s.
Proof.
  destruct s as [| c rest]; [reflexivity |]. unfold words_joined_by. intros Hsep.
  assert (Hloose : separated " " false (String c rest) = true).
  { cbn [separated] in *. destruct (Ascii.eqb c " "); [discriminate | exact Hsep]. }
  destruct (separated_fixed _ _ Hsep) as (Hl & Hb & _ & He & Hs).
  destruct (separated_fixed _ _ Hloose) as (_ & _ & Hc & _).
  unfold normalizeSearchText, trim, collapse_spaces.
  now rewrite Hl, Hb, Hc, (Hs eq_refl), He.
Qed.

(** Splitting joined words on the separator gives the words. *)
Lemma split_separated s : forall prev,
  separated " " prev s = true ->
  match split_space s with
  | first :: others =>
      (if prev then word first else forallb is_lower_alnum (list_ascii_of_string first))
      && forallb word others = true
  | [] => False
  end.
Proof.
  induction s as [| c rest IH]; intros prev.
  - cbn. now destruct prev.
  - cbn [separated split_space].
    destruct (Ascii.eqb_spec c " ") as [-> | Hc].
    + intros Hrest. apply andb_prop in Hrest as [Hprev Hrest]. apply negb_true_iff in Hprev.
      subst prev. specialize (IH true Hrest).
      destruct (split_space rest) as [| first others]; [contradiction |].
      cbn [forallb list_ascii_of_string]. exact IH.
    + intros Hrest. apply andb_prop in Hrest as [Ea Hrest]. specialize (IH false Hrest).
      destruct (split_space rest) as [| first others]; [contradiction |].
      apply andb_prop in IH as [Hfirst Hothers]. rewrite Hothers, andb_true_r.
      assert (Hchars : forallb is_lower_alnum (list_ascii_of_string (String c first)) = true)
        by (cbn [list_ascii_of_string forallb]; now rewrite Ea, Hfirst).
      destruct prev; [| exact Hchars]. unfold word. now rewrite Hchars.
Qed.

End Normalised.

Lemma normalized_tokens text :
  words_joined_by " " text = true -> text <> "" ->
  Forall (fun token => word token = true) (split_space text)
  /\ List.filter nonempty (split_space text) = split_space text.
Proof.
  intros Hj Hne. destruct text as [| c rest] eqn:E; [contradiction |].
  unfold words_joined_by in Hj. apply split_separated in Hj.
  destruct (split_space (String c rest)) as [| first others]; [contradiction |].
  apply andb_prop in Hj as [Hfirst Hothers].
  assert (Hall : Forall (fun token => word token = true) (first :: others)).
  { constructor; [exact Hfirst |]. apply List.Forall_forall. intros token Hin.
    rewrite forallb_forall in Hothers. now apply Hothers. }
  split; [exact Hall |].
  apply forallb_filter_id. apply forallb_forall. intros token Hin.
  rewrite List.Forall_forall in Hall. specialize (Hall token Hin).
  unfold word in Hall. now apply andb_prop in Hall as [Hn _].
Qed.

(** X12.  On ASCII text, the result of [normalizeSearchText] is empty or
    consists of words of lower-case letters and digits joined by single
    spaces, with no space at either end; normalising it again changes
    nothing; and when it is not empty, splitting it on spaces gives only such
    words, none empty. *)
Theorem normalizeSearchText_normal_form (value : string) :
  let text := normalizeSearchText value in
  words_joined_by " " text = true
  /\ normalizeSearchText text = text
  /\ (text <> "" ->
      Forall (fun token => word token = true) (split_space text)
      /\ List.filter nonempty (split_space text) = split_space text).
Proof.
  cbv zeta. pose proof (normalizeSearchText_joined value) as Hj.
  split; [exact Hj |]. split; [now apply joined_fixed |].
  now apply normalized_tokens.
Qed.

Section Slugs.

Lemma loosely_dash_runs s : forall in_run,
  loosely_separated "-" in_run (dash_runs_from in_run s) = true.
Proof.
  induction s as [| c rest IH]; intros in_run; [reflexivity |].
  cbn [dash_runs_from]. destruct (is_lower_alnum c) eqn:Ea.
  - cbn [loosely_separated]. now rewrite (alnum_not_dash c Ea), Ea, IH.
  - destruct in_run; [apply IH |].
    cbn [loosely_separated]. change (Ascii.eqb "-" "-") with true. cbn [negb andb]. apply IH.
Qed.

Lemma strip_leading_separated s :
  loosely_separated "-" false s = true ->
  loosely_separated "-" true (strip_leading_dashes s) = true.
Proof.
  destruct s as [| c rest]; [reflexivity |]. cbn [loosely_separated strip_leading_dashes].
  destruct (Ascii.eqb_spec c "-") as [-> | Hc].
  - cbn [negb andb]. intros Hrest.
    destruct rest as [| c' rest']; [reflexivity |].
    cbn [loosely_separated strip_leading_dashes] in *.
    destruct (Ascii.eqb_spec c' "-") as [-> | Hc']; [discriminate |].
    cbn [loosely_separated]. destruct (Ascii.eqb_spec c' "-") as [E | _]; [contradiction |].
    exact Hrest.
  - intros Hrest. cbn [loosely_separated].
    destruct (Ascii.eqb_spec c "-") as [E | _]; [contradiction |]. exact Hrest.
Qed.

Lemma strip_trailing_separated s : forall prev,
  loosely_separated "-" prev s = true ->
  strip_trailing_dashes s = "" \/ separated "-" prev (strip_trailing_dashes s) = true.
Proof.
  induction s as [| c rest IH]; intros prev; [now left |].
  cbn [loosely_separated strip_trailing_dashes].
  destruct (Ascii.eqb_spec c "-") as [-> | Hc].
  - intros Hrest. apply andb_prop in Hrest as [Hprev Hrest].
    destruct (IH true Hrest) as [-> | Hkept]; [now left |]. right.
    destruct (strip_trailing_dashes rest) as [| k kept] eqn:Ek; [discriminate |].
    change (negb prev && separated "-" true (String k kept) = true).
    now rewrite Hprev, Hkept.
  - intros Hrest. apply andb_prop in Hrest as [Ea Hrest]. right.
    specialize (IH false Hrest).
    destruct (strip_trailing_dashes rest) as [| k kept] eqn:Ek.
    + cbn [separated]. destruct (Ascii.eqb_spec c "-") as [E | _]; [contradiction |].
      now rewrite Ea.
    + destruct IH as [IH | Hkept]; [discriminate |].
      cbv iota. set (tail := String k kept) in *. cbn [separated].
      destruct (Ascii.eqb_spec c "-") as [E | _]; [contradiction |].
      now rewrite Ea, Hkept.
Qed.

Lemma separated_nonempty sep s : separated sep true s = true -> s <> "".
Proof. destruct s; [discriminate | discriminate]. Qed.

Lemma slug_fixed s : forall prev,
  separated "-" prev s = true ->
  toLowerCase s = s /\ trimEnd s = s /\ dash_runs_from prev s = s
  /\ strip_trailing_dashes s = s
  /\ (prev = true -> trimStart s = s /\ strip_leading_dashes s = s).
Proof.
  unfold toLowerCase.
  induction s as [| c rest IH]; intros prev; [intros _; repeat split |].
  cbn [separated map_chars dash_runs_from trimEnd trimStart strip_trailing_dashes
       strip_leading_dashes].
  destruct (Ascii.eqb_spec c "-") as [-> | Hc].
  - intros Hrest. apply andb_prop in Hrest as [Hprev Hrest]. apply negb_true_iff in Hprev.
    subst prev. destruct (IH true Hrest) as (-> & -> & -> & -> & _).
    change (lower "-") with "-"%char. change (is_lower_alnum "-") with false.
    change (is_space "-") with false. cbv iota.
    repeat split; try discriminate.
    + destruct rest; reflexivity.
    + destruct rest; [discriminate | reflexivity].
  - intros Hrest. apply andb_prop in Hrest as [Ea Hrest].
    destruct (IH false Hrest) as (-> & -> & -> & -> & _).
    rewrite (alnum_lower c Ea), Ea, (alnum_not_space c Ea).
    repeat split; destruct rest; reflexivity.
Qed.

Lemma joined_slug_fixed s :
  separated "-" true s = true -> slugify s = s.
Proof.
  intros Hsep.
  assert (Hloose : separated "-" false s = true).
  { destruct s as [| c rest]; [discriminate |]. cbn [separated] in *.
    destruct (Ascii.eqb c "-"); [discriminate | exact Hsep]. }
  destruct (slug_fixed _ _ Hsep) as (Hl & He & _ & Ht & Hs).
  destruct (Hs eq_refl) as [Hts Hld].
  destruct (slug_fixed _ _ Hloose) as (_ & _ & Hd & _).
  unfold slugify, strip_dashes, dash_runs, trim.
  rewrite Hl, Hts, He, Hd, Hld, Ht.
  destruct s; [discriminate | reflexivity].
Qed.

End Slugs.

(** X13.  On ASCII text, [slugify] never returns the empty text: its
    result consists of words of lower-case letters and digits joined by
    single dashes, with no dash at either end; it is "item" when nothing is
    left of the input; and slugifying a slug changes nothing. *)
Theorem slugify_is_a_slug (value : string) :
  let slug := slugify value in
  slug <> ""
  /\ separated "-" true slug = true
  /\ slugify slug = slug
  /\ (strip_dashes (dash_runs (trim (toLowerCase value))) = "" -> slug = "item").
Proof.
  cbv zeta.
  assert (Hsep : separated "-" true (slugify value) = true).
  { unfold slugify, strip_dashes, dash_runs.
    pose proof (loosely_dash_runs (trim (toLowerCase value)) false) as Hloose.
    apply strip_leading_separated, strip_trailing_separated in Hloose.
    destruct Hloose as [-> | Hsep]; [reflexivity |].
    destruct (strip_trailing_dashes _); [discriminate | exact Hsep]. }
  split; [now apply (separated_nonempty "-") |]. split; [exact Hsep |].
  split; [now apply joined_slug_fixed |].
  intros E. unfold slugify. now rewrite E.
Qed.

(** ** Token expansion and the catalogue *)

Section Expansion.
Import search.

Lemma set_has_In x members : set_has x members = true <-> In x members.
Proof.
  unfold set_has. rewrite existsb_exists. split.
  - intros (y & Hy & E). apply String.eqb_eq in E. now subst.
  - intros Hx. exists x. split; [exact Hx | apply String.eqb_refl].
Qed.

Lemma set_add_spec x members :
  List.NoDup members ->
  exists extra, set_add x members = members ++ extra
    /\ List.NoDup (set_add x members)
    /\ (forall y, In y extra -> y = x).
Proof.
  intros Hnd. unfold set_add. destruct (set_has x members) eqn:E.
  - exists []. rewrite app_nil_r. repeat split; [exact Hnd | intros y []].
  - exists [x]. repeat split.
    + apply NoDup_ListNoDup. apply NoDup_ListNoDup in Hnd. apply NoDup_app.
      split; [exact Hnd |]. split; [| apply NoDup_singleton].
      intros y Hy Hx. apply list_elem_of_singleton in Hx. subst y.
      apply list_elem_of_In, set_has_In in Hy. congruence.
    + intros y [<- | []]. reflexivity.
Qed.

Lemma add_all_spec items : forall members,
  List.NoDup members ->
  exists extra,
    fold_left (fun acc y => set_add y acc) items members = members ++ extra
    /\ List.NoDup (fold_left (fun acc y => set_add y acc) items members)
    /\ (forall y, In y extra -> In y items)
    /\ (forall y, In y items -> In y (members ++ extra)).
Proof.
  induction items as [| x rest IH]; intros members Hnd; cbn [fold_left].
  - exists []. rewrite app_nil_r. repeat split; [exact Hnd | intros y [] | intros y []].
  - destruct (set_add_spec x members Hnd) as (e1 & E1 & Hnd1 & He1).
    destruct (IH _ Hnd1) as (e2 & E2 & Hnd2 & He2 & Hall).
    exists (e1 ++ e2). rewrite E2, E1, <- app_assoc. repeat split.
    + rewrite app_assoc, <- E1, <- E2. exact Hnd2.
    + intros y Hy. apply in_app_or in Hy as [Hy | Hy]; [left; symmetry; now apply He1 |].
      right. now apply He2.
    + intros y [<- | Hy].
      * assert (Hin : In x (set_add x members)).
        { apply set_has_In. rewrite set_has_add, String.eqb_refl. apply orb_true_r. }
        rewrite E1 in Hin. rewrite app_assoc. apply in_or_app. now left.
      * rewrite app_assoc, <- E1. now apply Hall.
Qed.

Lemma lookup_synonyms_cases token :
  match lookup_synonyms token with
  | OwnSynonyms synonyms => synonyms_of token = synonyms
  | Inherited => inherited_name token = true /\ synonyms_of token = []
  | Undefined => inherited_name token = false /\ synonyms_of token = []
  end.
Proof.
  unfold lookup_synonyms, synonyms_of, inherited_name.
  destruct (assoc_string token TOKEN_SYNONYMS); [reflexivity |].
  destruct (existsb _ _); split; reflexivity.
Qed.

Lemma no_own_inherited token :
  inherited_name token = true -> lookup_synonyms token = Inherited.
Proof.
  unfold inherited_name, lookup_synonyms. intros Hin.
  apply existsb_exists in Hin as (name & Hname & E). apply String.eqb_eq in E. subst name.
  cbn in Hname.
  repeat (destruct Hname as [<- | Hname]; [reflexivity |]). contradiction.
Qed.

Lemma fold_add_synonyms_throw e tokens :
  fold_left add_synonyms tokens (Throw e) = Throw e.
Proof. induction tokens as [| t rest IH]; [reflexivity | exact IH]. Qed.

Lemma add_synonyms_Normal members token :
  add_synonyms (Normal members) token
  = match lookup_synonyms token with
    | OwnSynonyms synonyms =>
        Normal (fold_left (fun acc synonym => set_add synonym acc) synonyms members)
    | Inherited => Throw (TypeError "synonyms.forEach is not a function")
    | Undefined => Normal members
    end.
Proof. reflexivity. Qed.

Lemma fold_add_synonyms tokens : forall members,
  List.NoDup members ->
  if existsb inherited_name tokens
  then fold_left add_synonyms tokens (Normal members)
       = Throw (TypeError "synonyms.forEach is not a function")
  else exists extra,
         fold_left add_synonyms tokens (Normal members) = Normal (members ++ extra)
         /\ List.NoDup (members ++ extra)
         /\ (forall y, In y extra -> exists token, In token tokens /\ In y (synonyms_of token))
         /\ (forall token y, In token tokens -> In y (synonyms_of token) ->
               In y (members ++ extra)).
Proof.
  induction tokens as [| t rest IH]; intros members Hnd; cbn [existsb fold_left].
  - exists []. rewrite app_nil_r. repeat split; [exact Hnd | intros y [] | intros ? ? []].
  - rewrite !add_synonyms_Normal.
    pose proof (lookup_synonyms_cases t) as Hcase.
    destruct (inherited_name t) eqn:Ein.
    { rewrite (no_own_inherited t Ein). cbn [orb]. apply fold_add_synonyms_throw. }
    cbn [orb].
    assert (Hstep : exists mid,
              match lookup_synonyms t with
              | OwnSynonyms synonyms =>
                  Normal (fold_left (fun acc synonym => set_add synonym acc) synonyms members)
              | Inherited => Throw (TypeError "synonyms.forEach is not a function")
              | Undefined => Normal members
              end = Normal (members ++ mid)
              /\ List.NoDup (members ++ mid)
              /\ (forall y, In y mid -> In y (synonyms_of t))
              /\ (forall y, In y (synonyms_of t) -> In y (members ++ mid))).
    { destruct (lookup_synonyms t) as [synonyms | |].
      - rewrite Hcase. destruct (add_all_spec synonyms members Hnd) as (e & E & Hn & He & Ha).
        exists e. rewrite E. repeat split; [now rewrite <- E | exact He | exact Ha].
      - destruct Hcase as [Hbad _]. congruence.
      - destruct Hcase as [_ ->]. exists []. rewrite app_nil_r.
        repeat split; [exact Hnd | intros y [] | intros y []]. }
    destruct Hstep as (mid & -> & Hnd1 & Hmid & Hall1).
    specialize (IH _ Hnd1). destruct (existsb inherited_name rest); [exact IH |].
    destruct IH as (e & E & Hnd2 & He & Hall2).
    exists (mid ++ e). rewrite E, <- app_assoc. repeat split.
    + now rewrite app_assoc.
    + intros y Hy. apply in_app_or in Hy as [Hy | Hy].
      * exists t. split; [now left | now apply Hmid].
      * destruct (He y Hy) as (token & Hin & Hsyn). exists token. split; [now right | exact Hsyn].
    + intros token y [<- | Hin] Hsyn.
      * rewrite app_assoc. apply in_or_app. left. now apply Hall1.
      * rewrite app_assoc. now apply (Hall2 token).
Qed.

End Expansion.

(** X14.  [expandTokens] throws a TypeError when some token names a
    property inherited from [Object.prototype].  Otherwise it returns the
    distinct tokens in their order of first occurrence, followed by synonyms:
    the result has no duplicates and its members are exactly the tokens and
    the synonyms the table lists for them. *)
Theorem expandTokens_members (tokens : list string) :
  if existsb inherited_name tokens
  then search.expandTokens tokens = Throw (TypeError "synonyms.forEach is not a function")
  else exists synonyms,
         search.expandTokens tokens = Normal (new_Set tokens ++ synonyms)
         /\ List.NoDup (new_Set tokens ++ synonyms)
         /\ (forall x, In x (new_Set tokens ++ synonyms) <->
               In x tokens \/ exists token, In token tokens /\ In x (synonyms_of token)).
Proof.
  assert (Hset : List.NoDup (new_Set tokens)
                 /\ forall x, In x (new_Set tokens) <-> In x tokens).
  { split.
    - unfold new_Set. destruct (add_all_spec tokens [] (List.NoDup_nil _)) as (e & _ & Hnd & _).
      exact Hnd.
    - intros x. rewrite <- set_has_In. apply set_has_new_Set. }
  destruct Hset as [Hnd Hmem].
  pose proof (fold_add_synonyms tokens (new_Set tokens) Hnd) as Hfold.
  unfold search.expandTokens. destruct (existsb inherited_name tokens); [exact Hfold |].
  destruct Hfold as (extra & E & Hnd' & Hextra & Hall).
  exists extra. split; [exact E |]. split; [exact Hnd' |].
  intros x. split.
  - intros Hx. apply in_app_or in Hx as [Hx | Hx]; [left; now apply Hmem | right; now apply Hextra].
  - intros [Hx | (token & Hin & Hsyn)].
    + apply in_or_app. left. now apply Hmem.
    + now apply (Hall token).
Qed.

Section Crash.
Import search.

Lemma word_inherited token :
  word token = true -> inherited_name token = String.eqb token "constructor".
Proof.
  intros Hword. unfold inherited_name.
  destruct (String.eqb_spec token "constructor") as [-> | Hne]; [reflexivity |].
  apply not_true_is_false. intros Hin.
  apply existsb_exists in Hin as (name & Hname & E). apply String.eqb_eq in E. subst name.
  cbn in Hname.
  repeat (destruct Hname as [<- | Hname]; [first [contradiction | discriminate Hword] |]).
  contradiction.
Qed.

Lemma words_inherited tokens :
  Forall (fun token => word token = true) tokens ->
  existsb inherited_name tokens = existsb (fun token => String.eqb token "constructor") tokens.
Proof.
  induction 1 as [| token rest Hw _ IH]; [reflexivity |].
  cbn [existsb]. now rewrite IH, (word_inherited token Hw).
Qed.

End Crash.

Lemma compute_results_throws_exactly query exercises limit excludeIds :
  Forall (fun token => word token = true) (query_tokens query)
  /\ if existsb (fun token => String.eqb token "constructor") (query_tokens query)
     then search.compute_results query exercises limit excludeIds
          = Throw (TypeError "synonyms.forEach is not a function")
     else exists found,
            search.compute_results query exercises limit excludeIds = Normal found.
Proof.
  unfold query_tokens, search.compute_results.
  destruct (String.eqb_spec (normalizeSearchText query) "") as [E | Hne].
  - rewrite E. cbn. split; [constructor | eauto].
  - destruct (normalized_tokens _ (normalizeSearchText_joined query) Hne) as [Hwords ->].
    split; [exact Hwords |].
    rewrite <- (words_inherited _ Hwords).
    pose proof (fold_add_synonyms (split_space (normalizeSearchText query))
                  (new_Set (split_space (normalizeSearchText query)))) as Hfold.
    unfold search.expandTokens.
    destruct (existsb inherited_name _).
    + rewrite Hfold; [reflexivity |].
      unfold new_Set. destruct (add_all_spec (split_space (normalizeSearchText query)) []
                                  (List.NoDup_nil _)) as (e & _ & Hnd & _). exact Hnd.
    + destruct Hfold as (extra & -> & _).
      { unfold new_Set. destruct (add_all_spec (split_space (normalizeSearchText query)) []
                                    (List.NoDup_nil _)) as (e & _ & Hnd & _). exact Hnd. }
      cbn [cbind]. eauto.
Qed.

(** X15.  The words of a query are words of lower-case letters and
    digits, so the only inherited property name among them can be
    "constructor": a render of the search, the first one or one after any
    renders before it, throws the TypeError exactly when the normalised
    query contains the word "constructor", leaving the hook as it was, and
    returns a list for every other query, catalogue and options. *)
Theorem search_throws_exactly_on_constructor (history : list Render) (query : string)
    (exercises : JSArray ExerciseCatalogItem)
    (options : option UseSemanticExerciseSearchOptions) :
  Forall (fun token => word token = true) (query_tokens query)
  /\ if existsb (fun token => String.eqb token "constructor") (query_tokens query)
     then search.useSemanticExerciseSearch (rendered history) query exercises options
          = (rendered history, Throw (TypeError "synonyms.forEach is not a function"))
     else exists found,
            (search.useSemanticExerciseSearch (rendered history) query exercises options).2
            = Normal found.
Proof.
  split; [apply (compute_results_throws_exactly query [] 6 []) |].
  destruct (existsb _ (query_tokens query)) eqn:Ec.
  - apply render_throws. intros exercises' limit' excludeIds'.
    pose proof (compute_results_throws_exactly query exercises' limit' excludeIds') as [_ Hc].
    now rewrite Ec in Hc.
  - destruct (useSemanticExerciseSearch_cases (rendered history) query exercises options)
      as (keyCell & ->).
    destruct (remembered _ _ _ _) as [found |]; [eauto |].
    pose proof (compute_results_throws_exactly query (contents exercises) (limit_of options)
                  (excludeIds_of options)) as [_ Hc].
    rewrite Ec in Hc. destruct Hc as (found & ->). eauto.
Qed.

Section Catalogue.
Import exercises search.

Lemma only_bodyweight_equipment equipment :
  only_bodyweight equipment = true -> equipment = ["Bodyweight"].
Proof.
  destruct equipment as [| first [| second rest]]; try discriminate.
  unfold only_bodyweight. cbn. intros E. apply String.eqb_eq in E. now subst.
Qed.

Lemma add_token_score_flag raw score token :
  add_token_score (toExercise raw) score token
  = add_token_score (with_isBodyweight false (toExercise raw)) score token.
Proof.
  destruct (only_bodyweight (raw_equipment raw)) eqn:Eflag.
  - pose proof (only_bodyweight_equipment _ Eflag) as Eeq.
    unfold add_token_score, toExercise, with_isBodyweight.
    cbn [exercise_name muscleGroup filterMuscleGroup secondaryMuscleGroups equipment
         movementPattern isCompound isBodyweight searchIndex].
    rewrite Eflag, Eeq.
    destruct (String.eqb_spec token "bodyweight") as [-> | Hne]; [| now rewrite !andb_false_l].
    assert (Heq : existsb (fun item => includes item "bodyweight")
                    (map normalizeSearchText ["Bodyweight"]) = true) by (vm_compute; reflexivity).
    rewrite Heq. reflexivity.
  - unfold with_isBodyweight, toExercise. cbn. now rewrite Eflag.
Qed.

Lemma fold_add_token_score_flag raw tokens : forall score,
  fold_left (add_token_score (toExercise raw)) tokens score
  = fold_left (add_token_score (with_isBodyweight false (toExercise raw))) tokens score.
Proof.
  induction tokens as [| token rest IH]; intros score; [reflexivity |].
  cbn [fold_left]. now rewrite add_token_score_flag, IH.
Qed.

Lemma exerciseLookup_snoc exercises exercise :
  exerciseLookup (exercises ++ [exercise])
  = <[exercise_id exercise := exercise]> (exerciseLookup exercises).
Proof. unfold exerciseLookup. now rewrite fold_left_app. Qed.

Lemma filter_snoc {A} (p : A -> bool) xs x :
  List.filter p (xs ++ [x]) = List.filter p xs ++ (if p x then [x] else []).
Proof. rewrite List.filter_app. reflexivity. Qed.

Lemma getExerciseById_last exercises id :
  getExerciseById exercises id = last (List.filter (has_exercise_id id) exercises).
Proof.
  unfold getExerciseById.
  induction exercises as [| exercise rest IH] using rev_ind; [reflexivity |].
  rewrite exerciseLookup_snoc, filter_snoc. unfold has_exercise_id at 2.
  destruct (String.eqb_spec (exercise_id exercise) id) as [<- | Hne].
  - now rewrite lookup_insert_eq, last_snoc.
  - rewrite lookup_insert_ne by exact Hne. now rewrite app_nil_r.
Qed.

End Catalogue.

(** X16.  For a catalogue item built by [toExercise] the [isBodyweight]
    flag never decides a score: the item scores the same with the flag
    cleared, because an item has the flag only when its equipment is
    exactly ["Bodyweight"], which the token "bodyweight" matches before the
    flag is tried. *)
Theorem bodyweight_flag_never_scores (raw : RawExercise) (tokens : list string) :
  search.scoreExercise (exercises.toExercise raw) tokens
  = search.scoreExercise (with_isBodyweight false (exercises.toExercise raw)) tokens
  /\ (isBodyweight (exercises.toExercise raw) = true ->
      equipment (exercises.toExercise raw) = ["Bodyweight"]
      /\ equipment_item (exercises.toExercise raw) "bodyweight" = true).
Proof.
  split.
  - unfold search.scoreExercise. destruct tokens as [| token rest]; [reflexivity |].
    apply fold_add_token_score_flag.
  - intros Hflag. apply only_bodyweight_equipment in Hflag.
    unfold equipment_item. cbn [exercises.toExercise equipment]. rewrite Hflag.
    split; [reflexivity | vm_compute; reflexivity].
Qed.

(** X17.  [getExerciseById] returns the last catalogue item with the
    given id: an item it returns has that id and is in the catalogue, it
    returns [undefined] exactly when no item has the id, and when the ids of
    the catalogue are distinct every item is found under its id. *)
Theorem getExerciseById_finds_last (catalogue : list ExerciseCatalogItem) (id : string) :
  exercises.getExerciseById catalogue id = last (List.filter (has_exercise_id id) catalogue)
  /\ (forall found, exercises.getExerciseById catalogue id = Some found ->
        exercise_id found = id /\ In found catalogue)
  /\ (exercises.getExerciseById catalogue id = None <->
      Forall (fun exercise => exercise_id exercise <> id) catalogue)
  /\ (List.NoDup (map exercise_id catalogue) ->
      forall exercise, In exercise catalogue ->
        exercises.getExerciseById catalogue (exercise_id exercise) = Some exercise).
Proof.
  split; [apply getExerciseById_last |]. rewrite !getExerciseById_last. split; [| split].
  - intros found Hlast. apply last_Some in Hlast as [front Hfront].
    assert (Hin : In found (List.filter (has_exercise_id id) catalogue))
      by (rewrite Hfront; apply in_or_app; right; now left).
    apply filter_In in Hin as [Hin Hid]. apply String.eqb_eq in Hid. now split.
  - rewrite last_None. split.
    + intros Hnone. apply List.Forall_forall. intros exercise Hin Hid.
      assert (Hmem : In exercise (List.filter (has_exercise_id id) catalogue)).
      { apply filter_In. split; [exact Hin |]. now apply String.eqb_eq. }
      rewrite Hnone in Hmem. exact Hmem.
    + intros Hall. apply filter_none. intros exercise Hin.
      rewrite List.Forall_forall in Hall. apply String.eqb_neq. now apply Hall.
  - intros Hnd exercise Hin. rewrite getExerciseById_last.
    induction catalogue as [| first rest IH] using rev_ind; [contradiction |].
    rewrite map_app in Hnd. cbn [map] in Hnd.
    rewrite filter_snoc. unfold has_exercise_id at 2.
    apply in_app_or in Hin as [Hin | [<- | []]].
    + destruct (String.eqb_spec (exercise_id first) (exercise_id exercise)) as [E | Hne].
      * exfalso. apply NoDup_ListNoDup in Hnd. apply NoDup_app in Hnd as (_ & Hdisj & _).
        apply (Hdisj (exercise_id exercise)).
        -- apply list_elem_of_In, in_map, Hin.
        -- rewrite E. apply list_elem_of_singleton. reflexivity.
      * rewrite app_nil_r. apply IH; [| exact Hin].
        apply NoDup_ListNoDup. apply NoDup_ListNoDup in Hnd. now apply NoDup_app in Hnd as (? & _).
    + rewrite String.eqb_refl. apply last_snoc.
Qed.

(** ** Dates, totals and durations *)

Section Dates.

(** X18.  [formatDateToLocalISO] gives two valid dates the same text
    exactly when they fall on the same local day, that is when their local
    year, month and day agree; the month it prints is between 1 and 12 and
    the day between 1 and 31; and the text of the Invalid Date, "NaN-NaN-NaN",
    is the text of no valid date. *)
Theorem local_iso_identifies_calendar_date (a b : DateTime) :
  (formatDateToLocalISO (Some a) = formatDateToLocalISO (Some b) <-> local_day a = local_day b)
  /\ (local_day a = local_day b <->
      getFullYear a = getFullYear b /\ getMonth a = getMonth b /\ getDate a = getDate b)
  /\ formatDateToLocalISO None <> formatDateToLocalISO (Some a)
  /\ formatDateToLocalISO None = "NaN-NaN-NaN"
  /\ (1 <= getMonth a + 1 <= 12)%Z /\ (1 <= getDate a <= 31)%Z.
Proof.
  split; [| split; [| split; [| split]]].
  - split; [apply formatDateToLocalISO_inj |].
    intros E. rewrite !formatDateToLocalISO_valid.
    unfold getFullYear, getMonth, getDate. now rewrite E.
  - split.
    + intros E. unfold getFullYear, getMonth, getDate. now rewrite E.
    + intros (Hy & Hm & Hd). apply civil_from_days_inj.
      unfold getFullYear, getMonth, getDate in *.
      destruct (civil_from_days (local_day a)) as [[y1 m1] d1],
               (civil_from_days (local_day b)) as [[y2 m2] d2].
      cbn [fst snd] in *. f_equal; [f_equal |]; lia.
  - apply formatDateToLocalISO_invalid.
  - reflexivity.
  - apply civil_fields_range.
Qed.

End Dates.

Section Totals.
Context `{JSONGlobal}.
Import workout workoutSessionsStore.
Local Open Scope Z_scope.

Lemma filterC_length {A} (p : A -> Completion bool) (xs : list A) kept :
  filterC p xs = Normal kept -> (List.length kept <= List.length xs)%nat.
Proof.
  revert kept. induction xs as [| x rest IH]; intros kept; cbn [filterC cbind].
  - intros E. injection E as <-. reflexivity.
  - destruct (p x) as [keep | e]; [| discriminate]. cbn [cbind].
    destruct (filterC p rest) as [ys | e]; [| discriminate]. cbn [cbind].
    intros E. injection E as <-. specialize (IH ys eq_refl).
    destruct keep; cbn [List.length]; lia.
Qed.

Lemma fold_totals_throw e exercises :
  fold_left add_exercise_totals exercises (Throw e) = Throw e.
Proof. induction exercises as [| x rest IH]; [reflexivity | exact IH]. Qed.

Lemma add_exercise_totals_Normal totals exercise :
  add_exercise_totals (Normal totals) exercise
  = (let? sets := member exercise "sets" in
     let? all := array_method "filter" sets in
     let? completed := filterC is_completed all in
     Normal (fst totals + Z.of_nat (List.length all),
             snd totals + Z.of_nat (List.length completed)))%completion.
Proof. reflexivity. Qed.

Lemma fold_totals_bounds exercises : forall total completed totals,
  0 <= completed <= total ->
  fold_left add_exercise_totals exercises (Normal (total, completed)) = Normal totals ->
  0 <= snd totals <= fst totals.
Proof.
  induction exercises as [| exercise rest IH]; intros total completed totals Hb; cbn [fold_left].
  - intros E. injection E as <-. exact Hb.
  - rewrite add_exercise_totals_Normal. cbn [fst snd].
    destruct (member exercise "sets") as [sets | e]; cbn [cbind];
      [| now rewrite fold_totals_throw].
    destruct (array_method "filter" sets) as [all | e]; cbn [cbind];
      [| now rewrite fold_totals_throw].
    destruct (filterC is_completed all) as [kept | e] eqn:Ek; cbn [cbind];
      [| now rewrite fold_totals_throw].
    apply IH. apply filterC_length in Ek. lia.
Qed.

Lemma filterC_is_completed sets :
  Forall (fun v => not_null v = true) sets ->
  filterC is_completed sets = Normal (List.filter marked_completed sets).
Proof.
  induction 1 as [| set rest Hnn _ IH]; [reflexivity |].
  cbn [filterC List.filter]. rewrite IH.
  destruct set; try discriminate; reflexivity.
Qed.

Lemma own_with_property k v fields : own k (with_property k v fields) = Some v.
Proof.
  induction fields as [| [k' v'] rest IH]; cbn [with_property own].
  - now rewrite String.eqb_refl.
  - destruct (String.eqb_spec k k') as [<- | Hne]; cbn [own].
    + now rewrite String.eqb_refl.
    + destruct (String.eqb_spec k k') as [E | _]; [contradiction | exact IH].
Qed.

Lemma member_claimed_exercise exercise :
  member (claimed_exercise exercise) "sets"
  = Normal (Some (JArr (map claimed_set (sets_of exercise)))).
Proof. unfold claimed_exercise. cbn [member opt_member]. now rewrite own_with_property. Qed.

Lemma fold_totals_claimed exercises : forall total completed,
  fold_left add_exercise_totals (map claimed_exercise exercises) (Normal (total, completed))
  = Normal (total + Z.of_nat (List.length (concat (map sets_of exercises))),
            completed
            + Z.of_nat (List.length
                          (List.filter marked_completed
                             (map claimed_set (concat (map sets_of exercises)))))).
Proof.
  induction exercises as [| exercise rest IH]; intros total completed; cbn [map fold_left concat].
  - cbn. now rewrite !Z.add_0_r.
  - rewrite add_exercise_totals_Normal. cbn [fst snd].
    rewrite member_claimed_exercise. cbn [cbind array_method].
    rewrite filterC_is_completed
      by (apply List.Forall_forall; intros v Hv; apply in_map_iff in Hv as (x & <- & _);
          reflexivity).
    cbn [cbind]. rewrite IH. fold (sets_of exercise).
    rewrite !length_app, map_app, List.filter_app, !length_app, length_map.
    f_equal. f_equal; lia.
Qed.

Lemma filter_claimed_sets sets :
  List.filter marked_completed (map claimed_set sets)
  = map claimed_set (List.filter marked_completed sets).
Proof.
  induction sets as [| set rest IH]; [reflexivity |].
  cbn [map List.filter]. rewrite IH.
  assert (E : marked_completed (claimed_set set) = marked_completed set).
  { unfold marked_completed, claimed_set. cbn. now destruct (truthy _). }
  rewrite E. now destruct (marked_completed set).
Qed.

Lemma totals_of_hydrated stored hydrated :
  normalizeWorkout stored = Normal hydrated ->
  getWorkoutTotals (Some hydrated)
  = Normal (Z.of_nat (List.length (concat (map sets_of (exercises_of stored)))),
            Z.of_nat (List.length
                        (List.filter marked_completed
                           (concat (map sets_of (exercises_of stored)))))).
Proof.
  intros Hnorm.
  assert (Hnn : not_null stored = true).
  { destruct stored; try reflexivity. discriminate Hnorm. }
  pose proof (normalizeWorkout_cases stored Hnn) as Hc.
  destruct (no_null_entry stored) eqn:Enull.
  - rewrite Hc in Hnorm. injection Hnorm as <-.
    unfold getWorkoutTotals, claimed_workout. rewrite own_with_property.
    cbn [array_method cbind]. rewrite fold_totals_claimed. fold (exercises_of stored).
    now rewrite filter_claimed_sets, length_map, !Z.add_0_l.
  - destruct Hc as [e He]. congruence.
Qed.

(** X19.  For a workout that hydration built, [getWorkoutTotals] does not
    throw: it returns the number of sets over all exercises of the stored
    workout and the number of those marked completed.  Whenever it returns,
    for any workout, the completed count lies between 0 and the total; for
    [null] both are 0. *)
Theorem getWorkoutTotals_counts (stored : json) (workout : option Workout) :
  (forall hydrated,
     normalizeWorkout stored = Normal hydrated ->
     let all := concat (map sets_of (exercises_of stored)) in
     getWorkoutTotals (Some hydrated)
     = Normal (Z.of_nat (List.length all),
               Z.of_nat (List.length (List.filter marked_completed all))))
  /\ (forall totals,
        getWorkoutTotals workout = Normal totals -> 0 <= snd totals <= fst totals)
  /\ getWorkoutTotals None = Normal (0, 0).
Proof.
  split; [| split; [| reflexivity]].
  - intros hydrated Hnorm. cbv zeta. now apply totals_of_hydrated.
  - intros totals. unfold getWorkoutTotals. destruct workout as [fields |].
    + destruct (array_method "reduce" (own "exercises" fields)) as [exercises | e];
        [| discriminate].
      cbn [cbind]. apply fold_totals_bounds. lia.
    + intros E. injection E as <-. cbn. lia.
Qed.

End Totals.

Section Durations.
Import workout.
Local Open Scope Z_scope.

Lemma length_repeat_char n c : String.length (repeat_char n c) = n.
Proof. induction n as [| n IH]; cbn; [reflexivity | now rewrite IH]. Qed.

Lemma append_assoc (a b c : string) : ((a ++ b) ++ c = a ++ b ++ c)%string.
Proof.
  induction a as [| x a IH]; [reflexivity |].
  change (String x ((a ++ b) ++ c) = String x (a ++ b ++ c))%string. now f_equal.
Qed.

Lemma pretty_short n : 0 <= n < 100 -> (String.length (pretty n) <= 2)%nat.
Proof.
  intros Hn. destruct (two_digits_spec n Hn) as [Hlen _].
  unfold two_digits, padStart in Hlen. rewrite length_append, length_repeat_char in Hlen. lia.
Qed.

(** The two shapes of a label. *)
Lemma formatDurationLabel_positive a :
  0 < a ->
  formatDurationLabel (Some a)
  = if a <? 60 then (pretty a ++ "s")%string
    else (pretty (a / 60) ++ "m " ++ two_digits (a mod 60) ++ "s")%string.
Proof.
  intros Ha. unfold formatDurationLabel.
  destruct (Z.eqb_spec a 0) as [E | _]; [lia |].
  destruct (Z.leb_spec a 0) as [E | _]; [lia |]. cbn [orb].
  destruct (Z.ltb_spec a 60) as [Hlt | Hge].
  - rewrite Z.div_small, Z.mod_small by lia. reflexivity.
  - destruct (Z.eqb_spec (a / 60) 0) as [E | _]; [| reflexivity].
    apply Z.div_small_iff in E; lia.
Qed.

Lemma long_label_length (m s : Z) :
  0 <= s < 100 ->
  String.length (pretty m ++ "m " ++ two_digits s ++ "s") = (String.length (pretty m) + 5)%nat.
Proof.
  intros Hs. destruct (two_digits_spec s Hs) as [Hlen _].
  rewrite length_append. change ("m " ++ two_digits s ++ "s")%string
    with (String "m" (String " " (two_digits s ++ "s"))).
  cbn [String.length]. rewrite length_append, Hlen. reflexivity.
Qed.

(** X20.  On whole seconds, [formatDurationLabel] gives two positive
    durations the same label only when they are equal, a positive duration
    never gets the label "Not tracked", and zero, negative and missing
    durations all get it. *)
Theorem formatDurationLabel_distinguishes (a b : Z) :
  0 < a -> 0 < b ->
  (formatDurationLabel (Some a) = formatDurationLabel (Some b) -> a = b)
  /\ formatDurationLabel (Some a) <> formatDurationLabel None
  /\ formatDurationLabel (Some (- a)) = formatDurationLabel None
  /\ formatDurationLabel (Some 0) = formatDurationLabel None.
Proof.
  intros Ha Hb.
  assert (Hmod : forall n, 0 <= n mod 60 < 100)
    by (intros n; pose proof (Z.mod_pos_bound n 60 ltac:(lia)); lia).
  split; [| split; [| split]].
  - rewrite !formatDurationLabel_positive by assumption.
    destruct (Z.ltb_spec a 60) as [Ha60 | Ha60], (Z.ltb_spec b 60) as [Hb60 | Hb60]; intros E.
    + apply append_inj_suffix in E as [E _]; [| reflexivity]. now apply (inj pretty) in E.
    + apply (f_equal String.length) in E. rewrite long_label_length in E by apply Hmod.
      rewrite length_append in E. pose proof (pretty_short a ltac:(lia)). cbn in E. lia.
    + apply (f_equal String.length) in E. rewrite long_label_length in E by apply Hmod.
      rewrite length_append in E. pose proof (pretty_short b ltac:(lia)). cbn in E. lia.
    + destruct (two_digits_spec _ (Hmod a)) as [La Va], (two_digits_spec _ (Hmod b)) as [Lb Vb].
      apply append_inj_suffix in E as [Em Es].
      2:{ change ("m " ++ two_digits (a mod 60) ++ "s")%string
            with (String "m" (String " " (two_digits (a mod 60) ++ "s"))).
          change ("m " ++ two_digits (b mod 60) ++ "s")%string
            with (String "m" (String " " (two_digits (b mod 60) ++ "s"))).
          cbn [String.length]. rewrite !length_append, La, Lb. reflexivity. }
      apply (inj pretty) in Em.
      change ("m " ++ two_digits (a mod 60) ++ "s")%string
        with (String "m" (String " " (two_digits (a mod 60) ++ "s"))) in Es.
      change ("m " ++ two_digits (b mod 60) ++ "s")%string
        with (String "m" (String " " (two_digits (b mod 60) ++ "s"))) in Es.
      injection Es as Es. apply append_inj_prefix in Es as [Es _]; [| congruence].
      assert (Hs : a mod 60 = b mod 60) by congruence.
      rewrite (Z.div_mod a 60), (Z.div_mod b 60) by lia. lia.
  - rewrite formatDurationLabel_positive by assumption. cbn [formatDurationLabel].
    change "Not tracked" with ("Not tracke" ++ "d")%string.
    destruct (a <? 60); intros E.
    + apply append_inj_suffix in E as [_ E]; [discriminate | reflexivity].
    + assert (E' : ((pretty (a / 60) ++ "m " ++ two_digits (a mod 60)) ++ "s"
                    = "Not tracke" ++ "d")%string).
      { rewrite <- E. now rewrite !append_assoc. }
      apply append_inj_suffix in E' as [_ E']; [discriminate | reflexivity].
  - unfold formatDurationLabel.
    destruct (Z.eqb_spec (- a) 0) as [E | _]; [lia |].
    destruct (Z.leb_spec (- a) 0) as [_ | E]; [reflexivity | lia].
  - reflexivity.
Qed.

End Durations.

(** ** Selecting exercises *)

Section Builder.
Import planBuilder.

Lemma findIndex_Some id items i :
  findIndex id items = Some i ->
  exists item, items !! i = Some item /\ plan_exercise_id item = id
    /\ forall j other, (j < i)%nat -> items !! j = Some other -> plan_exercise_id other <> id.
Proof.
  revert i. induction items as [| item rest IH]; intros i; cbn [findIndex]; [discriminate |].
  destruct (String.eqb_spec (plan_exercise_id item) id) as [E | Hne].
  - intros [= <-]. exists item. repeat split; [exact E |]. intros j other Hj. lia.
  - destruct (findIndex id rest) as [k |]; [| discriminate]. cbn. intros [= <-].
    destruct (IH k eq_refl) as (found & Hat & Hid & Hfirst).
    exists found. repeat split; [exact Hat | exact Hid |].
    intros [| j] other Hj Hother; cbn in Hother.
    + injection Hother as <-. exact Hne.
    + apply (Hfirst j); [lia | exact Hother].
Qed.

Lemma findIndex_None id items :
  findIndex id items = None <-> ~ In id (selected_ids items).
Proof.
  induction items as [| item rest IH]; cbn [findIndex selected_ids map]; [intuition |].
  destruct (String.eqb_spec (plan_exercise_id item) id) as [E | Hne].
  - split; [discriminate | intros Hn; exfalso; apply Hn; now left].
  - destruct (findIndex id rest) as [k |] eqn:Ek; cbn.
    + split; [discriminate |]. intros Hn. exfalso.
      assert (Hin : In id (selected_ids rest)).
      { destruct (findIndex_Some _ _ _ Ek) as (found & Hat & Hid & _).
        subst id. apply in_map. apply list_elem_of_In. now apply list_elem_of_lookup_2 in Hat. }
      apply Hn. now right.
    + split; [| reflexivity]. intros _ [E | Hin]; [contradiction |].
      now apply IH in Hin.
Qed.

Lemma upsertExercise_ids exercise setsNumber prev :
  selected_ids (upsertExercise exercise setsNumber prev)
  = if set_has (exercise_id exercise) (selected_ids prev)
    then selected_ids prev
    else selected_ids prev ++ [exercise_id exercise].
Proof.
  unfold upsertExercise.
  destruct (findIndex (exercise_id exercise) prev) as [i |] eqn:Ei.
  - destruct (findIndex_Some _ _ _ Ei) as (existing & Hat & Hid & _). rewrite Hat.
    assert (Hhas : set_has (exercise_id exercise) (selected_ids prev) = true).
    { apply set_has_In. rewrite <- Hid. apply in_map, list_elem_of_In.
      now apply list_elem_of_lookup_2 in Hat. }
    rewrite Hhas.
    unfold selected_ids. rewrite list_fmap_insert. cbn [plan_exercise_id].
    apply list_insert_id. now rewrite list_lookup_fmap, Hat.
  - assert (Hhas : set_has (exercise_id exercise) (selected_ids prev) = false).
    { apply not_true_is_false. intros Hin. apply set_has_In in Hin.
      now apply findIndex_None in Ei. }
    rewrite Hhas. unfold selected_ids. now rewrite map_app.
Qed.

End Builder.

Lemma upsertExercise_spec (exercise : ExerciseCatalogItem) (setsNumber : Z)
    (prev : list PlanExercise) :
  let next := planBuilder.upsertExercise exercise setsNumber prev in
  (List.NoDup (selected_ids prev) -> List.NoDup (selected_ids next))
  /\ (exists i entry,
        next !! i = Some entry
        /\ plan_exercise_id entry = exercise_id exercise
        /\ plan_exercise_sets entry = setsNumber
        /\ forall j other, (j < i)%nat -> next !! j = Some other ->
             plan_exercise_id other <> exercise_id exercise)
  /\ (forall i entry, prev !! i = Some entry ->
        plan_exercise_id entry <> exercise_id exercise -> next !! i = Some entry).
Proof.
  cbv zeta. split; [| split].
  - intros Hnd. rewrite upsertExercise_ids.
    destruct (set_has (exercise_id exercise) (selected_ids prev)) eqn:Hhas; [exact Hnd |].
    assert (Hin : ~ In (exercise_id exercise) (selected_ids prev))
      by (intros Hin; apply set_has_In in Hin; congruence).
    apply NoDup_ListNoDup. apply NoDup_ListNoDup in Hnd. apply NoDup_app.
    split; [exact Hnd |]. split; [| apply NoDup_singleton].
    intros id Hid Hx. apply list_elem_of_singleton in Hx. subst id.
    apply Hin. now apply list_elem_of_In.
  - unfold planBuilder.upsertExercise.
    destruct (planBuilder.findIndex (exercise_id exercise) prev) as [i |] eqn:Ei.
    + destruct (findIndex_Some _ _ _ Ei) as (existing & Hat & Hid & Hfirst). rewrite Hat.
      exists i, (mkPlanExercise (plan_exercise_id existing) (plan_exercise_name existing)
                   setsNumber).
      split; [apply list_lookup_insert_eq; now apply lookup_lt_Some in Hat |].
      split; [exact Hid |]. split; [reflexivity |].
      intros j other Hj Hother. rewrite list_lookup_insert_ne in Hother by lia.
      now apply (Hfirst j).
    + exists (List.length prev),
        (mkPlanExercise (exercise_id exercise) (exercise_name exercise) setsNumber).
      split; [now rewrite lookup_app_r, Nat.sub_diag by lia |].
      split; [reflexivity |]. split; [reflexivity |].
      intros j other Hj Hother. rewrite lookup_app_l in Hother by exact Hj.
      apply findIndex_None in Ei. intros E. apply Ei. rewrite <- E.
      apply in_map, list_elem_of_In. now apply list_elem_of_lookup_2 in Hother.
  - intros i entry Hat Hne. unfold planBuilder.upsertExercise.
    destruct (planBuilder.findIndex (exercise_id exercise) prev) as [k |] eqn:Ek.
    + destruct (findIndex_Some _ _ _ Ek) as (existing & Hk & Hid & _). rewrite Hk.
      rewrite list_lookup_insert_ne; [exact Hat |].
      intros <-. rewrite Hat in Hk. injection Hk as <-. contradiction.
    + rewrite lookup_app_l; [exact Hat | now apply lookup_lt_Some in Hat].
Qed.

(** X21.  [confirmPendingExercise] answers 'invalid' with the state
    untouched when no exercise is pending or the set count is not a finite
    number (and only with the state untouched).  It never introduces a
    duplicate id into the selection.  When it answers 'success' the set count
    was at least 1, the first entry of the selection with the pending
    exercise's id carries that count, entries with other ids are where they
    were, the ids are the former ids with the new id appended if it was not
    among them, and the dialog is closed. *)
Theorem confirmPendingExercise_upserts (Number_of : string -> option Z)
    (selectionAsync : Completion unit) (b : PlanBuilder) :
  let outcome := planBuilder.confirmPendingExercise Number_of selectionAsync b in
  let prev := builder_selectedExercises b in
  let next := builder_selectedExercises outcome.1 in
  (outcome.2 = Normal add_invalid -> outcome.1 = b)
  /\ (pendingExercise b = None \/ Number_of (setCountInput b) = None ->
      outcome = (b, Normal add_invalid))
  /\ (List.NoDup (selected_ids prev) -> List.NoDup (selected_ids next))
  /\ (outcome.2 = Normal add_success ->
      exists exercise setsNumber,
        pendingExercise b = Some exercise
        /\ Number_of (setCountInput b) = Some setsNumber
        /\ (1 <= setsNumber)%Z
        /\ (exists i entry,
              next !! i = Some entry
              /\ plan_exercise_id entry = exercise_id exercise
              /\ plan_exercise_sets entry = setsNumber
              /\ forall j other, (j < i)%nat -> next !! j = Some other ->
                   plan_exercise_id other <> exercise_id exercise)
        /\ (forall i entry, prev !! i = Some entry ->
              plan_exercise_id entry <> exercise_id exercise -> next !! i = Some entry)
        /\ selected_ids next
           = (if set_has (exercise_id exercise) (selected_ids prev)
              then selected_ids prev else selected_ids prev ++ [exercise_id exercise])
        /\ pendingExercise outcome.1 = None
        /\ isModalVisible outcome.1 = false).
Proof.
  cbv zeta. unfold planBuilder.confirmPendingExercise.
  destruct (pendingExercise b) as [exercise |] eqn:Ep.
  2:{ split; [reflexivity |]. split; [reflexivity |]. split; [tauto | discriminate]. }
  destruct (Number_of (setCountInput b)) as [n |] eqn:En.
  2:{ split; [reflexivity |]. split; [reflexivity |]. split; [tauto | discriminate]. }
  destruct (Z.ltb_spec n 1) as [Hlt | Hge].
  { split; [reflexivity |]. split; [intros [E | E]; discriminate |].
    split; [tauto | discriminate]. }
  destruct (upsertExercise_spec exercise n (builder_selectedExercises b))
    as (Hnd & Hentry & Hothers).
  destruct selectionAsync as [[] | e]; cbn [fst snd planBuilder.closeModal
    builder_selectedExercises pendingExercise isModalVisible].
  - split; [discriminate |]. split; [intros [E | E]; discriminate |].
    split; [exact Hnd |]. intros _. exists exercise, n.
    split; [reflexivity |]. split; [reflexivity |]. split; [lia |].
    split; [exact Hentry |]. split; [exact Hothers |].
    split; [apply upsertExercise_ids |]. split; reflexivity.
  - split; [discriminate |]. split; [intros [E | E]; discriminate |].
    split; [exact Hnd | discriminate].
Qed.

(** ** What a save leaves behind *)

Section PlanSaveMore.
Context `{JSONGlobal}.
Import storage planSave usePlanSaveHandler usePlanBuilder.

(** X22.  When the inputs are accepted, the creation time is a valid time
    value and storage accepts the write, [handleSavePlan] has [savePlan]
    store the plan before it calls the plans store: at that call the plans
    slot holds the stored plans without those of the saved plan's id,
    followed by the saved plan, whose name is the trimmed name, whose id is
    the edited plan's id or a fresh identifier and whose exercises carry 3
    sets each.  The device the handler leaves is the one the call into the
    plans store leaves from there, so the slot still holds that text when
    the store leaves the slot alone.  The result is 'success' when the store
    call and the calls after it complete and 'error' otherwise, although
    the plan is in the slot.  The saving flag is cleared at the end. *)
Theorem handleSavePlan_stores_plan (iso : Z -> string) (c : Collaborators)
    (p : UsePlanSaveHandlerParams) (s : App) (d : Device) :
  accepted p ->
  is_time_value (default (Date_now c) (editingPlanCreatedAt p)) = true ->
  canUseAsyncStorage (host s) = true ->
  write_fault d = false ->
  let stored := if read_fault d then [] else decoded (slots d !! PLANS_STORAGE_KEY) in
  let plan := saved_plan iso c p in
  let text := JSON_stringify (JArr (other_plans plan stored ++ [JObj plan])) in
  let saved := run (savePlan plan (set_isSaving true s)) d in
  let called := run (plans_store_call c p saved.1.1) saved.1.2 in
  let outcome := run (handleSavePlan iso c p s) d in
  (saved.2 = Normal tt
   /\ slots saved.1.2 = <[PLANS_STORAGE_KEY := text]> (slots d))
  /\ outcome.1.2 = called.1.2
  /\ (slots called.1.2 !! PLANS_STORAGE_KEY = slots saved.1.2 !! PLANS_STORAGE_KEY ->
      slots outcome.1.2 !! PLANS_STORAGE_KEY = Some text)
  /\ outcome.2 = Normal (match called.2, after_save c p with
                         | Normal _, Normal _ => success
                         | _, _ => error
                         end)
  /\ isSaving outcome.1.1 = false
  /\ own "name" plan = Some (JStr (trim (planName p)))
  /\ own "id" plan = Some (JStr (default (createPlanIdentifier c) (editingPlanId p)))
  /\ opt_member (JObj plan) "exercises"
     = Some (JArr (map (fun exercise =>
                          JObj [ ("id", JStr (exercise_id exercise));
                                 ("name", JStr (exercise_name exercise));
                                 ("sets", JNum 3) ])
                       (selectedExercises p))).
Proof.
  intros Hacc Htime Hcan Hw. cbv zeta.
  rewrite (run_handleSavePlan_plan iso c p s d Hacc Htime).
  destruct (run_savePlan (saved_plan iso c p) (set_isSaving true s) d Hcan Hw)
    as (s1 & Hrun & _). cbv zeta in Hrun. rewrite Hrun. cbn [fst snd].
  set (d1 := written PLANS_STORAGE_KEY _ d).
  destruct (after_savePlan_result c p s1 d1) as (Hresult & Hdevice & Hflag).
  split; [split; reflexivity |].
  split; [exact Hdevice |].
  split.
  { intros Hkept. rewrite Hdevice, Hkept. unfold d1. cbn [written slots].
    apply lookup_insert_eq. }
  split.
  { rewrite Hresult.
    destruct (run (plans_store_call c p s1) d1).2 as [[] | e]; [| reflexivity].
    now destruct (after_save c p). }
  split; [exact Hflag |].
  split; [reflexivity |]. split; [reflexivity |].
  unfold saved_plan, WorkoutPlan_object. cbn [opt_member own String.eqb Ascii.eqb Bool.eqb].
  cbn. now rewrite map_map.
Qed.

(** X23.  When the inputs are accepted, [handleSavePlan] leaves [isSaving]
    false whenever the creation time is a valid time value; when it is not,
    the call throws a RangeError after raising the flag, writes nothing, and
    the flag stays true, so that saving stays disabled.  When saving is
    disabled, [handleSavePlan] returns at once with a result other than
    'success'.  [submitPlan] always leaves [isSaving] false once it has
    passed its validations. *)
Theorem saving_flag_after_save (iso : Z -> string) (c : Collaborators)
    (p : UsePlanSaveHandlerParams) (name : string) (selected : list PlanExercise)
    (s : App) (d : Device) :
  (accepted p ->
   if is_time_value (default (Date_now c) (editingPlanCreatedAt p))
   then isSaving (run (handleSavePlan iso c p s) d).1.1 = false
   else run (handleSavePlan iso c p s) d
        = (set_isSaving true s, d, Throw (RangeError "Invalid time value"))
        /\ usePlanSaveHandler.isSaveDisabled p (isSaving (run (handleSavePlan iso c p s) d).1.1) = true)
  /\ (usePlanSaveHandler.isSaveDisabled p (closed_isSaving p) = true ->
      exists result, handleSavePlan iso c p s = Done s (Normal result) /\ result <> success)
  /\ (trim name <> "" -> selected <> [] ->
      isSaving (run (submitPlan iso c name selected s) d).1.1 = false).
Proof.
  split; [| split].
  - intros Hacc. destruct (is_time_value _) eqn:Htime.
    + rewrite (run_handleSavePlan_plan iso c p s d Hacc Htime).
      destruct (run (savePlan _ _) d) as [[s1 d1] [[] | e]]; [| reflexivity].
      now destruct (after_savePlan_result c p s1 d1) as (_ & _ & ->).
    + destruct Hacc as (Hname & Hex & Hsaving).
      assert (Hrun : run (handleSavePlan iso c p s) d
                     = (set_isSaving true s, d, Throw (RangeError "Invalid time value"))).
      { unfold handleSavePlan.
        destruct (String.eqb_spec (trim (planName p)) "") as [E | _]; [contradiction |].
        destruct (selectedExercises p) as [| exercise rest] eqn:Esel; [contradiction |].
        cbn [List.length Nat.eqb]. rewrite Hsaving.
        rewrite run_bind. unfold modify at 1. rewrite run_Done. cbv beta iota zeta.
        rewrite run_lift_bind. unfold toISOString. now rewrite Htime. }
      rewrite Hrun. split; [reflexivity |]. unfold isSaveDisabled. cbn. apply orb_true_r.
  - unfold isSaveDisabled, handleSavePlan. intros Hdis.
    destruct (String.eqb_spec (trim (planName p)) "") as [E | Hne].
    { exists missing_name. split; [reflexivity | discriminate]. }
    destruct (trim (planName p)) as [| ch rest] eqn:Et; [contradiction |].
    cbn [String.length Nat.eqb orb] in Hdis.
    destruct (List.length (selectedExercises p) =? 0)%nat.
    { exists no_exercises. split; [reflexivity | discriminate]. }
    cbn [orb] in Hdis. rewrite Hdis. exists error. split; [reflexivity | discriminate].
  - intros Hname Hsel.
    destruct (run_submitPlan iso c name selected s d Hname Hsel)
      as (payload & s0 & s1 & d1 & r1 & _ & _ & ->).
    destruct r1 as [[] | e]; [| reflexivity].
    now destruct (Haptics_notificationAsync c) as [[] | e].
Qed.

End PlanSaveMore.

(** ** Identifiers and the in-memory auth storage *)

Section Identifiers.

Lemma no_dash_append a b : no_dash (a ++ "-" ++ b) = false.
Proof.
  induction a as [| c a IH]; [reflexivity |].
  change (negb (Ascii.eqb c "-") && no_dash (a ++ "-" ++ b) = false).
  now rewrite IH, andb_false_r.
Qed.

Lemma split_at_last_dash a1 : forall a2 s1 s2,
  no_dash s1 = true -> no_dash s2 = true ->
  (a1 ++ "-" ++ s1 = a2 ++ "-" ++ s2)%string -> a1 = a2 /\ s1 = s2.
Proof.
  induction a1 as [| c1 a1 IH]; intros [| c2 a2] s1 s2 H1 H2 E.
  - injection E as E. now split.
  - injection E as _ E. change (s1 = a2 ++ "-" ++ s2)%string in E.
    rewrite E, no_dash_append in H1. discriminate.
  - injection E as _ E. change (a1 ++ "-" ++ s1 = s2)%string in E.
    rewrite <- E, no_dash_append in H2. discriminate.
  - injection E as -> E. destruct (IH a2 s1 s2 H1 H2 E) as [-> ->]. now split.
Qed.

End Identifiers.

(** X24.  With random suffixes that hold no dash, the identifiers made by
    [createScheduleId], [createPlanIdentifier] and [createPlanId] are equal
    exactly when they were made from the same clock reading and the same
    suffix. *)
Theorem generated_ids_determine_their_parts (c1 c2 : Collaborators) :
  no_dash (random_suffix c1) = true ->
  no_dash (random_suffix c2) = true ->
  let same := Date_now c1 = Date_now c2 /\ random_suffix c1 = random_suffix c2 in
  (schedule.createScheduleId c1 = schedule.createScheduleId c2 <-> same)
  /\ (usePlanSaveHandler.createPlanIdentifier c1 = usePlanSaveHandler.createPlanIdentifier c2
      <-> same)
  /\ (usePlanBuilder.createPlanId c1 = usePlanBuilder.createPlanId c2 <-> same).
Proof.
  intros H1 H2. cbv zeta.
  assert (Hkey : (pretty (Date_now c1) ++ "-" ++ random_suffix c1
                  = pretty (Date_now c2) ++ "-" ++ random_suffix c2)%string
                 <-> Date_now c1 = Date_now c2 /\ random_suffix c1 = random_suffix c2).
  { split.
    - intros E. apply split_at_last_dash in E as [Et Es]; try assumption.
      apply (inj pretty) in Et. now split.
    - intros [-> ->]. reflexivity. }
  split; [| split; exact Hkey].
  rewrite <- Hkey. unfold schedule.createScheduleId. split.
  - intros E. apply append_inj_prefix in E as [_ E]; [exact E | reflexivity].
  - now intros ->.
Qed.

(** X25.  The in-memory auth storage: after [setItem] with a key other
    than "__proto__", [getItem] returns the value set; setting or removing a
    key changes no other key; after [removeItem], [getItem] returns [null],
    unless the key names a property inherited from [Object.prototype], which
    is returned instead.  On a storage built from the empty object,
    "__proto__" can never hold a value, and "constructor" never reads as
    [null]. *)
Theorem memory_storage_laws (m : gmap string string) (key value : string) :
  (key <> "__proto__" ->
   supabaseClient.getItem (supabaseClient.setItem m key value) key
   = supabaseClient.StoredItem value)
  /\ (forall other, other <> key ->
        supabaseClient.getItem (supabaseClient.setItem m key value) other
        = supabaseClient.getItem m other
        /\ supabaseClient.getItem (supabaseClient.removeItem m key) other
           = supabaseClient.getItem m other)
  /\ supabaseClient.getItem (supabaseClient.removeItem m key) key
     = (if existsb (String.eqb key) search.Object_prototype_names
        then supabaseClient.InheritedItem else supabaseClient.NullItem)
  /\ (reachable_storage m ->
      supabaseClient.getItem m "__proto__" = supabaseClient.InheritedItem
      /\ supabaseClient.getItem m "constructor" <> supabaseClient.NullItem).
Proof.
  unfold supabaseClient.getItem, supabaseClient.setItem, supabaseClient.removeItem.
  split; [| split; [| split]].
  - intros Hne. destruct (String.eqb_spec key "__proto__") as [E | _]; [contradiction |].
    now rewrite lookup_insert_eq.
  - intros other Hne. split.
    + destruct (String.eqb key "__proto__"); [reflexivity |].
      now rewrite lookup_insert_ne by congruence.
    + now rewrite lookup_delete_ne by congruence.
  - now rewrite lookup_delete_eq.
  - intros Hreach.
    assert (Hproto : m !! "__proto__" = None).
    { induction Hreach as [| m k v _ IH | m k _ IH]; [reflexivity | |].
      - unfold supabaseClient.setItem. destruct (String.eqb_spec k "__proto__") as [-> | Hne];
          [exact IH |]. now rewrite lookup_insert_ne by exact Hne.
      - unfold supabaseClient.removeItem.
        destruct (String.eqb_spec k "__proto__") as [-> | Hne];
          [apply lookup_delete_eq | now rewrite lookup_delete_ne by exact Hne]. }
    rewrite Hproto. split; [reflexivity |].
    destruct (m !! "constructor"); discriminate.
Qed.

(** ** Searching the catalogue *)

Section Substrings.

Lemma prefix_app t : forall s, String.prefix t s = true <-> exists b, s = (t ++ b)%string.
Proof.
  induction t as [| c t IH]; intros s.
  - split; [intros _; now exists s | intros _; now destruct s].
  - destruct s as [| c' s]; cbn [String.prefix].
    + split; [discriminate | intros [b E]; discriminate].
    + destruct (ascii_dec c c') as [<- | Hne].
      * rewrite IH. split; intros [b E]; exists b; [now rewrite E | now injection E].
      * split; [discriminate | intros [b E]; injection E as E _; congruence].
Qed.

Lemma includes_app s t :
  includes s t = true <-> exists a b, s = (a ++ t ++ b)%string.
Proof.
  induction s as [| c s IH]; cbn [includes].
  - rewrite orb_false_r, prefix_app. split.
    + intros [b E]. now exists "", b.
    + intros (a & b & E). destruct a as [| x a]; [now exists b | discriminate].
  - rewrite orb_true_iff, prefix_app, IH. split.
    + intros [[b E] | (a & b & E)]; [now exists "", b | exists (String c a), b; now rewrite E].
    + intros (a & b & E). destruct a as [| x a]; [left; now exists b |].
      right. injection E as _ E. now exists a, b.
Qed.

Lemma includes_trans s middle t :
  includes s middle = true -> includes middle t = true -> includes s t = true.
Proof.
  rewrite !includes_app. intros (a & b & ->) (a' & b' & ->).
  exists (a ++ a')%string, (b' ++ b)%string. now rewrite !append_assoc.
Qed.

Lemma filter_sublist {A} (p : A -> bool) (l : list A) : sublist (List.filter p l) l.
Proof.
  induction l as [| x l IH]; cbn [List.filter]; [constructor |].
  destruct (p x); now constructor.
Qed.

End Substrings.

Section Filtering.
Import planBuilder.

(** X28.  [filteredExercises] returns the whole catalogue when the trimmed
    search term is empty, and otherwise exactly the exercises of the
    catalogue whose lower-cased name or muscle group contains the
    lower-cased trimmed term, in the order of the catalogue.  A search whose
    term contains the term of another returns no exercise that the other
    does not. *)
Theorem filteredExercises_narrows (exercises : list ExerciseCatalogItem)
    (searchTerm wider : string) :
  let term := toLowerCase (trim searchTerm) in
  (term = "" -> filteredExercises exercises searchTerm = exercises)
  /\ (forall exercise,
        In exercise (filteredExercises exercises searchTerm) <->
        In exercise exercises /\ (term = "" \/ mentions term exercise = true))
  /\ sublist (filteredExercises exercises searchTerm) exercises
  /\ (includes term (toLowerCase (trim wider)) = true ->
      forall exercise,
        In exercise (filteredExercises exercises searchTerm) ->
        In exercise (filteredExercises exercises wider)).
Proof.
  cbv zeta.
  assert (Hmem : forall text exercise,
            In exercise (filteredExercises exercises text) <->
            In exercise exercises
            /\ (toLowerCase (trim text) = ""
                \/ mentions (toLowerCase (trim text)) exercise = true)).
  { intros text exercise. unfold filteredExercises.
    destruct (String.eqb_spec (toLowerCase (trim text)) "") as [E | Hne].
    - split; [intros Hin; split; [exact Hin | now left] | now intros [Hin _]].
    - rewrite filter_In. fold (mentions (toLowerCase (trim text)) exercise).
      split; intros [Hin Hm]; (split; [exact Hin |]); [now right |].
      destruct Hm as [E | Hm]; [contradiction | exact Hm]. }
  split; [| split; [| split]].
  - intros E. unfold filteredExercises. now rewrite E.
  - apply Hmem.
  - unfold filteredExercises. destruct (String.eqb _ ""); [reflexivity |].
    apply filter_sublist.
  - intros Hinc exercise Hin. apply Hmem in Hin as [Hin Hm]. apply Hmem.
    split; [exact Hin |].
    destruct (String.eqb_spec (toLowerCase (trim wider)) "") as [E | Hne]; [now left |].
    right. destruct Hm as [E | Hm].
    + rewrite E in Hinc. apply includes_app in Hinc as (a & b & E').
      destruct a; [| discriminate]. cbn in E'.
      destruct (toLowerCase (trim wider)); [contradiction | discriminate].
    + unfold mentions in *. apply orb_true_iff in Hm. apply orb_true_iff.
      destruct Hm as [Hm | Hm]; [left | right]; now apply (includes_trans _ _ _ Hm).
Qed.

End Filtering.

(** ** Clearing the sessions, and platforms without storage *)

Section Clearing.
Context `{JSONGlobal}.
Import workoutSessionsStore workoutSessionStorage.

(** X27.  [clearWorkouts] never throws and empties the store before it
    touches storage: the store is already empty when the call suspends on
    the removal of the workouts slot (or returns at once, where storage is
    unavailable), so the empty store is what an observer reads before the
    removal settles.  It leaves the schedules alone.  The workouts slot is
    removed exactly when storage is usable and accepts the write; the device
    is untouched otherwise.  When the write is rejected the store's line is
    the last on the console, and the sessions that were stored are still
    what the next load returns. *)
Theorem clearWorkouts_empties_store_first (s : App) (d : Device) :
  let outcome := run (clearWorkouts s) d in
  match clearWorkouts s with
  | Await pending op _ => workouts pending = [] /\ op = RemoveItem WORKOUTS_STORAGE_KEY
  | Done finished _ => workouts finished = []
  end
  /\ getWorkouts (observable (clearWorkouts s)) = []
  /\ outcome.2 = Normal tt
  /\ workouts outcome.1.1 = []
  /\ schedules outcome.1.1 = schedules s
  /\ outcome.1.2
     = (if canUseAsyncStorage (host s) && negb (write_fault d)
        then removed WORKOUTS_STORAGE_KEY d else d)
  /\ (persistence_fails s d ->
      head (console outcome.1.1)
      = Some (LError, "[workoutSessionsStore] Failed to clear stored workouts")
      /\ (run (bind clearWorkouts (fun _ => loadStoredWorkoutSessions) s) d).2
         = Normal (if read_fault d then [] else decoded (slots d !! WORKOUTS_STORAGE_KEY))).
Proof.
  cbv zeta.
  assert (Hfirst : match clearWorkouts s with
                   | Await pending op _ =>
                       workouts pending = [] /\ op = RemoveItem WORKOUTS_STORAGE_KEY
                   | Done finished _ => workouts finished = []
                   end
                   /\ getWorkouts (observable (clearWorkouts s)) = []).
  { unfold clearWorkouts, clearStoredWorkoutSessions,
      workoutSessionStorage.warnAsyncStorageUnavailable, getWorkouts.
    task_unfold. simpl. destruct (canUseAsyncStorage (host s)); simpl; auto. }
  destruct Hfirst as [Hpending Hobservable].
  split; [exact Hpending |]. split; [exact Hobservable |].
  rewrite run_clearWorkouts.
  destruct (canUseAsyncStorage (host s)) eqn:Hcan; [destruct (write_fault d) eqn:Hw |];
    (split; [reflexivity |]); (split; [reflexivity |]); (split; [reflexivity |]);
    (split; [reflexivity |]); intros [Hc Hf]; try congruence.
  split; [reflexivity |].
  rewrite run_bind, run_clearWorkouts, Hcan, Hw.
  match goal with |- (run (_ ?s0) ?d0).2 = _ =>
    destruct (loadStoredWorkoutSessions_loads s0 d0) as (s' & -> & _) end.
  cbn [snd]. unfold readable. cbn [host emit set_workouts]. rewrite Hcan.
  now destruct (read_fault d).
Qed.

End Clearing.

Section Unavailable.
Context `{JSONGlobal}.
Import storage authEmail scheduleStorage workoutSessionStorage planSave usePlanSaveHandler
  usePlanBuilder.

Lemma savePlan_unavailable plan s :
  canUseAsyncStorage (host s) = false ->
  finishes_at_once (storage.savePlan plan) s (Some (unavailable_warning "storage" "savePlan")) tt.
Proof.
  intros Hcan. unfold finishes_at_once, storage.savePlan, storage.warnAsyncStorageUnavailable.
  task_unfold. simpl. rewrite Hcan. reflexivity.
Qed.

(** X26.  Where AsyncStorage cannot be used, every adapter operation finishes
    without a storage call: the five loads return the empty collection or
    null and print nothing, the ten writes and clears print their warning
    and complete normally.  A plan save then reports its usual result,
    'success' when the calls that follow the save complete, although the
    device is left as it was; for [handleSavePlan] this is given that the
    call into the plans store, like the adapters, completes without a
    storage call where storage cannot be used. *)
Theorem nothing_is_stored_without_storage (iso : Z -> string) (c : Collaborators)
    (p : UsePlanSaveHandlerParams) (name : string) (selected : list PlanExercise)
    (s : App) (d : Device) :
  canUseAsyncStorage (host s) = false ->
  (finishes_at_once loadStoredSchedules s None []
   /\ finishes_at_once loadStoredWorkoutSessions s None []
   /\ finishes_at_once storage.getPlans s None []
   /\ finishes_at_once getPendingProfileDraft s None None
   /\ finishes_at_once getPendingAuthEmail s None None)
  /\ ((forall items,
         finishes_at_once (persistStoredSchedules items) s
           (Some (unavailable_warning "scheduleStorage" "persistStoredSchedules")) tt)
      /\ finishes_at_once clearStoredSchedules s
           (Some (unavailable_warning "scheduleStorage" "clearStoredSchedules")) tt
      /\ (forall items,
            finishes_at_once (persistStoredWorkoutSessions items) s
              (Some (unavailable_warning "workoutSessionStorage" "persistStoredWorkoutSessions"))
              tt)
      /\ finishes_at_once clearStoredWorkoutSessions s
           (Some (unavailable_warning "workoutSessionStorage" "clearStoredWorkoutSessions")) tt
      /\ (forall plan,
            finishes_at_once (storage.savePlan plan) s
              (Some (unavailable_warning "storage" "savePlan")) tt)
      /\ (forall id,
            finishes_at_once (storage.deletePlan id) s
              (Some (unavailable_warning "storage" "deletePlan")) tt)
      /\ (forall profile,
            finishes_at_once (setPendingProfileDraft profile) s
              (Some (unavailable_warning "storage" "setPendingProfileDraft")) tt)
      /\ finishes_at_once clearPendingProfileDraft s
           (Some (unavailable_warning "storage" "clearPendingProfileDraft")) tt
      /\ (forall email,
            finishes_at_once (setPendingAuthEmail email) s
              (Some (unavailable_warning "storage" "setPendingAuthEmail")) tt)
      /\ finishes_at_once clearPendingAuthEmail s
           (Some (unavailable_warning "storage" "clearPendingAuthEmail")) tt)
  /\ (accepted p ->
      is_time_value (default (Date_now c) (editingPlanCreatedAt p)) = true ->
      (forall s1, canUseAsyncStorage (host s1) = false ->
                  exists s2, plans_store_call c p s1 = Done s2 (Normal tt)) ->
      let outcome := run (handleSavePlan iso c p s) d in
      outcome.1.2 = d
      /\ outcome.2 = Normal (match after_save c p with Normal _ => success | Throw _ => error end))
  /\ (trim name <> "" -> selected <> [] ->
      let outcome := run (submitPlan iso c name selected s) d in
      outcome.1.2 = d
      /\ outcome.2 = Normal (match Haptics_notificationAsync c with
                             | Normal _ => success
                             | Throw _ => error
                             end)).
Proof.
  intros Hcan.
  split; [| split; [| split]].
  - unfold finishes_at_once, loadStoredSchedules, loadStoredWorkoutSessions, storage.getPlans,
      getPendingProfileDraft, getPendingAuthEmail.
    task_unfold. simpl. rewrite Hcan. repeat split.
  - unfold finishes_at_once, persistStoredSchedules, clearStoredSchedules,
      persistStoredWorkoutSessions, clearStoredWorkoutSessions, storage.savePlan,
      storage.deletePlan, setPendingProfileDraft, clearPendingProfileDraft,
      setPendingAuthEmail, clearPendingAuthEmail,
      scheduleStorage.warnAsyncStorageUnavailable,
      workoutSessionStorage.warnAsyncStorageUnavailable, storage.warnAsyncStorageUnavailable.
    task_unfold. simpl. rewrite Hcan. repeat split.
  - intros Hacc Htime Hstore. cbv zeta.
    rewrite (run_handleSavePlan_plan iso c p s d Hacc Htime).
    rewrite (savePlan_unavailable _ (set_isSaving true s)) by exact Hcan.
    rewrite run_Done. unfold after_savePlan.
    match goal with |- context [plans_store_call c p ?s1] =>
      destruct (Hstore s1 Hcan) as (s2 & ->) end.
    rewrite run_Done. now destruct (after_save c p).
  - intros Hname Hsel. cbv zeta.
    destruct (run_submitPlan iso c name selected s d Hname Hsel)
      as (payload & s0 & s1 & d1 & r1 & Hhost & Hrun & ->).
    rewrite (savePlan_unavailable payload s0) in Hrun by (now rewrite Hhost).
    rewrite run_Done in Hrun. injection Hrun as <- <- <-.
    now destruct (Haptics_notificationAsync c).
Qed.

End Unavailable.

(** ** Opening the set dialog *)

Section Reopening.
Import planBuilder.

Lemma find_findIndex id items :
  List.find (fun item => String.eqb (plan_exercise_id item) id) items
  = findIndex id items ≫= (items !!.).
Proof.
  induction items as [| item rest IH]; [reflexivity |]. cbn [List.find findIndex].
  destruct (String.eqb (plan_exercise_id item) id); [reflexivity |].
  rewrite IH. now destruct (findIndex id rest).
Qed.

Lemma upsertExercise_same exercise existing prev :
  List.find (fun item => String.eqb (plan_exercise_id item) (exercise_id exercise)) prev
  = Some existing ->
  upsertExercise exercise (plan_exercise_sets existing) prev = prev.
Proof.
  rewrite find_findIndex. unfold upsertExercise.
  destruct (findIndex (exercise_id exercise) prev) as [i |]; [| discriminate].
  cbn. intros Hat. rewrite Hat. apply list_insert_id. rewrite Hat. now destruct existing.
Qed.

Lemma upsertExercise_new exercise setsNumber prev :
  List.find (fun item => String.eqb (plan_exercise_id item) (exercise_id exercise)) prev = None ->
  upsertExercise exercise setsNumber prev
  = prev ++ [mkPlanExercise (exercise_id exercise) (exercise_name exercise) setsNumber].
Proof.
  rewrite find_findIndex. unfold upsertExercise.
  destruct (findIndex (exercise_id exercise) prev) as [i |] eqn:Ei; [| reflexivity].
  destruct (findIndex_Some _ _ _ Ei) as (found & Hat & _). cbn. now rewrite Hat.
Qed.

End Reopening.

(** X29.  [startExerciseSelection] opens the dialog on the exercise with
    the selection untouched, and fills the input with the decimal text of
    the sets the exercise is selected with, or with 3 when it is not
    selected.  Confirming without an edit, where [Number] reads that text
    back, leaves the selection as it was for a selected exercise and appends
    the exercise with 3 sets for a new one. *)
Theorem reopening_keeps_selection (Number_of : string -> option Z)
    (selectionAsync : Completion unit) (exercise : ExerciseCatalogItem) (b : PlanBuilder) :
  let prev := builder_selectedExercises b in
  let opened := planBuilder.startExerciseSelection exercise b in
  let outcome := planBuilder.confirmPendingExercise Number_of selectionAsync opened in
  let found :=
    List.find (fun item => String.eqb (plan_exercise_id item) (exercise_id exercise)) prev in
  (builder_selectedExercises opened = prev
   /\ pendingExercise opened = Some exercise
   /\ isModalVisible opened = true)
  /\ (forall existing,
        found = Some existing ->
        setCountInput opened = pretty (plan_exercise_sets existing)
        /\ (Number_of (pretty (plan_exercise_sets existing)) = Some (plan_exercise_sets existing) ->
            builder_selectedExercises outcome.1 = prev))
  /\ (found = None ->
      setCountInput opened = "3"
      /\ (Number_of "3" = Some 3%Z ->
          builder_selectedExercises outcome.1
          = prev ++ [mkPlanExercise (exercise_id exercise) (exercise_name exercise) 3]
          /\ outcome.2 = match selectionAsync with
                         | Normal _ => Normal add_success
                         | Throw e => Throw e
                         end)).
Proof.
  cbv zeta. unfold planBuilder.startExerciseSelection, planBuilder.confirmPendingExercise.
  cbn [builder_selectedExercises pendingExercise isModalVisible setCountInput].
  split; [repeat split |]. split.
  - intros existing Hfound. rewrite Hfound. split; [reflexivity |]. intros ->.
    destruct (plan_exercise_sets existing <? 1)%Z; [reflexivity |].
    destruct selectionAsync as [[] | e];
      cbn [fst planBuilder.closeModal builder_selectedExercises];
      now apply upsertExercise_same.
  - intros Hfound. rewrite Hfound. split; [reflexivity |].
    change (pretty planBuilder.DEFAULT_SET_COUNT) with "3". intros ->.
    change (3 <? 1)%Z with false. cbv iota.
    destruct selectionAsync as [[] | e];
      cbn [fst snd planBuilder.closeModal builder_selectedExercises];
      (split; [now apply upsertExercise_new | reflexivity]).
Qed.

(** * Worked examples *)

Import ReferenceJSON samples.


(** C4 as stated fails on a payload with a [null] set entry: the slot
    decodes to two workouts, whose set records the claim would have
    defaulted, but the hydration is abandoned and the store stays empty. *)
Lemma hydration_abandoned_on_null_set :
  decoded (slots damaged_device !! workoutSessionStorage.WORKOUTS_STORAGE_KEY) = damaged_payload
  /\ (run (workoutSessionsStore.hydrateWorkouts client) damaged_device).2 = Normal tt
  /\ workouts (run (workoutSessionsStore.hydrateWorkouts client) damaged_device).1.1 = []
  /\ map claimed_workout damaged_payload
     = [ [ ("id", JStr "w1");
           ("exercises",
            JArr [ JObj [ ("name", JStr "Squat");
                          ("sets", JArr [ JObj [ ("reps", JNum 0);
                                                 ("weight", JNum 60);
                                                 ("completed", JBool false) ] ]) ] ]) ];
         [ ("id", JStr "w2");
           ("exercises",
            JArr [ JObj [ ("name", JStr "Row");
                          ("sets", JArr [ JObj [ ("reps", JNum 0);
                                                 ("weight", JNum 0);
                                                 ("completed", JBool false) ] ]) ] ]) ] ].
Proof. vm_compute. repeat split. Qed.

(** Deleting plan p1 with two schedules in the store: the first schedule's
    Monday slot is cleared, its Wednesday slot, on another plan, is kept. *)
Lemma delete_plan_clears_references_witness :
  NoDup (map schedule_id (schedules two_schedules))
  /\ exists S',
       schedules (plans.confirmDeletePlan (Some "p1") (schedules two_schedules) two_schedules)
         !! 0%nat = Some S'
       /\ plans.get_day monday (weekdays S') = None
       /\ plans.get_day wednesday (weekdays S') = Some "p2".
Proof.
  assert (Hnd : NoDup (map schedule_id (schedules two_schedules))).
  { simpl. repeat constructor; rewrite ?elem_of_cons, ?elem_of_nil; intuition discriminate. }
  split; [exact Hnd |].
  destruct (delete_plan_clears_references "p1" two_schedules Hnd) as [_ Hall].
  destruct (Hall 0%nat push_pull eq_refl) as (S' & Hat & _ & _ & Hslots & _).
  exists S'. split; [exact Hat |].
  split; [exact (Hslots monday) | exact (Hslots wednesday)].
Defined.

(** C6 as stated fails: for a bodyweight exercise the token "bodyweight"
    matches the equipment before the keyword flag is tried and scores 4,
    where the stated precedence gives 5. *)
Lemma flag_keyword_scored_after_equipment :
  search.scoreExercise push_up ["bodyweight"] = 4
  /\ total_weight stated_precedence push_up ["bodyweight"] = 5.
Proof. vm_compute. split; reflexivity. Qed.

(** A name prefix (7), the equipment (4) and the compound flag (5). *)
Lemma scoreExercise_sums_first_matches_witness :
  Forall (fun token => nonempty token = true) ["push"; "bodyweight"; "compound"]
  /\ search.scoreExercise push_up ["push"; "bodyweight"; "compound"] = 16.
Proof.
  assert (Hne : Forall (fun token => nonempty token = true) ["push"; "bodyweight"; "compound"])
    by (repeat constructor).
  split; [exact Hne |].
  rewrite (scoreExercise_sums_first_matches push_up _ Hne). reflexivity.
Defined.



(** A rejected write behind [addSchedule]: the schedule stays in the store
    and the failure is on the console. *)
Lemma write_failure_logged_without_rollback_witness :
  (canUseAsyncStorage (host client) = true /\ write_fault full_device = true)
  /\ logged_and_kept (run (schedulesStore.addSchedule push_pull client) full_device) full_device
       "[schedulesStore] Failed to persist schedules after add"
       [push_pull] [].
Proof.
  split; [split; reflexivity |].
  destruct (write_failure_logged_without_rollback client full_device eq_refl eq_refl)
    as (_ & _ & Hadd & _).
  exact (Hadd push_pull).
Defined.

(** Saving plan a again, renamed, over the stored plans a and b: the slot
    then reads b followed by the renamed a. *)
Lemma savePlan_moves_plan_to_end_witness :
  (canUseAsyncStorage (host client) = true /\ write_fault device_with_plans = false)
  /\ (run (storage.getPlans client) device_with_plans).2 = Normal [JObj plan_a; JObj plan_b]
  /\ (run (storage.getPlans (run (storage.savePlan plan_a_renamed client) device_with_plans).1.1)
          (run (storage.savePlan plan_a_renamed client) device_with_plans).1.2).2
     = Normal [JObj plan_b; JObj plan_a_renamed].
Proof.
  split; [split; reflexivity |].
  destruct (savePlan_moves_plan_to_end plan_a_renamed client device_with_plans eq_refl eq_refl)
    as (Hbefore & _ & _ & _ & _ & Hafter).
  split; [exact Hbefore |].
  exact (Hafter eq_refl eq_refl eq_refl eq_refl).
Defined.

(** A new plan with a name and two exercises, saved on an empty device, and
    the same save against a device that rejects the write. *)
Lemma plan_save_reports_result_witness :
  (accepted new_plan /\ ~ persistence_fails client empty_device
   /\ persistence_fails client full_device)
  /\ (run (usePlanSaveHandler.handleSavePlan plain_iso quiet new_plan client) empty_device).2
     = Normal success
  /\ (run (usePlanSaveHandler.handleSavePlan plain_iso quiet new_plan client) full_device).2
     = Normal error.
Proof.
  assert (Hacc : accepted new_plan) by (repeat split; discriminate).
  assert (Hok : ~ persistence_fails client empty_device) by (intros [_ Hw]; discriminate Hw).
  assert (Hfail : persistence_fails client full_device) by (split; reflexivity).
  split; [exact (conj Hacc (conj Hok Hfail)) |].
  split.
  - destruct (plan_save_reports_result plain_iso quiet new_plan "" [] client empty_device)
      as (_ & _ & Hsave & _).
    destruct (Hsave eq_refl) as (_ & _ & Hsuccess).
    exact (Hsuccess Hacc Hok (fun _ _ => eq_refl) eq_refl).
  - destruct (plan_save_reports_result plain_iso quiet new_plan "" [] client full_device)
      as (_ & _ & Hsave & _).
    destruct (Hsave eq_refl) as (_ & Herror & _).
    exact (Herror Hacc Hfail).
Defined.

(** The query "chest" over a catalogue of three, on the first render: the
    leg curl scores 0 and is left out, the two chest exercises are returned
    in catalogue order.  And a render that excludes both of them by id,
    after a render whose exclusion array held the one text
    "bench-press|push-up": the key is the same, so the list of that render
    is returned, with both exercises in it. *)
Lemma search_results_ranked_witness :
  (normalizeSearchText "chest" <> ""
   /\ search.expandTokens (query_tokens "chest") = Normal ["chest"; "pec"; "pectorals"; "push"])
  /\ (exists ranked : list search.Entry,
        (search.useSemanticExerciseSearch search.mount "chest" catalogue_array None).2
        = Normal (map fst (firstn 6 ranked))
        /\ StronglySorted not_below ranked
        /\ Permutation ranked (candidates ["chest"; "pec"; "pectorals"; "push"] [] catalogue))
  /\ search.excludeKey_of ["bench-press|push-up"] = search.excludeKey_of ["push-up"; "bench-press"]
  /\ (search.useSemanticExerciseSearch
        (rendered [mkRender "chest" catalogue_array joined_exclusion])
        "chest" catalogue_array both_excluded).2
     = Normal [push_up; bench_press].
Proof.
  assert (Hquery : normalizeSearchText "chest" <> "") by discriminate.
  split; [split; [exact Hquery | reflexivity] |].
  split.
  - destruct (search_results_ranked search.mount "chest" catalogue_array None
                ["chest"; "pec"; "pectorals"; "push"])
      as (_ & Hnone & Hranked).
    destruct (Hranked Hnone Hquery eq_refl ltac:(discriminate))
      as (ranked & Hresult & _ & Hperm & Hsorted & _).
    exists ranked. split; [exact Hresult |]. split; [exact Hsorted | exact Hperm].
  - split; [reflexivity |].
    destruct (search_results_ranked
                (rendered [mkRender "chest" catalogue_array joined_exclusion])
                "chest" catalogue_array both_excluded [])
      as (Hremembered & _).
    assert (Hr : remembered (rendered [mkRender "chest" catalogue_array joined_exclusion])
                   "chest" catalogue_array both_excluded
                 = Some [push_up; bench_press]) by (vm_compute; reflexivity).
    exact (proj1 (Hremembered _ Hr)).
Defined.

(** Deleting plan a from the stored plans a and b leaves b. *)
Lemma deletePlan_removes_plan_witness :
  (canUseAsyncStorage (host client) = true /\ write_fault device_with_plans = false)
  /\ (run (storage.getPlans (run (storage.deletePlan "a" client) device_with_plans).1.1)
          (run (storage.deletePlan "a" client) device_with_plans).1.2).2
     = Normal [JObj plan_b].
Proof.
  split; [split; reflexivity |].
  destruct (deletePlan_removes_plan "a" client device_with_plans eq_refl eq_refl)
    as (_ & _ & _ & _ & Hafter).
  exact (Hafter eq_refl eq_refl eq_refl).
Defined.

(** On a device that rejects writes, deleting throws its own error and
    saving the storage's. *)
Lemma plan_writes_rejected_witness :
  (canUseAsyncStorage (host client) = true /\ write_fault full_device = true)
  /\ (run (storage.deletePlan "a" client) full_device).2
     = Throw (Error "Unable to delete plan")
  /\ (run (storage.savePlan plan_a client) full_device).2 = Throw (HostError "setItem").
Proof.
  split; [split; reflexivity |].
  destruct (plan_writes_rejected "a" plan_a client full_device eq_refl eq_refl)
    as (Hdeleted & _ & _ & Hsaved & _).
  exact (conj Hdeleted Hsaved).
Defined.

(** A complete draft comes back as it was stored. *)
Lemma pending_profile_draft_round_trip_witness :
  (canUseAsyncStorage (host client) = true
   /\ JSON_parse (JSON_stringify (PendingProfileDraft_toJSON sample_draft))
      = Some (PendingProfileDraft_toJSON sample_draft))
  /\ (run (bind (storage.setPendingProfileDraft sample_draft)
             (fun _ => storage.getPendingProfileDraft) client) empty_device).2
     = Normal (Some (PendingProfileDraft_toJSON sample_draft)).
Proof.
  split; [split; reflexivity |].
  exact (proj1 (pending_profile_draft_round_trip sample_draft client empty_device
                  eq_refl eq_refl eq_refl eq_refl eq_refl)).
Defined.

(** An email typed with capitals and blanks around it. *)
Lemma pending_auth_email_round_trip_witness :
  (canUseAsyncStorage (host client) = true /\ read_fault empty_device = false
   /\ write_fault empty_device = false)
  /\ (run (bind (authEmail.setPendingAuthEmail "  Ann@Example.COM ")
             (fun _ => authEmail.getPendingAuthEmail) client) empty_device).2
     = Normal (Some "ann@example.com").
Proof.
  split; [repeat split |].
  exact (proj1 (pending_auth_email_round_trip "  Ann@Example.COM " client empty_device
                  eq_refl eq_refl eq_refl)).
Defined.

(** Three schedules persisted, the slot cleared, and nothing loaded. *)
Lemma clear_then_load_is_empty_witness :
  (canUseAsyncStorage (host client) = true /\ write_fault empty_device = false)
  /\ (run (bind (scheduleStorage.persistStoredSchedules sample_items)
             (fun _ => bind scheduleStorage.clearStoredSchedules
                         (fun _ => scheduleStorage.loadStoredSchedules)) client)
          empty_device).2 = Normal [].
Proof.
  split; [split; reflexivity |].
  destruct (clear_then_load_is_empty sample_items client empty_device eq_refl) as [Hok _].
  exact (proj1 (Hok eq_refl)).
Defined.

(** After adding a schedule on a working device, the slot holds the text of
    the one schedule in the store. *)
Lemma mutations_keep_slot_in_step_witness :
  (canUseAsyncStorage (host client) = true /\ write_fault empty_device = false)
  /\ schedules (run (schedulesStore.addSchedule push_pull client) empty_device).1.1
     = [push_pull]
  /\ schedules_in_step (run (schedulesStore.addSchedule push_pull client) empty_device).1.1
       (run (schedulesStore.addSchedule push_pull client) empty_device).1.2.
Proof.
  split; [split; reflexivity |]. split; [reflexivity |].
  destruct (mutations_keep_slot_in_step client empty_device eq_refl eq_refl) as (Hadd & _).
  exact (Hadd push_pull).
Defined.

(** The workout of two sets, one completed, once hydrated. *)
Lemma getWorkoutTotals_counts_witness :
  exists hydrated,
    workoutSessionsStore.normalizeWorkout squat_workout = Normal hydrated
    /\ workout.getWorkoutTotals (Some hydrated) = Normal (2, 1)%Z.
Proof.
  destruct (workoutSessionsStore.normalizeWorkout squat_workout) as [hydrated | e] eqn:E;
    [| discriminate E].
  exists hydrated. split; [reflexivity |].
  exact (proj1 (getWorkoutTotals_counts squat_workout None) hydrated E).
Defined.

(** Seventy-five seconds. *)
Lemma formatDurationLabel_distinguishes_witness :
  ((0 < 75)%Z /\ (0 < 135)%Z)
  /\ workout.formatDurationLabel (Some 75%Z) = "1m 15s"
  /\ workout.formatDurationLabel (Some 75%Z) <> workout.formatDurationLabel None.
Proof.
  split; [split; reflexivity |]. split; [reflexivity |].
  exact (proj1 (proj2 (formatDurationLabel_distinguishes 75 135 eq_refl eq_refl))).
Defined.

(** The new plan of the earlier example, saved on an empty device with a
    plans store that leaves the device alone: the slot holds the one plan,
    with the trimmed name. *)
Lemma handleSavePlan_stores_plan_witness :
  (accepted new_plan /\ canUseAsyncStorage (host client) = true
   /\ write_fault empty_device = false)
  /\ own "name" (saved_plan plain_iso quiet new_plan) = Some (JStr "Upper body")
  /\ slots (run (usePlanSaveHandler.handleSavePlan plain_iso quiet new_plan client)
              empty_device).1.2 !! storage.PLANS_STORAGE_KEY
     = Some (stringify (JArr [JObj (saved_plan plain_iso quiet new_plan)])).
Proof.
  assert (Hacc : accepted new_plan) by (repeat split; discriminate).
  split; [exact (conj Hacc (conj eq_refl eq_refl)) |]. split; [reflexivity |].
  destruct (handleSavePlan_stores_plan plain_iso quiet new_plan client empty_device
              Hacc eq_refl eq_refl eq_refl) as (_ & _ & Hkept & _).
  exact (Hkept eq_refl).
Defined.

(** The plan under edit whose creation time lies beyond the range of
    [Date]: the save throws and the flag stays raised. *)
Lemma handleSavePlan_throws_on_invalid_time_witness :
  (accepted stale_plan
   /\ planSave.is_time_value
        (default (Date_now quiet) (usePlanSaveHandler.editingPlanCreatedAt stale_plan))
      = false)
  /\ run (usePlanSaveHandler.handleSavePlan plain_iso quiet stale_plan client) empty_device
     = (set_isSaving true client, empty_device, Throw (RangeError "Invalid time value")).
Proof.
  assert (Hacc : accepted stale_plan) by (repeat split; discriminate).
  split; [exact (conj Hacc eq_refl) |].
  exact (proj1 (handleSavePlan_throws_on_invalid_time plain_iso quiet stale_plan client
                  empty_device Hacc eq_refl)).
Defined.

(** Two schedule identifiers made one millisecond apart. *)
Lemma generated_ids_determine_their_parts_witness :
  (no_dash (random_suffix quiet) = true /\ no_dash (random_suffix later) = true)
  /\ schedule.createScheduleId quiet = "schedule-1762128000000-k3x9qa"
  /\ schedule.createScheduleId quiet <> schedule.createScheduleId later.
Proof.
  split; [split; reflexivity |]. split; [reflexivity |].
  intros E.
  destruct (proj1 (proj1 (generated_ids_determine_their_parts quiet later eq_refl eq_refl)) E)
    as [Hnow _].
  discriminate Hnow.
Defined.

(** The new plan of the earlier example, saved during a server render:
    'success', and the device is as empty as before. *)
Lemma nothing_is_stored_without_storage_witness :
  canUseAsyncStorage (host server) = false
  /\ (run (usePlanSaveHandler.handleSavePlan plain_iso quiet new_plan server)
          empty_device).1.2 = empty_device
  /\ (run (usePlanSaveHandler.handleSavePlan plain_iso quiet new_plan server)
          empty_device).2 = Normal success.
Proof.
  split; [reflexivity |].
  assert (Hacc : accepted new_plan) by (repeat split; discriminate).
  destruct (nothing_is_stored_without_storage plain_iso quiet new_plan "Upper body" []
              server empty_device eq_refl) as (_ & _ & Hsave & _).
  exact (Hsave Hacc eq_refl (fun s1 _ => ex_intro _ s1 eq_refl)).
Defined.
